(** * Ranking splitters and ranking train/validation split (mmlspark)

    A shallow embedding of
    [src/msft-recommendation/src/main/python/TrainTestSplit.py] and of the
    fit loop of
    [src/recommendation/src/main/python/RankingTrainValidationSplit.py].

    The splitters are written against the Spark DataFrame API.  A DataFrame
    is modelled as a schema (the ordered list of column names) together with
    a bag of rows, each row a finite map from column name to cell; a cell is
    an integer or SQL NULL.  Every DataFrame method the splitters call is
    given its Spark meaning, and the splitters are then transcribed call by
    call.  Operations that Spark rejects at analysis time (a column that is
    missing or ambiguous) return [None].  Column names are compared as
    written.  A ratio is a rational: the value of the Python float, or the
    decimal literal the caller writes for it.  The product [count * ratio]
    is the binary64 product that Spark and Python compute: both factors are
    taken to the nearest binary64 number and so is their exact product.
    The arrangement that [orderBy(rand())] gives to a partition and the
    draws of [randomSplit] are parameters of the splitters that use
    them. *)

From Stdlib Require Import ZArith QArith Qabs Qpower Lia Lqa.
From stdpp Require Import base option list strings gmap sorting.

Local Open Scope string_scope.
Local Open Scope list_scope.

(** ** Cells, rows and data frames *)

Inductive Cell := Null | Int (z : Z).

Global Instance Cell_eq_dec : EqDecision Cell.
Proof. solve_decision. Defined.

Abbreviation Row := (gmap string Cell).

Record DataFrame := mkDF { columns : list string; rows : list Row }.

Module DF.

(** The cell of row [r] under column [c]. *)
Definition cell (c : string) (r : Row) : Cell := default Null (r !! c).

(** [col(c)]: a column reference resolves when exactly one column has that
    name; otherwise Spark raises an AnalysisException. *)
Definition resolve (c : string) (df : DataFrame) : option unit :=
  if decide (length (filter (λ x, x = c) (columns df)) = 1) then Some () else None.

(** Comparison of a cell with an integer literal; a NULL cell makes the
    predicate NULL, and [where]/[filter] keep only rows where it is true. *)
Definition cell_cmp (op : Z → Z → bool) (v : Cell) (n : Z) : bool :=
  if v is Int z then op z n else false.

Definition cell_cmp2 (op : Z → Z → bool) (v w : Cell) : bool :=
  match v, w with Int a, Int b => op a b | _, _ => false end.

(** Rows of the group with key [k] under grouping column [by_]; [groupBy]
    puts the rows with a NULL key into one group of their own. *)
Definition group (by_ : string) (k : Cell) (rs : list Row) : list Row :=
  filter (λ r, cell by_ r = k) rs.

Definition group_keys (by_ : string) (rs : list Row) : list Cell :=
  remove_dups (cell by_ <$> rs).

(** The aggregate [count(c)]: the number of rows whose [c] is not NULL. *)
Definition count_col (c : string) (rs : list Row) : Z :=
  Z.of_nat (length (filter (λ r, cell c r ≠ Null) rs)).

(** [df.groupBy(by_).agg({c: "count"})]: one row per key, with the key and
    the aggregate under the name [count(c)]. *)
Definition groupBy_count (by_ c : string) (df : DataFrame) : option DataFrame :=
  _ ← resolve by_ df;
  _ ← resolve c df;
  let out := "count(" +:+ c +:+ ")" in
  Some (mkDF [by_; out]
             ((λ k, <[out := Int (count_col c (group by_ k (rows df)))]> {[by_ := k]})
                <$> group_keys by_ (rows df))).

(** [df.withColumnRenamed(old, new)]: no effect when [old] is absent. *)
Definition rename_key (old new : string) (r : Row) : Row :=
  match r !! old with
  | Some v => <[new := v]> (delete old r)
  | None => r
  end.

Definition withColumnRenamed (old new : string) (df : DataFrame) : DataFrame :=
  mkDF ((λ c, if decide (c = old) then new else c) <$> columns df)
       (rename_key old new <$> rows df).

(** [df.where(col(c) >= n)] and the filters on a column against a literal. *)
Definition filter_lit (op : Z → Z → bool) (c : string) (n : Z) (df : DataFrame)
  : option DataFrame :=
  _ ← resolve c df;
  Some (mkDF (columns df) (filter (λ r, cell_cmp op (cell c r) n) (rows df))).

(** [df.filter(col(c) op col(d))]. *)
Definition filter_cols (op : Z → Z → bool) (c d : string) (df : DataFrame)
  : option DataFrame :=
  _ ← resolve c df;
  _ ← resolve d df;
  Some (mkDF (columns df) (filter (λ r, cell_cmp2 op (cell c r) (cell d r)) (rows df))).

Definition others (key : string) (cols : list string) : list string :=
  filter (λ c, c ≠ key) cols.

(** Two rows agree on the join key; NULL keys never match. *)
Definition key_match (key : string) (l r : Row) : Prop :=
  cell key l ≠ Null ∧ cell key r = cell key l.

Global Instance key_match_dec key l r : Decision (key_match key l r).
Proof. unfold key_match. apply _. Defined.

(** [l.join(r, key)]: inner equi-join on one using-column.  The output has
    the key, then the other columns of [l], then the other columns of [r].
    A non-key name carried by both sides is duplicated in the schema, which
    makes any later reference to it ambiguous; [drop] removes all of them. *)
Definition join (l r : DataFrame) (key : string) : option DataFrame :=
  _ ← resolve key l;
  _ ← resolve key r;
  Some (mkDF (key :: others key (columns l) ++ others key (columns r))
             (lr ← rows l; (λ rr, lr ∪ rr) <$> filter (key_match key lr) (rows r))).

(** A row of NULLs over the given columns, for the unmatched side of an
    outer join. *)
Definition null_row (cols : list string) : Row :=
  list_to_map ((λ c, (c, Null)) <$> cols).

Definition unmatched (key : string) (r : Row) (rs : list Row) : Prop :=
  Forall (λ x, ¬ key_match key r x) rs.

Global Instance unmatched_dec key r rs : Decision (unmatched key r rs).
Proof. unfold unmatched. apply _. Defined.

(** [l.join(r, on=key, how="outer")]: the matched pairs, then the rows of
    [l] without a partner and the rows of [r] without a partner, padded
    with NULLs. *)
Definition join_outer (l r : DataFrame) (key : string) : option DataFrame :=
  _ ← resolve key l;
  _ ← resolve key r;
  let lo := others key (columns l) in
  let ro := others key (columns r) in
  Some (mkDF (key :: lo ++ ro)
             ((lr ← rows l; (λ rr, lr ∪ rr) <$> filter (key_match key lr) (rows r))
              ++ ((λ lr, lr ∪ null_row ro) <$> filter (λ lr, unmatched key lr (rows r)) (rows l))
              ++ ((λ rr, rr ∪ null_row lo) <$> filter (λ rr, unmatched key rr (rows l)) (rows r)))).

(** [df.drop(c)]: removes every column of that name; no effect when absent. *)
Definition drop_col (c : string) (df : DataFrame) : DataFrame :=
  mkDF (filter (λ x, x ≠ c) (columns df)) (delete c <$> rows df).

(** [df.select(c1, ..., cn)]: every name must resolve. *)
Definition project (cs : list string) (r : Row) : Row :=
  list_to_map ((λ c, (c, cell c r)) <$> cs).

Definition select (cs : list string) (df : DataFrame) : option DataFrame :=
  if decide (Forall (λ c, resolve c df = Some ()) cs)
  then Some (mkDF cs (project cs <$> rows df))
  else None.

(** [df.withColumn(name, e)]: replaces the column of that name, or appends. *)
Definition withColumn (name : string) (e : Row → Cell) (df : DataFrame) : DataFrame :=
  mkDF (if decide (name ∈ columns df) then columns df else columns df ++ [name])
       ((λ r, <[name := e r]> r) <$> rows df).

(** [df.count()]. *)
Definition count (df : DataFrame) : Z := Z.of_nat (length (rows df)).

(** Rounding to the nearest integer, ties to even: Spark's [bround] at
    scale 0 and Python 3's [round] on one argument. *)
Definition round_half_even (q : Q) : Z :=
  let n := Qnum q in
  let d := Z.pos (Qden q) in
  let f := (n / d)%Z in
  let r2 := (2 * (n mod d))%Z in
  if (r2 <? d)%Z then f
  else if (d <? r2)%Z then (f + 1)%Z
  else if Z.even f then f else (f + 1)%Z.

(** The exponent of the binade of a positive rational [q]: the integer [l]
    with [2 ^ l <= q < 2 ^ (l + 1)]. *)
Definition floor_log2 (q : Q) : Z :=
  let e0 := (Z.log2 (Qnum q) - Z.log2 (Z.pos (Qden q)))%Z in
  if Qle_bool (2 ^ e0) q then e0 else (e0 - 1)%Z.

(** The binary64 number nearest to [q], ties to the even significand: the
    conversion of a Spark long, of a Python int or of a decimal literal to
    a double, and the rounding of every arithmetic result.  A double has
    53 significant bits, and the spacing of the doubles is never below
    [2 ^ -1074].  The exponent is not bounded above here: a result beyond
    the largest double, an infinity in the code, is outside the model. *)
Definition round_double (q : Q) : Q :=
  let e := Z.max (floor_log2 (Qabs q) - 52) (-1074) in
  inject_Z (round_half_even (q / 2 ^ e)) * 2 ^ e.

(** The product [n * x] of an integer and a float, as Spark computes
    [col(c) * ratio] on a long column and Python [count * ratio] on an int:
    the integer is converted to a double and the two doubles are
    multiplied. *)
Definition double_mul (n : Z) (x : Q) : Q :=
  round_double (round_double (inject_Z n) * round_double x).

(** The column expression [bround(col(c) * ratio)]; the value is a whole
    double, kept as its integer. *)
Definition bround_mul (ratio : Q) (v : Cell) : Cell :=
  if v is Int n then Int (round_half_even (double_mul n ratio)) else Null.

(** A window specification: an optional partitioning column, the columns
    its ordering refers to, and the ordering itself as the arrangement it
    gives to the rows of one partition. *)
Record WindowSpec := mkWindow {
  partitionBy : option string;
  orderBy_cols : list string;
  orderBy : list Row → list Row
}.

Fixpoint number_from (i : Z) (name : string) (rs : list Row) : list Row :=
  match rs with
  | [] => []
  | r :: rs' => <[name := Int i]> r :: number_from (i + 1) name rs'
  end.

(** [df.select('*', row_number().over(w).alias(name))]: within each
    partition the rows are numbered 1, 2, ... in window order. *)
Definition row_number_over (w : WindowSpec) (name : string) (df : DataFrame)
  : option DataFrame :=
  _ ← (if partitionBy w is Some p then resolve p df else Some ());
  _ ← (if decide (Forall (λ c, resolve c df = Some ()) (orderBy_cols w)) then Some () else None);
  Some (mkDF (columns df ++ [name])
             (match partitionBy w with
              | Some p => k ← group_keys p (rows df);
                          number_from 1 name (orderBy w (group p k (rows df)))
              | None => number_from 1 name (orderBy w (rows df))
              end)).

(** Order on cells used by [orderBy(col(c).desc())]: NULL is the least
    value, so NULLs come last in descending order. *)
Definition cell_le (v w : Cell) : Prop :=
  match v, w with
  | Null, _ => True
  | Int _, Null => False
  | Int a, Int b => (a ≤ b)%Z
  end.

Global Instance cell_le_dec v w : Decision (cell_le v w).
Proof. destruct v, w; simpl; apply _. Defined.

(** Rows in descending order of column [c]. *)
Definition desc (c : string) (x y : Row) : Prop := cell_le (cell c y) (cell c x).

Global Instance desc_dec c x y : Decision (desc c x y).
Proof. unfold desc. apply _. Defined.

Definition sort_desc (c : string) (rs : list Row) : list Row := merge_sort (desc c) rs.

(** Bernoulli cell sampling: the row at position [i] is kept when its draw
    lies in [[lb, ub)]. *)
Fixpoint sample_cell (lb ub : Q) (draw : nat → Q) (i : nat) (rs : list Row) : list Row :=
  match rs with
  | [] => []
  | r :: rs' =>
      if Qle_bool lb (draw i) && negb (Qle_bool ub (draw i))
      then r :: sample_cell lb ub draw (S i) rs'
      else sample_cell lb ub draw (S i) rs'
  end.

(** [df.randomSplit([w0, w1])]: the weights are normalised to cumulative
    bounds 0, w0/(w0+w1), 1 and both samplers read the same draws.
    Negative weights or a non-positive sum raise. *)
Definition randomSplit (w0 w1 : Q) (draw : nat → Q) (df : DataFrame)
  : option (DataFrame * DataFrame) :=
  if Qle_bool 0 w0 && Qle_bool 0 w1 && negb (Qle_bool (w0 + w1) 0)
  then let c := (w0 / (w0 + w1))%Q in
       Some (mkDF (columns df) (sample_cell 0 c draw 0 (rows df)),
             mkDF (columns df) (sample_cell c 1 draw 0 (rows df)))
  else None.

End DF.

(** ** TrainTestSplit.min_rating_filter *)

Definition by_name (by_customer : bool) : string :=
  if by_customer then "customer" else "item".

Definition with_name (by_customer : bool) : string :=
  if by_customer then "item" else "customer".

Definition split_by_column (by_customer : bool) : string :=
  by_name by_customer +:+ "ID".

Definition split_with_column (by_customer : bool) : string :=
  if by_customer then "item" +:+ "ID" else "customer" +:+ "ID".

Definition min_rating_filter (self : DataFrame) (min_rating : Z) (by_customer : bool)
  : option DataFrame :=
  let by_ := split_by_column by_customer in
  let with_ := split_with_column by_customer in
  grouped ← DF.groupBy_count by_ with_ self;
  let renamed := DF.withColumnRenamed ("count(" +:+ with_ +:+ ")") ("n" +:+ with_) grouped in
  kept ← DF.filter_lit Z.geb ("n" +:+ with_) min_rating renamed;
  joined ← DF.join kept self by_;
  Some (DF.drop_col ("n" +:+ with_) joined).

(** ** The splitters

    A splitter returns [None] when a Spark call raises, [Rejected] when the
    guard prints its message and returns the sentinel, and [Split] with the
    pair of data frames otherwise. *)

Inductive SplitResult :=
| Rejected (printed : string) (sentinel : Z)
| Split (train test : DataFrame).

(** The guard [fixed_test_sample == True & sample > min_rating].  In Python
    [&] binds tighter than the comparisons, so the expression is the
    chained comparison
    [fixed_test_sample == (True & sample) > min_rating], that is
    [fixed_test_sample == (True & sample) and (True & sample) > min_rating],
    where [True & sample] is the integer [1 & sample]. *)
Definition fixed_sample_guard (fixed_test_sample : bool) (sample min_rating : Z) : bool :=
  let masked := Z.land 1 sample in
  (Z.b2z fixed_test_sample =? masked)%Z && (masked >? min_rating)%Z.

(** The two branches shared by the stratified and chronological splitters,
    from [rating_grouped] to the pair of filters on [rank]. *)
Definition rank_split (window_spec : DF.WindowSpec) (rating_joined rating_grouped : DataFrame)
    (split_by_column : string) (ratio : Q) (fixed_test_sample : bool) (sample : Z)
  : option (DataFrame * DataFrame) :=
  if negb fixed_test_sample then
    joined ← DF.join_outer rating_joined rating_grouped split_by_column;
    _ ← DF.resolve "count" joined;
    let rating_all :=
      DF.withColumn "splitPoint" (λ r, DF.bround_mul ratio (DF.cell "count" r)) joined in
    ranked_train ← DF.row_number_over window_spec "rank" rating_all;
    rating_train ← DF.filter_cols Z.gtb "rank" "splitPoint" ranked_train;
    ranked_test ← DF.row_number_over window_spec "rank" rating_all;
    rating_test ← DF.filter_cols Z.leb "rank" "splitPoint" ranked_test;
    Some (rating_train, rating_test)
  else
    ranked_train ← DF.row_number_over window_spec "rank" rating_joined;
    rating_train ← DF.filter_lit Z.gtb "rank" sample ranked_train;
    ranked_test ← DF.row_number_over window_spec "rank" rating_joined;
    rating_test ← DF.filter_lit Z.leb "rank" sample ranked_test;
    Some (rating_train, rating_test).

(** [rand_order] is the arrangement that [orderBy(rand())] gives to the
    rows of a partition; the column is built once, so both filters of a
    splitter see the same arrangement. *)
Definition stratified_split (rand_order : list Row → list Row)
    (self : DataFrame) (min_rating : Z) (by_customer : bool) (ratio : Q)
    (fixed_test_sample : bool) (sample : Z) : option SplitResult :=
  if fixed_sample_guard fixed_test_sample sample min_rating
  then Some (Rejected "sample should be less than min_rating." (-1))
  else
    let by_ := split_by_column by_customer in
    let with_ := split_with_column by_customer in
    rating_joined ← min_rating_filter self min_rating by_customer;
    let window_spec := DF.mkWindow (Some by_) [] rand_order in
    counted ← DF.groupBy_count by_ with_ rating_joined;
    let rating_grouped :=
      DF.withColumnRenamed ("count(" +:+ with_ +:+ ")") "count" counted in
    '(rating_train, rating_test) ←
      rank_split window_spec rating_joined rating_grouped by_ ratio fixed_test_sample sample;
    Some (Split rating_train rating_test).

Definition chronological_split
    (self : DataFrame) (min_rating : Z) (by_customer : bool) (ratio : Q)
    (fixed_test_sample : bool) (sample : Z) : option SplitResult :=
  if fixed_sample_guard fixed_test_sample sample min_rating
  then Some (Rejected "sample should be less than min_rating." (-1))
  else
    let by_ := split_by_column by_customer in
    let with_ := split_with_column by_customer in
    rating_joined ← min_rating_filter self min_rating by_customer;
    counted ← DF.groupBy_count by_ "timeStamp" rating_joined;
    let rating_grouped := DF.withColumnRenamed "count(timeStamp)" "count" counted in
    let window_spec := DF.mkWindow (Some by_) ["timeStamp"] (DF.sort_desc "timeStamp") in
    '(rating_train, rating_test) ←
      rank_split window_spec rating_joined rating_grouped by_ ratio fixed_test_sample sample;
    rating_train ← DF.select [by_; with_; "timeStamp"] rating_train;
    rating_test ← DF.select [by_; with_; "timeStamp"] rating_test;
    Some (Split rating_train rating_test).

Definition non_overlapping_split (rand_order : list Row → list Row)
    (self : DataFrame) (min_rating : Z) (by_customer : bool) (ratio : Q)
  : option SplitResult :=
  rating_joined ← min_rating_filter self min_rating by_customer;
  let by_ := split_by_column by_customer in
  let with_ := split_with_column by_customer in
  counted ← DF.groupBy_count by_ with_ rating_joined;
  let rating_exclusive :=
    DF.drop_col ("n" +:+ with_name by_customer)
      (DF.withColumnRenamed ("count(" +:+ with_ +:+ ")") ("n" +:+ with_name by_customer) counted) in
  let count := DF.count rating_exclusive in
  let window_spec := DF.mkWindow None [] rand_order in
  rating_tmp ← DF.row_number_over window_spec "rowNumber" rating_exclusive;
  let bound := DF.round_half_even (DF.double_mul count ratio) in
  head ← DF.filter_lit Z.leb "rowNumber" bound rating_tmp;
  tail ← DF.filter_lit Z.gtb "rowNumber" bound rating_tmp;
  let rating_split := (DF.drop_col "rowNumber" head, DF.drop_col "rowNumber" tail) in
  rating_train ← DF.join rating_joined rating_split.1 by_;
  rating_test ← DF.join rating_joined rating_split.2 by_;
  Some (Split rating_train rating_test).

(** [rand_draw i] is the uniform draw that [randomSplit] makes for the row
    at position [i]. *)
Definition random_split (rand_draw : nat → Q)
    (self : DataFrame) (min_rating : Z) (by_customer : bool) (ratio : Q)
  : option SplitResult :=
  filtered ← min_rating_filter self min_rating by_customer;
  rating_split ← DF.randomSplit (1 - ratio) ratio rand_draw filtered;
  let rating_train := rating_split.1 in
  let rating_test := rating_split.2 in
  Some (Split rating_train rating_test).

(** ** RankingTrainValidationSplit: the parallel fit tasks and [_fit]

    The estimator, the evaluator and the module [mmlspark.RankingSplitters]
    are collaborators of this file and are taken as parameters:
    [est_fit data params] is [est.fit(data, params)],
    [transform model data params] is [model.transform(data, params)],
    [evaluate] is [eva.evaluate] and metrics are rationals.
    [est.fitMultiple(train, epm)] returns an iterator whose [next] hands
    out an index of [epm] with the model fitted for it; the indices it
    hands out, in order, are the list the iterator is created with (for
    Spark's iterator, every index of [epm] once).  A call that raises
    returns [None]. *)

Section Fit.

Context {ParamMap Model : Type}.
Variable est_fit : DataFrame → ParamMap → Model.
Variable transform : Model → DataFrame → ParamMap → DataFrame.
Variable evaluate : DataFrame → Q.
Variable isLargerBetter : bool.
Variable rs_min_rating_filter : DataFrame → Z → bool → option DataFrame.
Variable rs_stratified_split : DataFrame → Z → bool → Q → bool → Z → option SplitResult.

(** The state of the model iterator: the indices it has yet to hand out. *)
Definition ModelIter := list nat.

Definition fitMultiple (yield_order : list nat) : ModelIter := yield_order.

(** [next(modelIter)]. *)
Definition next_model (train : DataFrame) (epm : list ParamMap) (it : ModelIter)
  : option ((nat * Model) * ModelIter) :=
  match it with
  | [] => None
  | index :: it' => pm ← epm !! index; Some ((index, est_fit train pm), it')
  end.

Definition TaskResult : Type := nat * Q * option Model.

Definition singleTask (train validation : DataFrame) (epm : list ParamMap)
    (collectSubModel : bool) (it : ModelIter) : option (TaskResult * ModelIter) :=
  '((index, model), it') ← next_model train epm it;
  pm ← epm !! index;
  let metric := evaluate (transform model validation pm) in
  Some ((index, metric, if collectSubModel then Some model else None), it').

Definition _parallelFitTasks (train validation : DataFrame) (epm : list ParamMap)
    (collectSubModel : bool) : list (ModelIter → option (TaskResult * ModelIter)) :=
  replicate (length epm) (singleTask train validation epm collectSubModel).

(** The tasks draw from the shared iterator one after the other. *)
Fixpoint run_tasks (tasks : list (ModelIter → option (TaskResult * ModelIter)))
    (it : ModelIter) : option (list TaskResult) :=
  match tasks with
  | [] => Some []
  | f :: tasks' =>
      '(res, it') ← f it;
      rest ← run_tasks tasks' it';
      Some (res :: rest)
  end.

(** [pool.imap_unordered(lambda f: f(), tasks)]: the results arrive in
    completion order, given as the list of task positions in the order in
    which they finish. *)
Definition imap_unordered (completion : list nat)
    (tasks : list (ModelIter → option (TaskResult * ModelIter))) (it : ModelIter)
  : option (list TaskResult) :=
  results ← run_tasks tasks it;
  mapM (λ p, results !! p) completion.

(** [l[j] = v] on a Python list: IndexError out of range. *)
Definition setitem {A} (l : list A) (j : nat) (v : A) : option (list A) :=
  if decide (j < length l) then Some (<[j := v]> l) else None.

(** The body of the [for j, metric, subModel in ...] loop, folded over the
    delivered results. *)
Fixpoint collect (collectSubModelsParam : bool) (delivered : list TaskResult)
    (metrics : list (option Q)) (subModels : option (list (option Model)))
  : option (list (option Q) * option (list (option Model))) :=
  match delivered with
  | [] => Some (metrics, subModels)
  | (j, metric, subModel) :: rest =>
      metrics' ← setitem metrics j (Some metric);
      subModels' ←
        (if collectSubModelsParam
         then match subModels with
              | Some sm => sm' ← setitem sm j subModel; Some (Some sm')
              | None => None
              end
         else Some subModels);
      collect collectSubModelsParam rest metrics' subModels'
  end.

(** [np.argmax] and [np.argmin] on a list of numbers: the first index of
    an extreme value; ValueError on the empty list. *)
Fixpoint arg_from (better : Q → Q → bool) (best_i : nat) (best : Q) (i : nat) (l : list Q)
  : nat :=
  match l with
  | [] => best_i
  | x :: l' =>
      if better x best
      then arg_from better i x (S i) l'
      else arg_from better best_i best (S i) l'
  end.

Definition Qgtb (x y : Q) : bool := negb (Qle_bool x y).
Definition Qltb (x y : Q) : bool := negb (Qle_bool y x).

Definition argmax (l : list Q) : option nat :=
  match l with [] => None | x :: l' => Some (arg_from Qgtb 0%nat x 1%nat l') end.

Definition argmin (l : list Q) : option nat :=
  match l with [] => None | x :: l' => Some (arg_from Qltb 0%nat x 1%nat l') end.

Definition dropDuplicates (df : DataFrame) : DataFrame :=
  mkDF (columns df) (remove_dups (rows df)).

Definition split (dataset : DataFrame) (tRatio : Q) (userColumn itemColumn : string)
  : option (DataFrame * DataFrame) :=
  let renamed :=
    DF.withColumnRenamed itemColumn "itemID"
      (DF.withColumnRenamed userColumn "customerID" (dropDuplicates dataset)) in
  filtered ← rs_min_rating_filter renamed 6 true;
  res ← rs_stratified_split filtered 3 true tRatio false 3;
  match res with
  | Split temp_train temp_validation =>
      Some (DF.withColumnRenamed "itemID" itemColumn
              (DF.withColumnRenamed "customerID" userColumn temp_train),
            DF.withColumnRenamed "itemID" itemColumn
              (DF.withColumnRenamed "customerID" userColumn temp_validation))
  | Rejected _ _ => None
  end.

Record RankingTrainValidationSplitModel := mkModel {
  bestModel : Model;
  validationMetrics : list (option Q);
  subModels : option (list (option Model))
}.

(** [_fit].  [ThreadPool(processes=n)] raises for [n < 1]. *)
Definition _fit (yield_order completion : list nat)
    (dataset : DataFrame) (userColumn itemColumn : string)
    (epm : list ParamMap) (tRatio : Q) (collectSubModelsParam : bool) (parallelism : Z)
  : option RankingTrainValidationSplitModel :=
  let numModels := length epm in
  '(train, validation) ← split dataset tRatio userColumn itemColumn;
  let subModels0 :=
    if collectSubModelsParam then Some (replicate numModels None) else None in
  let tasks := _parallelFitTasks train validation epm collectSubModelsParam in
  _ ← (if (Z.min parallelism (Z.of_nat numModels) <? 1)%Z then None else Some ());
  delivered ← imap_unordered completion tasks (fitMultiple yield_order);
  '(metrics, subModels) ←
    collect collectSubModelsParam delivered (replicate numModels None) subModels0;
  values ← mapM id metrics;
  bestIndex ← (if isLargerBetter then argmax values else argmin values);
  pm ← epm !! bestIndex;
  let bestModel := est_fit dataset pm in
  Some (mkModel bestModel metrics subModels).

(** The metric and the result of the trial for the configuration at
    [index]. *)
Definition trial_metric (train validation : DataFrame) (pm : ParamMap) : Q :=
  evaluate (transform (est_fit train pm) validation pm).

Definition trial_result (train validation : DataFrame) (collectSubModel : bool)
    (index : nat) (pm : ParamMap) : TaskResult :=
  (index, trial_metric train validation pm,
   if collectSubModel then Some (est_fit train pm) else None).

End Fit.

(** A sequence of slot writes [l[j] = v], applied in order. *)
Definition writes {A} (ws : list (nat * A)) (l : list A) : list A :=
  foldl (λ acc w, <[w.1 := w.2]> acc) l ws.

(** [i] is the first index of a greatest (for [le], [lt] the usual orders)
    or least (for their converses) element of [l]. *)
Definition first_extreme (le lt : Q → Q → Prop) (l : list Q) (i : nat) : Prop :=
  ∃ x, l !! i = Some x
       ∧ (∀ j y, l !! j = Some y → le y x)
       ∧ (∀ j y, (j < i)%nat → l !! j = Some y → lt y x).

Definition first_argmax : list Q → nat → Prop := first_extreme Qle Qlt.

Definition first_argmin : list Q → nat → Prop :=
  first_extreme (λ y x, (x <= y)%Q) (λ y x, (x < y)%Q).

(** ** Example inputs *)

Definition row3 (c i r : Z) : Row :=
  <["customerID" := Int c]> (<["itemID" := Int i]> {["rating" := Int r]}).

Definition row4 (c i r t : Z) : Row :=
  <["customerID" := Int c]> (<["itemID" := Int i]> (<["rating" := Int r]> {["timeStamp" := Int t]})).

(** Customer 1 rates item 1 twice; customer 2 rates it once. *)
Definition df0 : DataFrame :=
  mkDF ["customerID"; "itemID"; "rating"] [row3 1 1 4; row3 1 1 5; row3 2 1 3].

(** Customer 1 with four timed ratings and customer 2 with two. *)
Definition df1 : DataFrame :=
  mkDF ["customerID"; "itemID"; "rating"; "timeStamp"]
    [row4 1 1 4 10; row4 1 2 5 30; row4 2 1 3 5; row4 1 3 5 20; row4 2 2 3 6; row4 1 4 1 40].

Definition key3 (c i t : Z) : Row :=
  <["customerID" := Int c]> (<["itemID" := Int i]> {["timeStamp" := Int t]}).

(** Customer 1 rates item 1 twice at the same time. *)
Definition dfdup : DataFrame :=
  mkDF ["customerID"; "itemID"; "rating"; "timeStamp"] [row4 1 1 4 10; row4 1 1 5 10].

Definition row3r (c i k : Z) : Row :=
  <["customerID" := Int c]> (<["itemID" := Int i]> {["rank" := Int k]}).

(** Four customers with one rating each. *)
Definition df4 : DataFrame :=
  mkDF ["customerID"; "itemID"; "rating"] [row3 1 1 5; row3 2 1 4; row3 3 2 3; row3 4 2 5].

(** One customer with seven ratings. *)
Definition df7 : DataFrame :=
  mkDF ["customerID"; "itemID"; "rating"; "timeStamp"]
    [row4 1 1 4 10; row4 1 2 5 20; row4 1 3 3 30; row4 1 4 1 40; row4 1 5 2 50;
     row4 1 6 5 60; row4 1 7 4 70].

(** Customer 1 with four records, two of them without a time stamp. *)
Definition df_null_ts : DataFrame :=
  mkDF ["customerID"; "itemID"; "rating"; "timeStamp"]
    [row4 1 1 4 10; row4 1 2 5 20;
     <["timeStamp" := Null]> (row4 1 3 3 0); <["timeStamp" := Null]> (row4 1 4 2 0)].

(** Customer 1 with 45 records, rated at the times 1 to 45. *)
Definition df45 : DataFrame :=
  mkDF ["customerID"; "itemID"; "rating"; "timeStamp"] ((λ i, row4 1 i 3 i) <$> seqZ 1 45).


Definition row_ui (u i g : Z) : Row :=
  <["user" := Int u]> (<["item" := Int i]> {["rating" := Int g]}).

(** User 1 with eight distinct records, one of them given twice, and
    user 2 with one record, under column names of the caller's own. *)
Definition df_users : DataFrame :=
  mkDF ["user"; "item"; "rating"]
    [row_ui 1 1 4; row_ui 1 2 5; row_ui 1 3 3; row_ui 1 4 1; row_ui 1 5 2; row_ui 1 6 5;
     row_ui 1 6 5; row_ui 1 7 2; row_ui 1 8 3; row_ui 2 1 3].

(** A frame without an item column. *)
Definition df_noitem : DataFrame :=
  mkDF ["customerID"; "rating"]
    [<["customerID" := Int 1]> {["rating" := Int 4]};
     <["customerID" := Int 2]> {["rating" := Int 5]}].

(** A frame with a column named [rank]. *)
Definition df_rank : DataFrame :=
  mkDF ["customerID"; "itemID"; "rank"] [row3r 1 1 1; row3r 1 2 2; row3r 2 1 1].

(** ** Vocabulary of the properties *)

(** A data frame is well formed when its column names are distinct and
    every row has a cell (possibly NULL) for exactly the columns. *)
Definition wf (df : DataFrame) : Prop :=
  NoDup (columns df)
  ∧ Forall (λ r : Row, dom r = list_to_set (columns df)) (rows df).

(** The table that [groupBy(by_).agg({c: "count"})] builds, with the count
    under the name [new]. *)
Definition count_table (by_ c new : string) (rs : list Row) : list Row :=
  (λ k, <[new := Int (DF.count_col c (DF.group by_ k rs))]> {[by_ := k]})
    <$> DF.group_keys by_ rs.

(** In ratio mode the rows that are ranked carry the count of their group
    and the split point computed from it. *)
Definition annotate (by_ c : string) (ratio : Q) (rs : list Row) (r : Row) : Row :=
  let n := DF.count_col c (DF.group by_ (DF.cell by_ r) rs) in
  <["splitPoint" := DF.bround_mul ratio (Int n)]> (<["count" := Int n]> r).

Definition ranked_base (by_ c : string) (ratio : Q) (fixed : bool) (rs : list Row)
  : list Row :=
  if fixed then rs else annotate by_ c ratio rs <$> rs.

(** The number of rows of the group [k] that go to the test side. *)
Definition held_out (by_ c : string) (ratio : Q) (fixed : bool) (sample : Z)
    (rs : list Row) (k : Cell) : Z :=
  if fixed then sample
  else DF.round_half_even (DF.double_mul (DF.count_col c (DF.group by_ k rs)) ratio).

(** [z] is an integer nearest to [x], and the even one of the two when
    [x] lies halfway between two integers. *)
Definition nearest_even (x : Q) (z : Z) : Prop :=
  (Qabs (x - inject_Z z) <= 1 # 2)%Q
  ∧ ((Qabs (x - inject_Z z) == 1 # 2)%Q → Z.even z = true).

(** [x] is a binary64 number: a significand of at most 53 bits times a
    power of two that is at least [2 ^ -1074].  As in [DF.round_double],
    the exponent is not bounded above. *)
Definition binary64 (x : Q) : Prop :=
  ∃ m e : Z, (Z.abs m < 2 ^ 53)%Z ∧ (-1074 ≤ e)%Z ∧ (x == inject_Z m * 2 ^ e)%Q.

(** The last bit of the significand of the binary64 number [x] is 0: [x]
    is an even significand of 53 bits, or of fewer bits at the least
    exponent, times a power of two. *)
Definition even_significand (x : Q) : Prop :=
  ∃ m e : Z, Z.even m = true ∧ (Z.abs m < 2 ^ 53)%Z ∧ (-1074 ≤ e)%Z
             ∧ (e = -1074 ∨ 2 ^ 52 ≤ Z.abs m)%Z ∧ (x == inject_Z m * 2 ^ e)%Q.

(** IEEE 754 rounding to nearest, ties to even: [x] is a binary64 number,
    no binary64 number is nearer to [q], and when another one is as near,
    [x] is the one with the even significand. *)
Definition nearest_double (q x : Q) : Prop :=
  binary64 x
  ∧ ∀ y, binary64 y →
      (Qabs (q - x) <= Qabs (q - y))%Q
      ∧ ((Qabs (q - x) == Qabs (q - y))%Q → ¬ (x == y)%Q → even_significand x).

(** [p] is the split point of the count [n] at the ratio [x]: the count and
    the ratio are taken to the nearest binary64 numbers, their product to
    the binary64 number nearest to it, and that number to the nearest
    integer, the even one from halfway. *)
Definition split_point (n : Z) (x : Q) (p : Z) : Prop :=
  ∃ a r d, nearest_double (inject_Z n) a ∧ nearest_double x r
           ∧ nearest_double (a * r) d ∧ nearest_even d p.

(** The rows of the group [k] in window order, with their rank. *)
Definition ranked_block (w : DF.WindowSpec) (by_ c : string) (ratio : Q) (fixed : bool)
    (rs : list Row) (k : Cell) : list Row :=
  DF.number_from 1 "rank" (DF.orderBy w (DF.group by_ k (ranked_base by_ c ratio fixed rs))).

(** The train and test rows of a ranked split over the rows [rs]: for
    each group the first [held_out] rows in window order go to test and
    the rest to train. *)
Definition train_rows (w : DF.WindowSpec) (by_ c : string) (ratio : Q) (fixed : bool)
    (sample : Z) (rs : list Row) : list Row :=
  DF.group_keys by_ rs
  ≫= (λ k, drop (Z.to_nat (held_out by_ c ratio fixed sample rs k))
             (ranked_block w by_ c ratio fixed rs k)).

Definition test_rows (w : DF.WindowSpec) (by_ c : string) (ratio : Q) (fixed : bool)
    (sample : Z) (rs : list Row) : list Row :=
  DF.group_keys by_ rs
  ≫= (λ k, take (Z.to_nat (held_out by_ c ratio fixed sample rs k))
             (ranked_block w by_ c ratio fixed rs k)).

(** The columns of a ranked split of a frame with columns [cols]. *)
Definition split_columns (by_ : string) (fixed : bool) (cols : list string) : list string :=
  by_ :: DF.others by_ cols
  ++ (if fixed then ["rank"] else ["count"; "splitPoint"; "rank"]).

(** The one-column row of the entity of [r]. *)
Definition key_row (by_ : string) (r : Row) : Row := {[by_ := DF.cell by_ r]}.

(** The distinct entities of the rows [rs], one row each, in the order in
    which [non_overlapping_split] numbers them. *)
Definition shuffled_entities (rand_order : list Row → list Row) (by_ : string)
    (rs : list Row) : list Row :=
  rand_order ((λ k, ({[by_ := k]} : Row)) <$> DF.group_keys by_ rs).

(** The number of rows of the entity [k] among the rows [rs]. *)
Definition group_size (by_ : string) (rs : list Row) (k : Cell) : Z :=
  Z.of_nat (length (DF.group by_ k rs)).

(** The numbers of train and test rows of a call that returned a pair. *)
Definition split_sizes (res : option SplitResult) : option (nat * nat) :=
  match res with
  | Some (Split train test) => Some (length (rows train), length (rows test))
  | _ => None
  end.

(** The frame that [split] hands to the splitters: the distinct records
    of the data set under the column names [customerID] and [itemID]. *)
Definition rename_in (userColumn itemColumn : string) (r : Row) : Row :=
  DF.rename_key itemColumn "itemID" (DF.rename_key userColumn "customerID" r).

Definition renamed_input (dataset : DataFrame) (userColumn itemColumn : string) : DataFrame :=
  DF.withColumnRenamed itemColumn "itemID"
    (DF.withColumnRenamed userColumn "customerID" (dropDuplicates dataset)).

(** An input of [min_rating_filter]: it has the two id columns and no
    column with the name of the temporary count column. *)
Definition filter_input (by_customer : bool) (df : DataFrame) : Prop :=
  wf df
  ∧ split_by_column by_customer ∈ columns df
  ∧ split_with_column by_customer ∈ columns df
  ∧ ("n" +:+ split_with_column by_customer) ∉ columns df.

(** An input of the stratified and chronological splitters: no column
    has the name of a column that the split adds. *)
Definition split_input (by_customer fixed : bool) (df : DataFrame) : Prop :=
  filter_input by_customer df
  ∧ ("rank" ∉ columns df)
  ∧ (fixed = false → ("count" ∉ columns df) ∧ ("splitPoint" ∉ columns df)).

(** The number of ratings of the entity [k]: the rows of its group whose
    counterpart id is not NULL. *)
Definition rating_count (by_customer : bool) (rs : list Row) (k : Cell) : Z :=
  DF.count_col (split_with_column by_customer)
    (DF.group (split_by_column by_customer) k rs).

Definition retained (by_customer : bool) (min_rating : Z) (rs : list Row) (r : Row) : Prop :=
  DF.cell (split_by_column by_customer) r ≠ Null
  ∧ (min_rating ≤ rating_count by_customer rs (DF.cell (split_by_column by_customer) r))%Z.

Global Instance retained_dec b m rs r : Decision (retained b m rs r).
Proof. unfold retained. apply _. Defined.

(** The support count in the words of the specification: the number of
    distinct counterpart entities of the entity [k]. *)
Definition support_count (by_customer : bool) (rs : list Row) (k : Cell) : Z :=
  Z.of_nat (length (remove_dups
    (filter (λ v, v ≠ Null)
       (DF.cell (split_with_column by_customer)
          <$> DF.group (split_by_column by_customer) k rs)))).

Definition supported (by_customer : bool) (min_rating : Z) (rs : list Row) (r : Row) : Prop :=
  (min_rating ≤ support_count by_customer rs (DF.cell (split_by_column by_customer) r))%Z.

Global Instance supported_dec b m rs r : Decision (supported b m rs r).
Proof. unfold supported. apply _. Defined.

(** A stand-in estimator whose model is its parameter and whose metric is
    a tenth of it. *)
Definition toy_fit (_ : DataFrame) (pm : Z) : Z := pm.

Definition toy_transform (model : Z) (_ : DataFrame) (_ : Z) : DataFrame :=
  mkDF ["prediction"] [{["prediction" := Int model]}].

Definition toy_evaluate (d : DataFrame) : Q :=
  match rows d with
  | r :: _ => if DF.cell "prediction" r is Int z then (inject_Z z / 10)%Q else 0%Q
  | [] => 0%Q
  end.

(** * Properties *)

(** ** Lists: filters, binds and groups *)

Section ListFacts.

Context {A B : Type}.

Lemma filter_none (P : A → Prop) `{∀ x, Decision (P x)} (l : list A) :
  Forall (λ x, ¬ P x) l → filter P l = [].
Proof.
  induction 1 as [|x l Hx _ IH]; [done |]. by rewrite filter_cons_False.
Qed.

Lemma filter_all (P : A → Prop) `{∀ x, Decision (P x)} (l : list A) :
  Forall P l → filter P l = l.
Proof.
  induction 1 as [|x l Hx _ IH]; [done |]. by rewrite filter_cons_True, IH.
Qed.

Lemma filter_fmap (f : B → A) (P : A → Prop) `{∀ x, Decision (P x)} (l : list B) :
  filter P (f <$> l) = f <$> filter (λ x, P (f x)) l.
Proof.
  induction l as [|x l IH]; [done |].
  rewrite fmap_cons, !filter_cons. simpl. rewrite IH. by destruct (decide (P (f x))).
Qed.

Lemma filter_bind (f : B → list A) (P : A → Prop) `{∀ x, Decision (P x)} (l : list B) :
  filter P (l ≫= f) = l ≫= (λ x, filter P (f x)).
Proof.
  induction l as [|x l IH]; [done |].
  cbn [mbind list_bind]. by rewrite filter_app, IH.
Qed.

Lemma bind_Permutation_ext (f g : B → list A) (l : list B) :
  (∀ x, x ∈ l → f x ≡ₚ g x) → l ≫= f ≡ₚ l ≫= g.
Proof.
  induction l as [|x l IH]; intros Hfg; [done |].
  cbn [mbind list_bind]. rewrite (Hfg x) by left. rewrite IH; [done |].
  intros y Hy. apply Hfg. by right.
Qed.

Lemma bind_ext_in (f g : B → list A) (l : list B) :
  (∀ x, x ∈ l → f x = g x) → l ≫= f = l ≫= g.
Proof.
  induction l as [|x l IH]; intros Hfg; [done |].
  cbn [mbind list_bind]. rewrite (Hfg x) by left. rewrite IH; [done |].
  intros y Hy. apply Hfg. by right.
Qed.

Lemma bind_app_Permutation (f g : B → list A) (l : list B) :
  l ≫= (λ x, f x ++ g x) ≡ₚ (l ≫= f) ++ (l ≫= g).
Proof.
  induction l as [|x l IH]; [done |].
  cbn [mbind list_bind]. rewrite IH.
  rewrite <- !app_assoc. apply Permutation_app_head.
  rewrite !app_assoc. apply Permutation_app_tail. apply Permutation_app_comm.
Qed.

(** The groups of a list under a key function, taken over distinct keys,
    are the elements whose key is among those keys. *)
Lemma groups_Permutation `{EqDecision B} (key : A → B) (ks : list B) (l : list A) :
  NoDup ks →
  ks ≫= (λ k, filter (λ x, key x = k) l) ≡ₚ filter (λ x, key x ∈ ks) l.
Proof.
  intros Hnd. induction l as [|x l IH].
  - induction ks as [|k ks IHk]; [done |]. cbn [mbind list_bind].
    apply NoDup_cons in Hnd as [_ Hnd]. by rewrite IHk.
  - rewrite (filter_cons (λ x, key x ∈ ks)).
    destruct (decide (key x ∈ ks)) as [Hin | Hni].
    + rewrite <- IH.
      apply elem_of_Permutation in Hin as (ks' & Hks).
      assert (key x ∉ ks') as Hni.
      { rewrite Hks in Hnd. by apply NoDup_cons in Hnd as [? _]. }
      rewrite !Hks. cbn [mbind list_bind].
      rewrite filter_cons_True by done. simpl. constructor.
      apply Permutation_app_head.
      apply reflexive_eq, bind_ext_in. intros k Hk.
      rewrite filter_cons_False; [done |]. by intros <-.
    + rewrite <- IH. apply reflexive_eq, bind_ext_in. intros k Hk.
      rewrite filter_cons_False; [done |]. by intros <-.
Qed.

(** A blocked list: the block of [k] holds elements of key [k] only. *)
Lemma filter_key_blocks `{EqDecision B} (key : A → B) (block : B → list A)
    (ks : list B) (k : B) :
  NoDup ks → (∀ k', Forall (λ x, key x = k') (block k')) →
  filter (λ x, key x = k) (ks ≫= block) = if decide (k ∈ ks) then block k else [].
Proof.
  intros Hnd Hblock. rewrite filter_bind.
  induction ks as [|k' ks IH].
  - done.
  - apply NoDup_cons in Hnd as [Hni Hnd]. cbn [mbind list_bind]. rewrite IH by done.
    destruct (decide (k = k')) as [-> | Hne].
    + rewrite filter_all by done. rewrite (decide_False (P := k' ∈ ks)) by done.
      rewrite decide_True by left. by rewrite app_nil_r.
    + rewrite filter_none.
      * simpl. destruct (decide (k ∈ ks)).
        -- rewrite decide_True; [done | by right].
        -- rewrite decide_False; [done |]. rewrite elem_of_cons. by intros [? | ?].
      * eapply Forall_impl; [apply Hblock |]. simpl. congruence.
Qed.

End ListFacts.


(** ** Columns, cells and well-formed frames *)

Lemma resolve_Some (c : string) (df : DataFrame) :
  NoDup (columns df) → c ∈ columns df → DF.resolve c df = Some ().
Proof.
  intros Hnd Hin. unfold DF.resolve. rewrite decide_True; [done |].
  induction (columns df) as [|x cols IH]; [by apply elem_of_nil in Hin |].
  apply NoDup_cons in Hnd as [Hx Hnd].
  rewrite filter_cons. apply elem_of_cons in Hin as [-> | Hin].
  - rewrite decide_True by done. simpl. f_equal.
    rewrite filter_none; [done |]. apply Forall_forall. by intros y Hy ->.
  - rewrite decide_False; [by apply IH |]. by intros ->.
Qed.

Lemma wf_lookup (df : DataFrame) (r : Row) (c : string) :
  wf df → r ∈ rows df → c ∈ columns df → r !! c = Some (DF.cell c r).
Proof.
  intros [_ Hrows] Hr Hc. rewrite Forall_forall in Hrows.
  assert (c ∈ dom r) as Hd by (rewrite (Hrows r Hr); by apply elem_of_list_to_set).
  apply elem_of_dom in Hd as [v Hv]. unfold DF.cell. by rewrite Hv.
Qed.

Lemma wf_lookup_None (df : DataFrame) (r : Row) (c : string) :
  wf df → r ∈ rows df → c ∉ columns df → r !! c = None.
Proof.
  intros [_ Hrows] Hr Hc. rewrite Forall_forall in Hrows.
  apply not_elem_of_dom. rewrite (Hrows r Hr). by rewrite elem_of_list_to_set.
Qed.

Lemma cell_insert (c : string) (v : Cell) (r : Row) : DF.cell c (<[c := v]> r) = v.
Proof. unfold DF.cell. by rewrite lookup_insert_eq. Qed.

Lemma cell_insert_ne (c d : string) (v : Cell) (r : Row) :
  c ≠ d → DF.cell c (<[d := v]> r) = DF.cell c r.
Proof. intros Hne. unfold DF.cell. by rewrite lookup_insert_ne. Qed.

Lemma cell_singleton (c : string) (v : Cell) : DF.cell c ({[c := v]} : Row) = v.
Proof. unfold DF.cell. by rewrite lookup_singleton_eq. Qed.

Lemma group_keys_NoDup (by_ : string) (rs : list Row) : NoDup (DF.group_keys by_ rs).
Proof. apply NoDup_remove_dups. Qed.

Lemma elem_of_group_keys (by_ : string) (rs : list Row) (k : Cell) :
  k ∈ DF.group_keys by_ rs ↔ ∃ r, r ∈ rs ∧ DF.cell by_ r = k.
Proof.
  unfold DF.group_keys. rewrite elem_of_remove_dups, list_elem_of_fmap. naive_solver.
Qed.

(** ** The count table and the joins against it *)

Lemma groupBy_count_renamed (by_ c new : string) (df : DataFrame) :
  by_ ≠ "count(" +:+ c +:+ ")" →
  DF.resolve by_ df = Some () → DF.resolve c df = Some () →
  ∃ g, DF.groupBy_count by_ c df = Some g
       ∧ DF.withColumnRenamed ("count(" +:+ c +:+ ")") new g
         = mkDF [by_; new] (count_table by_ c new (rows df)).
Proof.
  intros Hne Hby Hc. unfold DF.groupBy_count. rewrite Hby, Hc.
  cbn [mbind option_bind]. eexists. split; [done |].
  unfold DF.withColumnRenamed. cbn [columns rows]. f_equal.
  - cbn [fmap list_fmap]. rewrite decide_False by done. by rewrite decide_True.
  - unfold count_table. rewrite <- list_fmap_compose. apply list_fmap_ext.
    intros _ k _. simpl. unfold DF.rename_key. rewrite lookup_insert_eq.
    rewrite delete_insert_eq. rewrite delete_singleton_ne by done. done.
Qed.

Lemma count_table_cell_key (by_ c new : string) (rs : list Row) (t : Row) :
  by_ ≠ new → t ∈ count_table by_ c new rs → DF.cell by_ t ∈ DF.group_keys by_ rs.
Proof.
  intros Hne Ht. unfold count_table in Ht. apply list_elem_of_fmap in Ht as (k & -> & Hk).
  by rewrite cell_insert_ne, cell_singleton.
Qed.

Lemma bind_filter {A B} (P : A → Prop) `{∀ x, Decision (P x)} (f : A → list B) (l : list A) :
  filter P l ≫= f = l ≫= (λ x, if decide (P x) then f x else []).
Proof.
  induction l as [|x l IH]; [done |].
  rewrite filter_cons. cbn [mbind list_bind]. rewrite <- IH.
  by destruct (decide (P x)).
Qed.

Lemma fmap_bind {A B C} (f : B → C) (g : A → list B) (l : list A) :
  f <$> (l ≫= g) = l ≫= (λ x, f <$> g x).
Proof.
  induction l as [|x l IH]; [done |].
  cbn [mbind list_bind]. by rewrite fmap_app, IH.
Qed.

Lemma key_match_group (by_ : string) (lr : Row) (rs : list Row) :
  filter (DF.key_match by_ lr) rs
  = if decide (DF.cell by_ lr ≠ Null) then DF.group by_ (DF.cell by_ lr) rs else [].
Proof.
  destruct (decide (DF.cell by_ lr ≠ Null)) as [Hk | Hk].
  - apply list_filter_iff. intros x. unfold DF.key_match. naive_solver.
  - apply filter_none, Forall_forall. intros x _ [? _]. done.
Qed.

Lemma names_by_with (b : bool) :
  split_by_column b ≠ "count(" +:+ split_with_column b +:+ ")"
  ∧ split_by_column b ≠ "n" +:+ split_with_column b
  ∧ split_by_column b ≠ split_with_column b.
Proof. by destruct b. Qed.

Lemma group_cell (by_ : string) (k : Cell) (rs : list Row) (r : Row) :
  r ∈ DF.group by_ k rs ↔ DF.cell by_ r = k ∧ r ∈ rs.
Proof. unfold DF.group. by rewrite list_elem_of_filter. Qed.

(** Joining a key table with one extra column onto a frame extends every
    row of a listed, non-NULL key with the extra cell of its key. *)
Lemma join_table_rows (by_ new : string) (f : Cell → Cell) (ks : list Cell) (df : DataFrame) :
  by_ ≠ new → wf df → by_ ∈ columns df →
  ((λ k, <[new := f k]> ({[by_ := k]} : Row)) <$> ks)
    ≫= (λ lr, (λ rr, lr ∪ rr) <$> filter (DF.key_match by_ lr) (rows df))
  = filter (λ k, k ≠ Null) ks
    ≫= (λ k, (λ rr, <[new := f k]> rr) <$> DF.group by_ k (rows df)).
Proof.
  intros Hne Hwf Hby. rewrite list_fmap_bind, bind_filter.
  apply bind_ext_in. intros k _. simpl.
  rewrite key_match_group, cell_insert_ne, cell_singleton by done.
  destruct (decide (k ≠ Null)); [|done].
  apply Forall_fmap_ext, Forall_forall. intros rr Hrr.
  apply group_cell in Hrr as [Hk Hrr].
  rewrite <- insert_union_l, <- insert_union_singleton_l.
  f_equal. apply insert_id. rewrite <- Hk. by eapply wf_lookup.
Qed.

Lemma others_fresh (c : string) (cols : list string) :
  c ∉ cols → filter (λ x, x ≠ c) cols = cols.
Proof. intros Hc. apply filter_all, Forall_forall. by intros x Hx ->. Qed.

Lemma elem_of_others (key c : string) (cols : list string) :
  c ∈ DF.others key cols ↔ c ≠ key ∧ c ∈ cols.
Proof. unfold DF.others. by rewrite list_elem_of_filter. Qed.

(** ** [min_rating_filter] *)

Lemma min_rating_filter_rows (b : bool) (m : Z) (df : DataFrame) :
  filter_input b df →
  min_rating_filter df m b
  = Some (mkDF (split_by_column b :: DF.others (split_by_column b) (columns df))
            (filter (λ k, k ≠ Null ∧ (m ≤ rating_count b (rows df) k)%Z)
                    (DF.group_keys (split_by_column b) (rows df))
             ≫= (λ k, DF.group (split_by_column b) k (rows df)))).
Proof.
  intros (Hwf & Hby & Hwith & Hnw).
  destruct (names_by_with b) as (Hcw & Hn & _).
  unfold min_rating_filter, rating_count.
  set (by_ := split_by_column b) in *. set (with_ := split_with_column b) in *.
  set (nw := "n" +:+ with_) in *.
  destruct (groupBy_count_renamed by_ with_ nw df Hcw
              (resolve_Some _ _ (proj1 Hwf) Hby) (resolve_Some _ _ (proj1 Hwf) Hwith))
    as (g & -> & Hg).
  cbn [mbind option_bind]. rewrite Hg. clear g Hg.
  assert (NoDup [by_; nw]) as Hnd2.
  { apply NoDup_cons. split; [by rewrite list_elem_of_singleton | apply NoDup_singleton]. }
  unfold DF.filter_lit.
  rewrite (resolve_Some nw (mkDF [by_; nw] _)); [| exact Hnd2 | cbn; set_solver].
  cbn [mbind option_bind columns rows].
  unfold DF.join.
  rewrite (resolve_Some by_ (mkDF [by_; nw] _)); [| exact Hnd2 | cbn; set_solver].
  rewrite (resolve_Some by_ df) by (done || apply Hwf).
  cbn [mbind option_bind columns rows].
  unfold DF.drop_col. cbn [columns rows]. f_equal. f_equal.
  - assert (DF.others by_ [by_; nw] = [nw]) as ->.
    { unfold DF.others. rewrite filter_cons_False by (intros H; by apply H).
      rewrite filter_cons_True by done. done. }
    rewrite filter_cons_True by done. cbn [app].
    rewrite filter_cons_False by (intros H; by apply H).
    f_equal. apply others_fresh. rewrite elem_of_others. by intros [_ ?].
  - unfold count_table. rewrite filter_fmap.
    rewrite (join_table_rows by_ nw _ _ df) by done.
    rewrite list_filter_filter, fmap_bind.
    rewrite (list_filter_iff _ (λ k, k ≠ Null ∧ (m ≤ DF.count_col with_ (DF.group by_ k (rows df)))%Z)).
    + apply bind_ext_in. intros k _. rewrite <- list_fmap_compose.
      rewrite <- (list_fmap_id (DF.group by_ k (rows df))) at 2.
      apply Forall_fmap_ext, Forall_forall. intros rr Hrr. simpl.
      apply group_cell in Hrr as [_ Hrr].
      rewrite delete_insert_eq. apply delete_id. by eapply wf_lookup_None.
    + intros k. rewrite cell_insert. simpl. rewrite Is_true_true, Z.geb_le. naive_solver.
Qed.

Lemma filter_ext_in {A} (P Q : A → Prop) `{∀ x, Decision (P x), ∀ x, Decision (Q x)}
    (l : list A) :
  (∀ x, x ∈ l → P x ↔ Q x) → filter P l = filter Q l.
Proof.
  induction l as [|x l IH]; intros HPQ; [done |].
  rewrite !filter_cons. rewrite IH by (intros y Hy; apply HPQ; by right).
  destruct (decide (P x)) as [HP | HP], (decide (Q x)) as [HQ | HQ]; try done.
  - apply HPQ in HP; [done | left].
  - apply HPQ in HQ; [done | left].
Qed.

Lemma retained_iff_key (b : bool) (m : Z) (rs : list Row) (r : Row) :
  r ∈ rs →
  retained b m rs r ↔
  DF.cell (split_by_column b) r
    ∈ filter (λ k, k ≠ Null ∧ (m ≤ rating_count b rs k)%Z)
        (DF.group_keys (split_by_column b) rs).
Proof.
  intros Hr. rewrite list_elem_of_filter, elem_of_group_keys. unfold retained.
  split; [| tauto]. intros [? ?]. split; [done |]. by exists r.
Qed.

Lemma min_rating_filter_retained (b : bool) (m : Z) (df : DataFrame) :
  filter_input b df →
  ∃ out, min_rating_filter df m b = Some out
         ∧ columns out = split_by_column b :: DF.others (split_by_column b) (columns df)
         ∧ rows out ≡ₚ filter (retained b m (rows df)) (rows df).
Proof.
  intros Hin. rewrite min_rating_filter_rows by done.
  eexists. split; [done |]. split; [done |]. cbn [rows].
  unfold DF.group. rewrite groups_Permutation.
  - apply reflexive_eq, filter_ext_in. intros r Hr. symmetry. by apply retained_iff_key.
  - apply NoDup_filter, group_keys_NoDup.
Qed.

Lemma others_cons_eq (key : string) (cols : list string) :
  DF.others key (key :: cols) = DF.others key cols.
Proof. unfold DF.others. rewrite filter_cons_False; [done |]. intros H. by apply H. Qed.

Lemma others_idemp (key : string) (cols : list string) :
  DF.others key (DF.others key cols) = DF.others key cols.
Proof.
  unfold DF.others. apply filter_all, Forall_forall. intros x Hx.
  by apply list_elem_of_filter in Hx as [? _].
Qed.

Lemma key_others_set (key : string) (cols : list string) :
  key ∈ cols →
  list_to_set (key :: DF.others key cols) =@{gset string} list_to_set cols.
Proof.
  intros Hk. apply set_eq. intros x.
  rewrite !elem_of_list_to_set, elem_of_cons, elem_of_others.
  destruct (decide (x = key)) as [-> | ?]; naive_solver.
Qed.

Lemma min_rating_filter_input (b : bool) (m : Z) (df out : DataFrame) :
  filter_input b df → min_rating_filter df m b = Some out → filter_input b out.
Proof.
  intros Hin Hout.
  destruct (min_rating_filter_retained b m df Hin) as (out' & Hout' & Hcols & Hrows).
  rewrite Hout in Hout'. injection Hout' as <-.
  destruct Hin as ((Hnd & Hdom) & Hby & Hwith & Hnw).
  destruct (names_by_with b) as (_ & _ & Hbw).
  unfold filter_input, wf. rewrite Hcols. split_and!.
  - apply NoDup_cons. split.
    + rewrite elem_of_others. by intros [? _].
    + by apply NoDup_filter.
  - rewrite key_others_set by done. rewrite Forall_forall in Hdom |- *.
    intros r Hr. apply Hdom. rewrite Hrows in Hr.
    by apply list_elem_of_filter in Hr as [_ ?].
  - left.
  - right. rewrite elem_of_others. split; [by apply not_eq_sym | done].
  - rewrite not_elem_of_cons, elem_of_others.
    destruct (names_by_with b) as (_ & Hn & _). split; [by apply not_eq_sym | by intros [_ ?]].
Qed.

(** A retained entity keeps its whole group, and a dropped one nothing. *)
Lemma group_retained (b : bool) (m : Z) (rs : list Row) (k : Cell) :
  DF.group (split_by_column b) k (filter (retained b m rs) rs)
  = if decide (k ≠ Null ∧ (m ≤ rating_count b rs k)%Z)
    then DF.group (split_by_column b) k rs else [].
Proof.
  unfold DF.group. rewrite list_filter_filter.
  destruct (decide _) as [Hk | Hk].
  - apply list_filter_iff. intros r. unfold retained. split; [tauto |].
    intros ->. tauto.
  - apply filter_none, Forall_forall. intros r _ [<- Hr]. by apply Hk.
Qed.

Lemma count_col_Permutation (c : string) (rs rs' : list Row) :
  rs ≡ₚ rs' → DF.count_col c rs = DF.count_col c rs'.
Proof. intros Hp. unfold DF.count_col. by rewrite Hp. Qed.

Lemma group_Permutation (by_ : string) (k : Cell) (rs rs' : list Row) :
  rs ≡ₚ rs' → DF.group by_ k rs ≡ₚ DF.group by_ k rs'.
Proof. intros Hp. unfold DF.group. by rewrite Hp. Qed.

Lemma filter_retained_idemp (b : bool) (m : Z) (rs out : list Row) :
  out ≡ₚ filter (retained b m rs) rs →
  filter (retained b m out) out = out.
Proof.
  intros Hout. apply filter_all, Forall_forall. intros r Hr.
  assert (retained b m rs r) as [Hnull Hcount].
  { rewrite Hout in Hr. by apply list_elem_of_filter in Hr as [? _]. }
  split; [done |]. unfold rating_count.
  rewrite (count_col_Permutation _ _ _ (group_Permutation _ _ _ _ Hout)).
  rewrite group_retained. by rewrite decide_True.
Qed.

(** ** Row numbers *)

Lemma elem_of_number_from (i : Z) (name : string) (l : list Row) (x : Row) :
  x ∈ DF.number_from i name l → ∃ j r, r ∈ l ∧ x = <[name := Int j]> r.
Proof.
  revert i. induction l as [|r l IH]; intros i Hx; simpl in Hx.
  - by apply elem_of_nil in Hx.
  - apply elem_of_cons in Hx as [-> | Hx].
    + exists i, r. split; [left | done].
    + destruct (IH _ Hx) as (j & r' & Hr' & ->). exists j, r'. split; [by right | done].
Qed.

Lemma length_number_from (i : Z) (name : string) (l : list Row) :
  length (DF.number_from i name l) = length l.
Proof. revert i. induction l as [|r l IH]; intros i; simpl; [done | by rewrite IH]. Qed.

Lemma number_from_unnumber (i : Z) (name : string) (l : list Row) :
  Forall (λ r : Row, r !! name = None) l →
  delete name <$> DF.number_from i name l = l.
Proof.
  revert i. induction l as [|r l IH]; intros i Hl; simpl; [done |].
  apply Forall_cons in Hl as [Hr Hl].
  rewrite delete_insert_eq, delete_id by done. by rewrite IH.
Qed.

Lemma number_from_cells (c name : string) (i : Z) (l : list Row) :
  c ≠ name → DF.cell c <$> DF.number_from i name l = DF.cell c <$> l.
Proof.
  intros Hne. revert i. induction l as [|r l IH]; intros i; simpl; [done |].
  by rewrite cell_insert_ne, IH.
Qed.

Lemma filter_le_number_from (name : string) (n i : Z) (l : list Row) :
  filter (λ r, DF.cell_cmp Z.leb (DF.cell name r) n) (DF.number_from i name l)
  = take (Z.to_nat (n - i + 1)) (DF.number_from i name l).
Proof.
  revert i. induction l as [|r l IH]; intros i; simpl.
  - by rewrite take_nil.
  - rewrite filter_cons, cell_insert. simpl. rewrite IH.
    destruct (decide (Is_true (i <=? n)%Z)) as [Hle | Hgt].
    + apply Is_true_true, Z.leb_le in Hle.
      replace (Z.to_nat (n - i + 1)) with (S (Z.to_nat (n - (i + 1) + 1))) by lia.
      done.
    + rewrite Is_true_true, Z.leb_le in Hgt.
      replace (Z.to_nat (n - i + 1)) with 0%nat by lia.
      replace (Z.to_nat (n - (i + 1) + 1)) with 0%nat by lia.
      by rewrite take_0.
Qed.

Lemma filter_gt_number_from (name : string) (n i : Z) (l : list Row) :
  filter (λ r, DF.cell_cmp Z.gtb (DF.cell name r) n) (DF.number_from i name l)
  = drop (Z.to_nat (n - i + 1)) (DF.number_from i name l).
Proof.
  revert i. induction l as [|r l IH]; intros i; simpl.
  - by rewrite drop_nil.
  - rewrite filter_cons, cell_insert. simpl. rewrite IH.
    destruct (decide (Is_true (i >? n)%Z)) as [Hgt | Hle].
    + apply Is_true_true in Hgt. rewrite Z.gtb_ltb, Z.ltb_lt in Hgt.
      replace (Z.to_nat (n - i + 1)) with 0%nat by lia.
      replace (Z.to_nat (n - (i + 1) + 1)) with 0%nat by lia.
      by rewrite drop_0.
    + rewrite Is_true_true, Z.gtb_ltb, Z.ltb_lt in Hle.
      replace (Z.to_nat (n - i + 1)) with (S (Z.to_nat (n - (i + 1) + 1))) by lia.
      done.
Qed.

(** A comparison of the row number with a column that is constant on the
    numbered rows is a comparison with that constant. *)
Lemma filter_cols_number_from (op : Z → Z → bool) (name d : string) (n i : Z) (l : list Row) :
  name ≠ d → Forall (λ r, DF.cell d r = Int n) l →
  filter (λ r, DF.cell_cmp2 op (DF.cell name r) (DF.cell d r)) (DF.number_from i name l)
  = filter (λ r, DF.cell_cmp op (DF.cell name r) n) (DF.number_from i name l).
Proof.
  intros Hne Hl. apply filter_ext_in. intros x Hx.
  apply elem_of_number_from in Hx as (j & r & Hr & ->).
  rewrite Forall_forall in Hl.
  rewrite cell_insert, cell_insert_ne, (Hl r Hr) by done. done.
Qed.

(** ** Windows *)

Lemma row_number_over_partition (w : DF.WindowSpec) (name by_ : string) (df : DataFrame) :
  DF.partitionBy w = Some by_ → DF.resolve by_ df = Some () →
  Forall (λ c, DF.resolve c df = Some ()) (DF.orderBy_cols w) →
  DF.row_number_over w name df
  = Some (mkDF (columns df ++ [name])
            (DF.group_keys by_ (rows df)
             ≫= (λ k, DF.number_from 1 name (DF.orderBy w (DF.group by_ k (rows df)))))).
Proof.
  intros Hp Hby Hord. unfold DF.row_number_over. rewrite Hp, Hby.
  cbn [mbind option_bind]. by rewrite decide_True.
Qed.

(** ** The outer join with the count table *)

Lemma filter_eq_NoDup {A} `{EqDecision A} (x : A) (l : list A) :
  NoDup l → x ∈ l → filter (λ y, y = x) l = [x].
Proof.
  intros Hnd Hx. induction l as [|y l IH]; [by apply elem_of_nil in Hx |].
  apply NoDup_cons in Hnd as [Hy Hnd]. rewrite filter_cons.
  destruct (decide (y = x)) as [-> | Hne].
  - f_equal. apply filter_none, Forall_forall. by intros z Hz ->.
  - apply IH; [done |]. apply elem_of_cons in Hx as [-> | ?]; done.
Qed.

Lemma bind_singleton {A B} (f : A → B) (l : list A) : l ≫= (λ x, [f x]) = f <$> l.
Proof. induction l as [|x l IH]; [done |]. cbn [mbind list_bind]. by rewrite IH. Qed.

Lemma key_match_table (by_ new : string) (f : Cell → Cell) (ks : list Cell) (lr : Row) :
  by_ ≠ new → NoDup ks → DF.cell by_ lr ≠ Null → DF.cell by_ lr ∈ ks →
  filter (DF.key_match by_ lr) ((λ k, <[new := f k]> ({[by_ := k]} : Row)) <$> ks)
  = [<[new := f (DF.cell by_ lr)]> {[by_ := DF.cell by_ lr]}].
Proof.
  intros Hne Hnd Hnull Hin. rewrite filter_fmap.
  rewrite (list_filter_iff _ (λ k, k = DF.cell by_ lr)).
  - by rewrite filter_eq_NoDup.
  - intros k. unfold DF.key_match. rewrite cell_insert_ne, cell_singleton by done. tauto.
Qed.

Lemma union_key_row (by_ new : string) (v : Cell) (r : Row) :
  by_ ≠ new → is_Some (r !! by_) → r !! new = None →
  r ∪ <[new := v]> {[by_ := DF.cell by_ r]} = <[new := v]> r.
Proof.
  intros Hne [k Hk] Hnew. apply map_eq. intros i.
  rewrite lookup_union. unfold DF.cell. rewrite Hk. simpl.
  destruct (decide (i = new)) as [-> | Hi].
  - by rewrite Hnew, !lookup_insert_eq.
  - rewrite !lookup_insert_ne by done.
    destruct (decide (i = by_)) as [-> | Hi'].
    + by rewrite Hk, lookup_singleton_eq.
    + rewrite lookup_singleton_ne by done. by destruct (r !! i).
Qed.

Lemma join_outer_count_table (by_ c : string) (J : DataFrame) :
  wf J → by_ ∈ columns J → "count" ∉ columns J →
  Forall (λ r, DF.cell by_ r ≠ Null) (rows J) →
  DF.join_outer J (mkDF [by_; "count"] (count_table by_ c "count" (rows J))) by_
  = Some (mkDF (by_ :: DF.others by_ (columns J) ++ ["count"])
            ((λ r, <["count" := Int (DF.count_col c (DF.group by_ (DF.cell by_ r) (rows J)))]> r)
               <$> rows J)).
Proof.
  intros Hwf Hby Hcount Hnull.
  assert (by_ ≠ "count") as Hne by (by intros ->).
  assert (NoDup [by_; "count"]) as Hnd2.
  { apply NoDup_cons. split; [by rewrite list_elem_of_singleton | apply NoDup_singleton]. }
  rewrite Forall_forall in Hnull.
  unfold DF.join_outer.
  rewrite (resolve_Some by_ J) by (done || apply Hwf).
  rewrite (resolve_Some by_ (mkDF [by_; "count"] _)); [| exact Hnd2 | cbn; set_solver].
  cbn [mbind option_bind columns rows]. f_equal. f_equal.
  - assert (DF.others by_ [by_; "count"] = ["count"]) as ->; [| done].
    unfold DF.others. rewrite filter_cons_False by (intros H; by apply H).
    by rewrite filter_cons_True.
  - rewrite (filter_none (λ lr, DF.unmatched by_ lr _)).
    + rewrite (filter_none (λ rr, DF.unmatched by_ rr _)).
      * rewrite !app_nil_r. rewrite <- bind_singleton. apply bind_ext_in.
        intros lr Hlr. unfold count_table.
        rewrite key_match_table; [| done | apply group_keys_NoDup | by apply Hnull |].
        -- cbn [fmap list_fmap]. f_equal. apply union_key_row; [done | |].
           ++ rewrite (wf_lookup J lr by_) by done. by eexists.
           ++ by eapply wf_lookup_None.
        -- apply elem_of_group_keys. by exists lr.
      * apply Forall_forall. intros rr Hrr Hun.
        unfold count_table in Hrr. apply list_elem_of_fmap in Hrr as (k & -> & Hk).
        apply elem_of_group_keys in Hk as (r & Hr & Hkr).
        unfold DF.unmatched in Hun. rewrite Forall_forall in Hun.
        apply (Hun r Hr). unfold DF.key_match.
        rewrite cell_insert_ne, cell_singleton by done. rewrite <- Hkr. split; [by apply Hnull | done].
    + apply Forall_forall. intros lr Hlr Hun.
      unfold DF.unmatched in Hun. rewrite Forall_forall in Hun.
      apply (Hun (<["count" := Int (DF.count_col c (DF.group by_ (DF.cell by_ lr) (rows J)))]>
                    {[by_ := DF.cell by_ lr]})).
      * unfold count_table. apply list_elem_of_fmap. exists (DF.cell by_ lr). split; [done |].
        apply elem_of_group_keys. by exists lr.
      * unfold DF.key_match. rewrite cell_insert_ne, cell_singleton by done.
        split; [by apply Hnull | done].
Qed.

(** ** The ranked split *)

Lemma NoDup_key_others (by_ : string) (cols extra : list string) :
  NoDup cols → NoDup extra → by_ ∉ extra → (∀ x, x ∈ extra → x ∉ cols) →
  NoDup (by_ :: DF.others by_ cols ++ extra).
Proof.
  intros Hc He Hby Hdisj. apply NoDup_cons. split.
  - rewrite elem_of_app, elem_of_others. intros [[? _] | ?]; done.
  - apply NoDup_app. split_and!; [by apply NoDup_filter | | done].
    intros x Hx Hx'. apply elem_of_others in Hx as [_ Hx]. by apply (Hdisj x).
Qed.

Lemma annotate_key (by_ c : string) (ratio : Q) (rs : list Row) (r : Row) :
  by_ ≠ "count" → by_ ≠ "splitPoint" →
  DF.cell by_ (annotate by_ c ratio rs r) = DF.cell by_ r.
Proof. intros H1 H2. unfold annotate. by rewrite !cell_insert_ne. Qed.

Lemma group_keys_fmap (by_ : string) (f : Row → Row) (rs : list Row) :
  (∀ r, DF.cell by_ (f r) = DF.cell by_ r) →
  DF.group_keys by_ (f <$> rs) = DF.group_keys by_ rs.
Proof.
  intros Hf. unfold DF.group_keys. f_equal. rewrite <- list_fmap_compose.
  apply list_fmap_ext. intros _ r _. apply Hf.
Qed.

Lemma group_fmap (by_ : string) (f : Row → Row) (k : Cell) (rs : list Row) :
  (∀ r, DF.cell by_ (f r) = DF.cell by_ r) →
  DF.group by_ k (f <$> rs) = f <$> DF.group by_ k rs.
Proof.
  intros Hf. unfold DF.group. rewrite filter_fmap.
  f_equal. apply list_filter_iff. intros r. by rewrite Hf.
Qed.

Section RankSplit.

Variable w : DF.WindowSpec.
Variable by_ c : string.
Variable J : DataFrame.
Variable ratio : Q.
Variable sample : Z.

Hypothesis w_partition : DF.partitionBy w = Some by_.
Hypothesis w_cols : Forall (λ x, x ∈ columns J) (DF.orderBy_cols w).
Hypothesis w_perm : ∀ l, DF.orderBy w l ≡ₚ l.
Hypothesis J_wf : wf J.
Hypothesis J_by : by_ ∈ columns J.
Hypothesis J_keys : Forall (λ r, DF.cell by_ r ≠ Null) (rows J).
Hypothesis J_rank : "rank" ∉ columns J.

Lemma rank_split_fixed :
  rank_split w J (mkDF [by_; "count"] (count_table by_ c "count" (rows J))) by_ ratio true sample
  = Some (mkDF (columns J ++ ["rank"])
            (DF.group_keys by_ (rows J)
             ≫= (λ k, drop (Z.to_nat sample) (ranked_block w by_ c ratio true (rows J) k))),
          mkDF (columns J ++ ["rank"])
            (DF.group_keys by_ (rows J)
             ≫= (λ k, take (Z.to_nat sample) (ranked_block w by_ c ratio true (rows J) k)))).
Proof.
  unfold rank_split. cbn [negb].
  assert (Forall (λ x, DF.resolve x J = Some ()) (DF.orderBy_cols w)) as Hord.
  { eapply Forall_impl; [exact w_cols |]. intros x Hx. apply resolve_Some; [apply J_wf | done]. }
  rewrite (row_number_over_partition w "rank" by_ J);
    [| done | by apply resolve_Some; [apply J_wf |] | done].
  cbn [mbind option_bind].
  assert (NoDup (columns J ++ ["rank"])) as Hnd.
  { apply NoDup_app. split_and!; [apply J_wf | | apply NoDup_singleton].
    intros x Hx Hx'. apply list_elem_of_singleton in Hx' as ->. done. }
  unfold DF.filter_lit.
  rewrite !(resolve_Some "rank" (mkDF (columns J ++ ["rank"]) _));
    [| exact Hnd | cbn; set_solver].
  cbn [mbind option_bind columns rows].
  rewrite !filter_bind. f_equal. f_equal.
  - f_equal. apply bind_ext_in. intros k _. rewrite filter_gt_number_from.
    by replace (sample - 1 + 1)%Z with sample by lia.
  - f_equal. apply bind_ext_in. intros k _. rewrite filter_le_number_from.
    by replace (sample - 1 + 1)%Z with sample by lia.
Qed.

Hypothesis J_count : "count" ∉ columns J.
Hypothesis J_splitPoint : "splitPoint" ∉ columns J.

Lemma rank_split_ratio :
  rank_split w J (mkDF [by_; "count"] (count_table by_ c "count" (rows J))) by_ ratio false sample
  = Some (mkDF (by_ :: DF.others by_ (columns J) ++ ["count"; "splitPoint"; "rank"])
            (DF.group_keys by_ (rows J)
             ≫= (λ k, drop (Z.to_nat (held_out by_ c ratio false sample (rows J) k))
                        (ranked_block w by_ c ratio false (rows J) k))),
          mkDF (by_ :: DF.others by_ (columns J) ++ ["count"; "splitPoint"; "rank"])
            (DF.group_keys by_ (rows J)
             ≫= (λ k, take (Z.to_nat (held_out by_ c ratio false sample (rows J) k))
                        (ranked_block w by_ c ratio false (rows J) k)))).
Proof.
  assert (by_ ≠ "count" ∧ by_ ≠ "splitPoint" ∧ by_ ≠ "rank") as (Hb1 & Hb2 & Hb3).
  { split_and!; by intros ->. }
  unfold rank_split. cbn [negb].
  rewrite join_outer_count_table by done. cbn [mbind option_bind].
  assert (NoDup (by_ :: DF.others by_ (columns J) ++ ["count"; "splitPoint"; "rank"])) as Hnd.
  { apply NoDup_key_others; [apply J_wf | by apply (bool_decide_unpack _) | |].
    - rewrite !elem_of_cons, elem_of_nil. naive_solver.
    - intros x. rewrite !elem_of_cons, elem_of_nil. naive_solver. }
  assert (NoDup (by_ :: DF.others by_ (columns J) ++ ["count"])) as Hnd1.
  { change ["count"; "splitPoint"; "rank"] with (["count"] ++ ["splitPoint"; "rank"]) in Hnd.
    rewrite app_assoc, app_comm_cons in Hnd. by apply NoDup_app in Hnd as [? _]. }
  rewrite resolve_Some; [| exact Hnd1 | cbn; set_solver].
  cbn [mbind option_bind].
  set (rating_all := DF.withColumn "splitPoint" _ _).
  assert (columns rating_all = by_ :: DF.others by_ (columns J) ++ ["count"; "splitPoint"])
    as Hcols.
  { unfold rating_all, DF.withColumn. cbn [columns]. rewrite decide_False.
    - cbn [app]. by rewrite <- app_assoc.
    - rewrite elem_of_cons, elem_of_app, elem_of_others, list_elem_of_singleton.
      intros [? | [[_ ?] | ?]]; done. }
  assert (rows rating_all = ranked_base by_ c ratio false (rows J)) as Hrows.
  { unfold rating_all, DF.withColumn, ranked_base. cbn [rows].
    rewrite <- list_fmap_compose. apply list_fmap_ext. intros _ r _. simpl.
    unfold annotate. by rewrite cell_insert. }
  assert (NoDup (columns rating_all)) as Hnd2.
  { rewrite Hcols.
    change ["count"; "splitPoint"; "rank"] with (["count"; "splitPoint"] ++ ["rank"]) in Hnd.
    rewrite app_assoc, app_comm_cons in Hnd. by apply NoDup_app in Hnd as [? _]. }
  rewrite (row_number_over_partition w "rank" by_ rating_all); [| done | |].
  2: { apply resolve_Some; [done |]. rewrite Hcols. left. }
  2: { eapply Forall_impl; [exact w_cols |]. intros x Hx. apply resolve_Some; [done |].
       rewrite Hcols. destruct (decide (x = by_)) as [-> | ?]; [left | right].
       rewrite elem_of_app, elem_of_others. by left. }
  cbn [mbind option_bind].
  rewrite Hcols, Hrows.
  assert ((by_ :: DF.others by_ (columns J) ++ ["count"; "splitPoint"]) ++ ["rank"]
          = by_ :: DF.others by_ (columns J) ++ ["count"; "splitPoint"; "rank"]) as ->.
  { cbn [app]. by rewrite <- app_assoc. }
  unfold DF.filter_cols.
  rewrite !(resolve_Some "rank" (mkDF _ _)); [| exact Hnd | cbn; set_solver].
  rewrite !(resolve_Some "splitPoint" (mkDF _ _)); [| exact Hnd | cbn; set_solver].
  cbn [mbind option_bind columns rows].
  assert (DF.group_keys by_ (ranked_base by_ c ratio false (rows J)) = DF.group_keys by_ (rows J))
    as ->.
  { apply group_keys_fmap. intros r. by apply annotate_key. }
  assert (∀ k, Forall (λ r, DF.cell "splitPoint" r
                            = Int (held_out by_ c ratio false sample (rows J) k))
                 (DF.orderBy w (DF.group by_ k (ranked_base by_ c ratio false (rows J)))))
    as Hsp.
  { intros k. apply Forall_forall. intros r Hr. rewrite w_perm in Hr.
    unfold ranked_base in Hr. rewrite group_fmap in Hr by (intros; by apply annotate_key).
    apply list_elem_of_fmap in Hr as (r0 & -> & Hr0). apply group_cell in Hr0 as [<- _].
    unfold annotate, held_out. by rewrite cell_insert. }
  rewrite !filter_bind. f_equal. f_equal.
  - f_equal. apply bind_ext_in. intros k _.
    rewrite (filter_cols_number_from Z.gtb "rank" "splitPoint" _ 1 _ ltac:(done) (Hsp k)).
    rewrite filter_gt_number_from. unfold ranked_block.
    by replace (held_out by_ c ratio false sample (rows J) k - 1 + 1)%Z
      with (held_out by_ c ratio false sample (rows J) k) by lia.
  - f_equal. apply bind_ext_in. intros k _.
    rewrite (filter_cols_number_from Z.leb "rank" "splitPoint" _ 1 _ ltac:(done) (Hsp k)).
    rewrite filter_le_number_from. unfold ranked_block.
    by replace (held_out by_ c ratio false sample (rows J) k - 1 + 1)%Z
      with (held_out by_ c ratio false sample (rows J) k) by lia.
Qed.

End RankSplit.

(** ** The stratified and chronological splitters as ranked splits *)

Lemma rank_split_rows (w : DF.WindowSpec) (by_ c : string) (J : DataFrame) (ratio : Q)
    (fixed : bool) (sample : Z) :
  DF.partitionBy w = Some by_ → Forall (λ x, x ∈ columns J) (DF.orderBy_cols w) →
  (∀ l, DF.orderBy w l ≡ₚ l) →
  wf J → by_ ∈ columns J → Forall (λ r, DF.cell by_ r ≠ Null) (rows J) →
  ("rank" ∉ columns J) →
  (fixed = false → ("count" ∉ columns J) ∧ ("splitPoint" ∉ columns J)) →
  columns J = by_ :: DF.others by_ (columns J) →
  rank_split w J (mkDF [by_; "count"] (count_table by_ c "count" (rows J))) by_ ratio fixed sample
  = Some (mkDF (split_columns by_ fixed (columns J))
            (train_rows w by_ c ratio fixed sample (rows J)),
          mkDF (split_columns by_ fixed (columns J))
            (test_rows w by_ c ratio fixed sample (rows J))).
Proof.
  intros Hp Hcols Hperm Hwf Hby Hkeys Hrank Hfresh Hshape.
  destruct fixed.
  - rewrite rank_split_fixed by done. unfold split_columns.
    rewrite app_comm_cons, <- Hshape. done.
  - destruct (Hfresh eq_refl) as [Hc Hs]. by rewrite rank_split_ratio.
Qed.

Lemma filtered_facts (b : bool) (m : Z) (df : DataFrame) :
  filter_input b df →
  ∃ F, min_rating_filter df m b = Some F
       ∧ filter_input b F
       ∧ columns F = split_by_column b :: DF.others (split_by_column b) (columns df)
       ∧ rows F ≡ₚ filter (retained b m (rows df)) (rows df)
       ∧ Forall (λ r, DF.cell (split_by_column b) r ≠ Null) (rows F).
Proof.
  intros Hin.
  destruct (min_rating_filter_retained b m df Hin) as (F & HF & Hcols & Hrows).
  exists F. split_and!; try done.
  - by eapply min_rating_filter_input.
  - apply Forall_forall. intros r Hr. rewrite Hrows in Hr.
    apply list_elem_of_filter in Hr as [[? _] _]. done.
Qed.

Lemma stratified_split_rows (rand_order : list Row → list Row) (df : DataFrame)
    (m : Z) (b : bool) (ratio : Q) (fixed : bool) (sample : Z) :
  (∀ l, rand_order l ≡ₚ l) → split_input b fixed df →
  fixed_sample_guard fixed sample m = false →
  ∃ F, min_rating_filter df m b = Some F
       ∧ stratified_split rand_order df m b ratio fixed sample
         = Some (Split
             (mkDF (split_columns (split_by_column b) fixed (columns df))
                (train_rows (DF.mkWindow (Some (split_by_column b)) [] rand_order)
                   (split_by_column b) (split_with_column b) ratio fixed sample (rows F)))
             (mkDF (split_columns (split_by_column b) fixed (columns df))
                (test_rows (DF.mkWindow (Some (split_by_column b)) [] rand_order)
                   (split_by_column b) (split_with_column b) ratio fixed sample (rows F)))).
Proof.
  intros Hperm (Hin & Hrank & Hfresh) Hguard.
  destruct (filtered_facts b m df Hin) as (F & HF & HinF & Hcols & Hrows & Hkeys).
  exists F. split; [done |].
  unfold stratified_split. rewrite Hguard, HF. cbn [mbind option_bind].
  destruct (names_by_with b) as (Hcw & _ & Hbw).
  destruct HinF as (HwfF & HbyF & HwithF & _).
  destruct (groupBy_count_renamed (split_by_column b) (split_with_column b) "count" F Hcw
              (resolve_Some _ _ (proj1 HwfF) HbyF) (resolve_Some _ _ (proj1 HwfF) HwithF))
    as (g & -> & Hg).
  cbn [mbind option_bind]. rewrite Hg.
  assert (∀ x, x ≠ split_by_column b → x ∉ columns df → x ∉ columns F) as Hfr.
  { intros x Hx Hx'. rewrite Hcols, not_elem_of_cons, elem_of_others. naive_solver. }
  assert ("rank" ≠ split_by_column b ∧ "count" ≠ split_by_column b
          ∧ "splitPoint" ≠ split_by_column b) as (Hn1 & Hn2 & Hn3) by (by destruct b).
  rewrite rank_split_rows; try done.
  - cbn [mbind option_bind]. unfold split_columns.
    by rewrite Hcols, others_cons_eq, others_idemp.
  - by apply Hfr.
  - intros Hf. destruct (Hfresh Hf). split; by apply Hfr.
  - by rewrite Hcols, others_cons_eq, others_idemp.
Qed.

Lemma split_columns_NoDup (by_ : string) (fixed : bool) (cols : list string) :
  NoDup cols → by_ ∈ cols → ("rank" ∉ cols) →
  (fixed = false → ("count" ∉ cols) ∧ ("splitPoint" ∉ cols)) →
  NoDup (split_columns by_ fixed cols).
Proof.
  intros Hnd Hby Hrank Hfresh. unfold split_columns.
  assert (by_ ≠ "rank") by (by intros ->).
  destruct fixed.
  - apply NoDup_key_others; [done | apply NoDup_singleton | |].
    + by rewrite list_elem_of_singleton.
    + intros x Hx. by apply list_elem_of_singleton in Hx as ->.
  - destruct (Hfresh eq_refl) as [Hc Hs].
    assert (by_ ≠ "count") by (by intros ->).
    assert (by_ ≠ "splitPoint") by (by intros ->).
    apply NoDup_key_others; [done | by apply (bool_decide_unpack _) | |].
    + rewrite !elem_of_cons, elem_of_nil. naive_solver.
    + intros x. rewrite !elem_of_cons, elem_of_nil. naive_solver.
Qed.

Lemma elem_of_split_columns (by_ : string) (fixed : bool) (cols : list string) (x : string) :
  x ∈ cols → x ∈ split_columns by_ fixed cols.
Proof.
  intros Hx. unfold split_columns. destruct (decide (x = by_)) as [-> | Hne]; [left | right].
  apply elem_of_app. left. by apply elem_of_others.
Qed.

Lemma select_Some (cs : list string) (df : DataFrame) :
  NoDup (columns df) → Forall (λ c, c ∈ columns df) cs →
  DF.select cs df = Some (mkDF cs (DF.project cs <$> rows df)).
Proof.
  intros Hnd Hcs. unfold DF.select. rewrite decide_True; [done |].
  eapply Forall_impl; [exact Hcs |]. intros c Hc. by apply resolve_Some.
Qed.

(** An input of the chronological splitter also has the timestamps. *)
Lemma chronological_split_rows (df : DataFrame)
    (m : Z) (b : bool) (ratio : Q) (fixed : bool) (sample : Z) :
  split_input b fixed df → "timeStamp" ∈ columns df →
  fixed_sample_guard fixed sample m = false →
  let w := DF.mkWindow (Some (split_by_column b)) ["timeStamp"] (DF.sort_desc "timeStamp") in
  let cs := [split_by_column b; split_with_column b; "timeStamp"] in
  ∃ F, min_rating_filter df m b = Some F
       ∧ chronological_split df m b ratio fixed sample
         = Some (Split
             (mkDF cs (DF.project cs
                <$> train_rows w (split_by_column b) "timeStamp" ratio fixed sample (rows F)))
             (mkDF cs (DF.project cs
                <$> test_rows w (split_by_column b) "timeStamp" ratio fixed sample (rows F)))).
Proof.
  intros (Hin & Hrank & Hfresh) Hts Hguard w cs.
  destruct (filtered_facts b m df Hin) as (F & HF & HinF & Hcols & Hrows & Hkeys).
  exists F. split; [done |].
  unfold chronological_split. rewrite Hguard, HF. cbn [mbind option_bind].
  destruct HinF as (HwfF & HbyF & HwithF & _).
  assert (split_by_column b ≠ "count(" +:+ "timeStamp" +:+ ")"
          ∧ "timeStamp" ≠ split_by_column b) as [Hcw Htb] by (by destruct b).
  assert (∀ x, x ≠ split_by_column b → x ∉ columns df → x ∉ columns F) as Hfr.
  { intros x Hx Hx'. rewrite Hcols, not_elem_of_cons, elem_of_others. naive_solver. }
  assert ("timeStamp" ∈ columns F) as HtsF.
  { rewrite Hcols. right. by apply elem_of_others. }
  destruct (groupBy_count_renamed (split_by_column b) "timeStamp" "count" F Hcw
              (resolve_Some _ _ (proj1 HwfF) HbyF) (resolve_Some _ _ (proj1 HwfF) HtsF))
    as (g & -> & Hg).
  cbn [mbind option_bind].
  change ("count(" +:+ "timeStamp" +:+ ")") with "count(timeStamp)" in Hg. rewrite Hg.
  assert ("rank" ≠ split_by_column b ∧ "count" ≠ split_by_column b
          ∧ "splitPoint" ≠ split_by_column b) as (Hn1 & Hn2 & Hn3) by (by destruct b).
  assert ("rank" ∉ columns F) as HrankF by (by apply Hfr).
  assert (fixed = false → ("count" ∉ columns F) ∧ ("splitPoint" ∉ columns F)) as HfreshF.
  { intros Hf. destruct (Hfresh Hf). split; by apply Hfr. }
  rewrite (rank_split_rows w); try done.
  - cbn [mbind option_bind].
    assert (NoDup (split_columns (split_by_column b) fixed (columns F))) as Hnd.
    { apply split_columns_NoDup; try done. apply HwfF. }
    assert (Forall (λ c, c ∈ split_columns (split_by_column b) fixed (columns F)) cs) as Hcs.
    { unfold cs. rewrite !Forall_cons, Forall_nil.
      split_and!; try done; by apply elem_of_split_columns. }
    rewrite !select_Some by done. done.
  - cbn. by rewrite Forall_singleton.
  - intros l. apply merge_sort_Permutation.
  - by rewrite Hcols, others_cons_eq, others_idemp.
Qed.

(** ** Projections *)

Lemma lookup_project (cs : list string) (r : Row) (c : string) :
  DF.project cs r !! c = if decide (c ∈ cs) then Some (DF.cell c r) else None.
Proof.
  unfold DF.project. induction cs as [|x cs IH].
  - rewrite fmap_nil, list_to_map_nil, lookup_empty.
    by rewrite decide_False by apply not_elem_of_nil.
  - rewrite fmap_cons, list_to_map_cons.
    destruct (decide (c = x)) as [-> | Hne].
    + rewrite lookup_insert_eq. by rewrite decide_True by left.
    + rewrite lookup_insert_ne by done. rewrite IH.
      destruct (decide (c ∈ cs)).
      * by rewrite decide_True by (by right).
      * rewrite decide_False; [done |]. rewrite elem_of_cons. by intros [? | ?].
Qed.

Lemma cell_project (cs : list string) (r : Row) (c : string) :
  c ∈ cs → DF.cell c (DF.project cs r) = DF.cell c r.
Proof. intros Hc. unfold DF.cell at 1. by rewrite lookup_project, decide_True. Qed.

Lemma project_insert (cs : list string) (c : string) (v : Cell) (r : Row) :
  c ∉ cs → DF.project cs (<[c := v]> r) = DF.project cs r.
Proof.
  intros Hc. apply map_eq. intros i. rewrite !lookup_project.
  destruct (decide (i ∈ cs)); [|done]. f_equal. apply cell_insert_ne. by intros ->.
Qed.

Lemma project_id (cs : list string) (r : Row) :
  dom r = list_to_set cs → DF.project cs r = r.
Proof.
  intros Hdom. apply map_eq. intros i. rewrite lookup_project.
  destruct (decide (i ∈ cs)) as [Hi | Hi].
  - assert (i ∈ dom r) as Hd by (rewrite Hdom; by apply elem_of_list_to_set).
    apply elem_of_dom in Hd as [v Hv]. unfold DF.cell. by rewrite Hv.
  - symmetry. apply not_elem_of_dom. rewrite Hdom. by rewrite elem_of_list_to_set.
Qed.

Lemma project_wf (df : DataFrame) : wf df → DF.project (columns df) <$> rows df = rows df.
Proof.
  intros [_ Hrows]. rewrite <- (list_fmap_id (rows df)) at 2.
  apply Forall_fmap_ext. eapply Forall_impl; [exact Hrows |].
  intros r Hr. by apply project_id.
Qed.

(** ** Ranked rows *)

Section RankedRows.

Variable w : DF.WindowSpec.
Variable by_ c : string.
Variable ratio : Q.
Variable fixed : bool.
Variable sample : Z.
Variable rs : list Row.

Hypothesis w_perm : ∀ l, DF.orderBy w l ≡ₚ l.
Hypothesis by_rank : by_ ≠ "rank".
Hypothesis by_count : by_ ≠ "count".
Hypothesis by_splitPoint : by_ ≠ "splitPoint".

Lemma ranked_base_key (r : Row) :
  r ∈ ranked_base by_ c ratio fixed rs → ∃ r0, r0 ∈ rs ∧ DF.cell by_ r = DF.cell by_ r0.
Proof.
  unfold ranked_base. destruct fixed.
  - intros Hr. by exists r.
  - intros Hr. apply list_elem_of_fmap in Hr as (r0 & -> & Hr0).
    exists r0. split; [done |]. by apply annotate_key.
Qed.

Lemma group_ranked_base (k : Cell) :
  DF.group by_ k (ranked_base by_ c ratio fixed rs)
  = (if fixed then id else annotate by_ c ratio rs) <$> DF.group by_ k rs.
Proof.
  unfold ranked_base. destruct fixed.
  - by rewrite list_fmap_id.
  - apply group_fmap. intros r. by apply annotate_key.
Qed.

Lemma ranked_block_keys (k : Cell) :
  Forall (λ r, DF.cell by_ r = k) (ranked_block w by_ c ratio fixed rs k).
Proof.
  apply Forall_forall. intros x Hx. unfold ranked_block in Hx.
  apply elem_of_number_from in Hx as (j & r & Hr & ->).
  rewrite w_perm in Hr. apply group_cell in Hr as [Hk _].
  by rewrite cell_insert_ne.
Qed.

Lemma length_ranked_block (k : Cell) :
  length (ranked_block w by_ c ratio fixed rs k) = length (DF.group by_ k rs).
Proof.
  unfold ranked_block. rewrite length_number_from, w_perm, group_ranked_base.
  by rewrite length_fmap.
Qed.

(** On columns that the split does not add, a ranked block reads as the
    group it ranks. *)
Lemma project_ranked_block (cs : list string) (k : Cell) :
  ("rank" ∉ cs) → (fixed = false → ("count" ∉ cs) ∧ ("splitPoint" ∉ cs)) →
  DF.project cs <$> ranked_block w by_ c ratio fixed rs k
  ≡ₚ DF.project cs <$> DF.group by_ k rs.
Proof.
  intros Hrank Hfresh. unfold ranked_block.
  assert (∀ i l, DF.project cs <$> DF.number_from i "rank" l = DF.project cs <$> l) as ->.
  { intros i l. revert i. induction l as [|r l IH]; intros i; simpl; [done |].
    by rewrite project_insert, IH. }
  rewrite w_perm, group_ranked_base, <- list_fmap_compose.
  apply reflexive_eq, list_fmap_ext. intros _ r _. simpl.
  destruct fixed; [done |]. destruct (Hfresh eq_refl).
  unfold annotate. by rewrite !project_insert.
Qed.

Lemma keys_cover : rs ≡ₚ DF.group_keys by_ rs ≫= (λ k, DF.group by_ k rs).
Proof.
  unfold DF.group. rewrite groups_Permutation by apply group_keys_NoDup.
  rewrite filter_all; [done |]. apply Forall_forall. intros r Hr.
  apply elem_of_group_keys. by exists r.
Qed.

(** Every row of the ranked rows is on exactly one side. *)
Lemma split_rows_Permutation (cs : list string) :
  ("rank" ∉ cs) → (fixed = false → ("count" ∉ cs) ∧ ("splitPoint" ∉ cs)) →
  DF.project cs <$> (train_rows w by_ c ratio fixed sample rs
                     ++ test_rows w by_ c ratio fixed sample rs)
  ≡ₚ DF.project cs <$> rs.
Proof.
  intros Hrank Hfresh. unfold train_rows, test_rows.
  rewrite <- bind_app_Permutation.
  rewrite (bind_Permutation_ext _ (ranked_block w by_ c ratio fixed rs)).
  - rewrite fmap_bind.
    rewrite (bind_Permutation_ext _ (λ k, DF.project cs <$> DF.group by_ k rs)).
    + rewrite <- fmap_bind. by rewrite <- keys_cover.
    + intros k _. by apply project_ranked_block.
  - intros k _. rewrite Permutation_app_comm. by rewrite take_drop.
Qed.

Lemma group_test_rows (k : Cell) :
  k ∈ DF.group_keys by_ rs →
  DF.group by_ k (test_rows w by_ c ratio fixed sample rs)
  = take (Z.to_nat (held_out by_ c ratio fixed sample rs k))
         (ranked_block w by_ c ratio fixed rs k).
Proof.
  intros Hk. unfold DF.group, test_rows.
  rewrite (filter_key_blocks (DF.cell by_)).
  - by rewrite decide_True.
  - apply group_keys_NoDup.
  - intros k'. apply Forall_take, ranked_block_keys.
Qed.

Lemma group_train_rows (k : Cell) :
  k ∈ DF.group_keys by_ rs →
  DF.group by_ k (train_rows w by_ c ratio fixed sample rs)
  = drop (Z.to_nat (held_out by_ c ratio fixed sample rs k))
         (ranked_block w by_ c ratio fixed rs k).
Proof.
  intros Hk. unfold DF.group, train_rows.
  rewrite (filter_key_blocks (DF.cell by_)).
  - by rewrite decide_True.
  - apply group_keys_NoDup.
  - intros k'. apply Forall_drop, ranked_block_keys.
Qed.

End RankedRows.

(** ** Rounding *)

Example round_half_even_ties :
  DF.round_half_even (1 # 2) = 0%Z ∧ DF.round_half_even (3 # 2) = 2%Z
  ∧ DF.round_half_even (5 # 2) = 2%Z ∧ DF.round_half_even (-3 # 2) = (-2)%Z
  ∧ DF.round_half_even (inject_Z 10 * (3 # 10)) = 3%Z
  ∧ DF.round_half_even (7 # 4) = 2%Z ∧ DF.round_half_even (5 # 4) = 1%Z.
Proof. by repeat split. Qed.

(** ** Rounding to an integer *)

Lemma round_half_even_nearest (q : Q) : nearest_even q (DF.round_half_even q).
Proof.
  destruct q as [n d]. unfold nearest_even, DF.round_half_even. cbn [Qnum Qden].
  pose proof (Z.div_mod n (Z.pos d) ltac:(lia)) as Hdiv.
  pose proof (Z.mod_pos_bound n (Z.pos d) ltac:(lia)) as Hmod.
  set (f := (n / Z.pos d)%Z) in *. set (r := (n mod Z.pos d)%Z) in *.
  assert (∀ z : Z, (n # d) - inject_Z z == (n - z * Z.pos d # d))%Q as Hsub.
  { intros z. unfold Qeq, Qminus, Qplus, Qopp, inject_Z. cbn [Qnum Qden]. lia. }
  assert (∀ z : Z, (Qabs ((n # d) - inject_Z z) <= 1 # 2)%Q
                   ↔ (2 * Z.abs (n - z * Z.pos d) ≤ Z.pos d)%Z) as Hle.
  { intros z. rewrite Hsub. unfold Qabs, Qle. cbn [Qnum Qden]. lia. }
  assert (∀ z : Z, (Qabs ((n # d) - inject_Z z) == 1 # 2)%Q
                   ↔ (2 * Z.abs (n - z * Z.pos d) = Z.pos d)%Z) as Heq.
  { intros z. rewrite Hsub. unfold Qabs, Qeq. cbn [Qnum Qden]. lia. }
  destruct (Z.ltb_spec (2 * r) (Z.pos d)); [| destruct (Z.ltb_spec (Z.pos d) (2 * r))].
  - rewrite Hle, Heq. split; lia.
  - rewrite Hle, Heq. split; lia.
  - destruct (Z.even f) eqn:Hev; rewrite Hle, Heq.
    + split; [lia | done].
    + split; [lia |]. intros _. rewrite Z.even_add, Hev. reflexivity.
Qed.

Lemma round_half_even_le (q : Q) (z : Z) :
  (q <= inject_Z z)%Q → (DF.round_half_even q ≤ z)%Z.
Proof.
  intros Hq. destruct (round_half_even_nearest q) as [Hn _].
  apply Qabs_Qle_condition in Hn as [Hn _].
  assert (inject_Z (DF.round_half_even q) < inject_Z (z + 1))%Q as Hlt.
  { rewrite inject_Z_plus. change (inject_Z 1) with 1%Q. lra. }
  rewrite <- Zlt_Qlt in Hlt. lia.
Qed.

Lemma round_half_even_ge (q : Q) (z : Z) :
  (inject_Z z <= q)%Q → (z ≤ DF.round_half_even q)%Z.
Proof.
  intros Hq. destruct (round_half_even_nearest q) as [Hn _].
  apply Qabs_Qle_condition in Hn as [_ Hn].
  assert (inject_Z z < inject_Z (DF.round_half_even q + 1))%Q as Hlt.
  { rewrite inject_Z_plus. change (inject_Z 1) with 1%Q. lra. }
  rewrite <- Zlt_Qlt in Hlt. lia.
Qed.

Lemma round_half_even_Z (q : Q) (z : Z) :
  (q == inject_Z z)%Q → DF.round_half_even q = z.
Proof.
  intros Hq. apply Z.le_antisymm.
  - apply round_half_even_le. lra.
  - apply round_half_even_ge. lra.
Qed.

(** ** Rounding to a binary64 number *)

Lemma pow2_pos (e : Z) : (0 < 2 ^ e)%Q.
Proof. by apply Qpower_0_lt. Qed.

Lemma pow2_plus (a b : Z) : (2 ^ (a + b) == 2 ^ a * 2 ^ b)%Q.
Proof. by apply Qpower_plus. Qed.

Lemma pow2_inject (k : Z) : (0 ≤ k)%Z → (2 ^ k == inject_Z (2 ^ k))%Q.
Proof. intros Hk. by rewrite Zpower_Qpower. Qed.

Lemma pow2_succ (e : Z) : (2 ^ (e + 1) == 2 * 2 ^ e)%Q.
Proof. rewrite pow2_plus. change (2 ^ 1)%Q with 2%Q. ring. Qed.

Lemma floor_log2_spec (q : Q) :
  (0 < q)%Q → (2 ^ DF.floor_log2 q <= q)%Q ∧ (q < 2 ^ (DF.floor_log2 q + 1))%Q.
Proof.
  intros Hq. destruct q as [a b].
  assert (0 < a)%Z as Ha by (unfold Qlt in Hq; cbn in Hq; lia).
  unfold DF.floor_log2. cbn [Qnum Qden].
  destruct (Z.log2_spec a Ha) as [Ha1 Ha2].
  destruct (Z.log2_spec (Z.pos b) ltac:(lia)) as [Hb1 Hb2].
  pose proof (Z.log2_nonneg a) as Hla. pose proof (Z.log2_nonneg (Z.pos b)) as Hlb.
  set (la := Z.log2 a) in *. set (lb := Z.log2 (Z.pos b)) in *.
  rewrite Z.pow_succ_r in Ha2, Hb2 by done.
  set (X := (2 ^ (la - lb))%Q).
  assert (0 < X)%Q as HX by apply pow2_pos.
  assert (X * inject_Z (2 ^ lb) == inject_Z (2 ^ la))%Q as HXP.
  { unfold X. rewrite <- !pow2_inject by done. rewrite <- pow2_plus. by replace (la - lb + lb)%Z with la by lia. }
  assert ((a # b) * inject_Z (Z.pos b) == inject_Z a)%Q as HqB.
  { rewrite (Qmake_Qdiv a b). field. unfold Qeq. cbn. lia. }
  assert (inject_Z (2 ^ la) <= inject_Z a)%Q as H1 by (by rewrite <- Zle_Qle).
  assert (inject_Z a < 2 * inject_Z (2 ^ la))%Q as H2.
  { change 2%Q with (inject_Z 2). rewrite <- inject_Z_mult. by rewrite <- Zlt_Qlt. }
  assert (inject_Z (2 ^ lb) <= inject_Z (Z.pos b))%Q as H3 by (by rewrite <- Zle_Qle).
  assert (inject_Z (Z.pos b) < 2 * inject_Z (2 ^ lb))%Q as H4.
  { change 2%Q with (inject_Z 2). rewrite <- inject_Z_mult. by rewrite <- Zlt_Qlt. }
  assert (0 < inject_Z (2 ^ lb))%Q as H5.
  { change 0%Q with (inject_Z 0). rewrite <- Zlt_Qlt. lia. }
  set (A := inject_Z a) in *. set (B := inject_Z (Z.pos b)) in *.
  set (PA := inject_Z (2 ^ la)) in *. set (PB := inject_Z (2 ^ lb)) in *.
  set (q := (a # b)%Q) in *.
  assert (q < 2 * X)%Q as Hup.
  { apply Qnot_le_lt. intros Hge.
    assert (2 * X * B <= q * B)%Q by (apply Qmult_le_compat_r; lra).
    assert (2 * X * PB <= 2 * X * B)%Q by (apply Qmult_le_l; lra).
    lra. }
  assert (X < 2 * q)%Q as Hlow.
  { apply Qnot_le_lt. intros Hge.
    assert (2 * q * B <= X * B)%Q by (apply Qmult_le_compat_r; lra).
    assert (X * B < X * (2 * PB))%Q by (apply Qmult_lt_l; lra).
    lra. }
  destruct (Qle_bool X q) eqn:Hb.
  - apply Qle_bool_iff in Hb. split; [done |]. rewrite pow2_succ. done.
  - assert (q < X)%Q as Hlt.
    { apply Qnot_le_lt. intros Hle. apply Qle_bool_iff in Hle. congruence. }
    replace (la - lb - 1 + 1)%Z with (la - lb)%Z by lia. split; [| done].
    assert (2 * 2 ^ (la - lb - 1) == X)%Q as Heq.
    { rewrite <- pow2_succ. unfold X. by replace (la - lb - 1 + 1)%Z with (la - lb)%Z by lia. }
    lra.
Qed.

Lemma Qabs_nonneg_eq (q : Q) : (0 <= q)%Q → Qabs q = q.
Proof.
  destruct q as [a b]. unfold Qle, Qabs. cbn [Qnum Qden]. intros Ha.
  f_equal. lia.
Qed.

Lemma scale_int (N e : Z) : (e ≤ 0)%Z → (inject_Z N / 2 ^ e == inject_Z (N * 2 ^ (- e)))%Q.
Proof.
  intros He. rewrite inject_Z_mult, <- pow2_inject by lia.
  rewrite Qpower_opp. field. apply Qnot_eq_sym, Qlt_not_eq, pow2_pos.
Qed.

Lemma unscale (x : Q) (e : Z) : (x / 2 ^ e * 2 ^ e == x)%Q.
Proof. field. apply Qnot_eq_sym, Qlt_not_eq, pow2_pos. Qed.

Lemma div_pow2_le (x y : Q) (e : Z) : (x <= y)%Q → (x / 2 ^ e <= y / 2 ^ e)%Q.
Proof.
  intros Hxy. unfold Qdiv. apply Qmult_le_compat_r; [done |].
  apply Qlt_le_weak, Qinv_lt_0_compat, pow2_pos.
Qed.

(** The spacing of the doubles around a positive number below [2 ^ 53] is
    at most 1. *)
Lemma ulp_exponent_small (q : Q) :
  (0 < q)%Q → (q < 2 ^ 53)%Q → (Z.max (DF.floor_log2 q - 52) (-1074) ≤ 0)%Z.
Proof.
  intros H0 Hq. destruct (floor_log2_spec q H0) as [Hl _].
  assert (2 ^ DF.floor_log2 q < 2 ^ 53)%Q as Hlt by lra.
  apply Qpower_lt_compat_l_inv in Hlt; [lia | done].
Qed.

Lemma round_double_nonneg (q : Q) : (0 <= q)%Q → (0 <= DF.round_double q)%Q.
Proof.
  intros Hq. unfold DF.round_double.
  set (e := Z.max _ _).
  apply Qmult_le_0_compat; [| apply Qlt_le_weak, pow2_pos].
  change 0%Q with (inject_Z 0). rewrite <- Zle_Qle.
  apply round_half_even_ge. change (inject_Z 0) with 0%Q.
  apply Qle_shift_div_l; [apply pow2_pos | lra].
Qed.

Lemma round_double_le_Z (q : Q) (N : Z) :
  (0 <= q)%Q → (q <= inject_Z N)%Q → (N < 2 ^ 53)%Z → (DF.round_double q <= inject_Z N)%Q.
Proof.
  intros H0 Hq HN. unfold DF.round_double. rewrite (Qabs_nonneg_eq q H0).
  destruct (Qlt_le_dec 0 q) as [Hpos | Hzero].
  - assert (q < 2 ^ 53)%Q as Hlt.
    { rewrite pow2_inject by done. apply Qle_lt_trans with (inject_Z N); [done |].
      by rewrite <- Zlt_Qlt. }
    pose proof (ulp_exponent_small q Hpos Hlt) as He.
    set (e := Z.max _ _) in *.
    rewrite <- (unscale (inject_Z N) e).
    apply Qmult_le_compat_r; [| apply Qlt_le_weak, pow2_pos].
    rewrite scale_int by done. rewrite <- Zle_Qle.
    apply round_half_even_le. rewrite <- scale_int by done. by apply div_pow2_le.
  - set (e := Z.max _ _).
    assert (DF.round_half_even (q / 2 ^ e) = 0%Z) as ->.
    { apply round_half_even_Z. assert (q == 0)%Q as -> by lra. change (inject_Z 0) with 0%Q.
      field. apply Qnot_eq_sym, Qlt_not_eq, pow2_pos. }
    change (inject_Z 0) with 0%Q. lra.
Qed.

Lemma round_double_Z (q : Q) (N : Z) :
  (q == inject_Z N)%Q → (0 ≤ N < 2 ^ 53)%Z → (DF.round_double q == inject_Z N)%Q.
Proof.
  intros Hq [HN0 HN].
  assert (0 <= q)%Q as H0.
  { rewrite Hq. change 0%Q with (inject_Z 0). by rewrite <- Zle_Qle. }
  unfold DF.round_double. rewrite (Qabs_nonneg_eq q H0).
  destruct (Qlt_le_dec 0 q) as [Hpos | Hzero].
  - assert (q < 2 ^ 53)%Q as Hlt.
    { rewrite pow2_inject by done. rewrite Hq. by rewrite <- Zlt_Qlt. }
    pose proof (ulp_exponent_small q Hpos Hlt) as He.
    set (e := Z.max _ _) in *.
    rewrite (round_half_even_Z (q / 2 ^ e) (N * 2 ^ (- e))).
    + rewrite <- scale_int by done. apply unscale.
    + rewrite <- scale_int by done. by rewrite Hq.
  - set (e := Z.max _ _).
    assert (q == 0)%Q as Hq0 by lra.
    assert (DF.round_half_even (q / 2 ^ e) = 0%Z) as ->.
    { apply round_half_even_Z. rewrite Hq0. change (inject_Z 0) with 0%Q.
      field. apply Qnot_eq_sym, Qlt_not_eq, pow2_pos. }
    rewrite <- Hq, Hq0. change (inject_Z 0) with 0%Q. lra.
Qed.

(** The product of a count below [2 ^ 53] and a ratio between 0 and 1. *)
Lemma double_mul_bounds (n : Z) (ratio : Q) :
  (0 ≤ n < 2 ^ 53)%Z → (0 <= ratio)%Q → (ratio <= 1)%Q →
  (0 <= DF.double_mul n ratio)%Q ∧ (DF.double_mul n ratio <= inject_Z n)%Q.
Proof.
  intros Hn H0 H1. unfold DF.double_mul.
  pose proof (round_double_Z (inject_Z n) n ltac:(reflexivity) Hn) as Hfn.
  pose proof (round_double_nonneg ratio H0) as Hr0.
  pose proof (round_double_le_Z ratio 1 H0 H1 ltac:(done)) as Hr1.
  change (inject_Z 1) with 1%Q in Hr1.
  assert (0 <= inject_Z n)%Q as Hn0.
  { change 0%Q with (inject_Z 0). rewrite <- Zle_Qle. lia. }
  set (a := DF.round_double (inject_Z n)) in *. set (r := DF.round_double ratio) in *.
  assert (0 <= a * r)%Q as Hp0 by (apply Qmult_le_0_compat; lra).
  assert (a * r <= inject_Z n)%Q as Hp1.
  { nra. }
  split.
  - by apply round_double_nonneg.
  - apply round_double_le_Z; [done | done | lia].
Qed.

Lemma round_half_even_closest (t : Q) (w : Z) :
  (Qabs (t - inject_Z (DF.round_half_even t)) <= Qabs (t - inject_Z w))%Q.
Proof.
  destruct (round_half_even_nearest t) as [Hn _].
  set (z := DF.round_half_even t) in *.
  destruct (decide (w = z)) as [-> | Hne]; [lra |].
  apply Qle_trans with (1 # 2)%Q; [done |].
  apply Qabs_Qle_condition in Hn as [Hn1 Hn2].
  assert (inject_Z z + 1 <= inject_Z w ∨ inject_Z w + 1 <= inject_Z z)%Q as Hfar.
  { change 1%Q with (inject_Z 1). rewrite <- !inject_Z_plus, <- !Zle_Qle. lia. }
  apply Qabs_case; intros; lra.
Qed.

Lemma Qabs_scale (x : Q) (e : Z) : (Qabs (x * 2 ^ e) == Qabs x * 2 ^ e)%Q.
Proof.
  rewrite Qabs_Qmult. rewrite (Qabs_pos (2 ^ e)); [done |]. apply Qlt_le_weak, pow2_pos.
Qed.

Lemma round_double_error (q : Q) (w : Z) :
  let e := Z.max (DF.floor_log2 (Qabs q) - 52) (-1074) in
  (Qabs (q - DF.round_double q) <= Qabs (q - inject_Z w * 2 ^ e))%Q.
Proof.
  intros e. unfold DF.round_double. fold e.
  set (z := DF.round_half_even (q / 2 ^ e)).
  assert (∀ v : Z, q - inject_Z v * 2 ^ e == (q / 2 ^ e - inject_Z v) * 2 ^ e)%Q as Hsc.
  { intros v. field. apply Qnot_eq_sym, Qlt_not_eq, pow2_pos. }
  rewrite !Hsc, !Qabs_scale.
  apply Qmult_le_compat_r; [| apply Qlt_le_weak, pow2_pos].
  apply round_half_even_closest.
Qed.

Lemma pow2_le (a b : Z) : (a ≤ b)%Z → (2 ^ a <= 2 ^ b)%Q.
Proof. intros Hab. by apply Qpower_le_compat_l. Qed.

Lemma pow2_shift (m a b : Z) :
  (b ≤ a)%Z → (inject_Z m * 2 ^ a == inject_Z (m * 2 ^ (a - b)) * 2 ^ b)%Q.
Proof.
  intros Hab. rewrite inject_Z_mult, <- pow2_inject by lia.
  rewrite <- Qmult_assoc, <- pow2_plus. by replace (a - b + b)%Z with a by lia.
Qed.

Lemma round_double_closest (q : Q) :
  binary64 (DF.round_double q)
  ∧ ∀ y, binary64 y → (Qabs (q - DF.round_double q) <= Qabs (q - y))%Q.
Proof.
  destruct (Qeq_dec q 0) as [Hq0 | Hq0].
  { assert (DF.round_double q == 0)%Q as Hx.
    { rewrite <- (round_double_Z q 0); [done | by rewrite Hq0 | done]. }
    split.
    - exists 0%Z, 0%Z. split_and!; [done | done |]. rewrite Hx. reflexivity.
    - intros y _. assert (q - DF.round_double q == 0)%Q as -> by (rewrite Hx, Hq0; ring).
      apply Qabs_nonneg. }
  assert (0 < Qabs q)%Q as Hpos.
  { apply Qabs_case; intros; [| ]; destruct (Qlt_le_dec 0 q), (Qlt_le_dec q 0); lra. }
  destruct (floor_log2_spec (Qabs q) Hpos) as [Hl1 Hl2].
  pose proof (round_double_error q) as Herr. cbv zeta in Herr.
  set (l := DF.floor_log2 (Qabs q)) in *.
  set (e := Z.max (l - 52) (-1074)) in *.
  assert (Qabs q < 2 ^ (e + 53))%Q as Hbig.
  { apply Qlt_le_trans with (2 ^ (l + 1))%Q; [done |]. apply pow2_le. lia. }
  split.
  - (* representable *)
    unfold DF.round_double. fold l e.
    set (z := DF.round_half_even (q / 2 ^ e)).
    assert (Qabs (q / 2 ^ e) < inject_Z (2 ^ 53))%Q as Hsc.
    { rewrite <- pow2_inject by done. unfold Qdiv. rewrite Qabs_Qmult.
      rewrite (Qabs_pos (/ 2 ^ e)) by (apply Qlt_le_weak, Qinv_lt_0_compat, pow2_pos).
      apply Qlt_shift_div_r; [apply pow2_pos |]. rewrite <- pow2_plus.
      by replace (53 + e)%Z with (e + 53)%Z by lia. }
    assert (- 2 ^ 53 ≤ z ≤ 2 ^ 53)%Z as Hz.
    { split.
      - apply round_half_even_ge. rewrite inject_Z_opp.
        revert Hsc. apply Qabs_case; intros; lra.
      - apply round_half_even_le. revert Hsc. apply Qabs_case; intros; lra. }
    destruct (decide (Z.abs z < 2 ^ 53)%Z) as [Hlt | Hge].
    + exists z, e. split_and!; [done | lia | reflexivity].
    + exists (z / 2)%Z, (e + 1)%Z.
      assert (z = 2 ^ 53 ∨ z = - 2 ^ 53)%Z as Hcase by lia.
      split_and!.
      * destruct Hcase as [-> | ->]; by vm_compute.
      * lia.
      * rewrite pow2_succ. destruct Hcase as [-> | ->].
        -- assert (inject_Z (2 ^ 53) == 2 * inject_Z (2 ^ 53 / 2))%Q as -> by (by vm_compute).
           ring.
        -- assert (inject_Z (- 2 ^ 53) == 2 * inject_Z (- 2 ^ 53 / 2))%Q as -> by (by vm_compute).
           ring.
  - (* nearest *)
    intros y (m & e' & Hm & He' & Hy).
    destruct (Z.le_gt_cases e e') as [Hee | Hee].
    + rewrite Hy, (pow2_shift m e' e Hee). apply Herr.
    + assert (e = l - 52)%Z as He by lia.
      assert (Qabs y < 2 ^ l)%Q as Hysmall.
      { rewrite Hy, Qabs_scale.
        apply Qlt_le_trans with (inject_Z (2 ^ 53) * 2 ^ e')%Q.
        - apply Qmult_lt_compat_r; [apply pow2_pos |].
          change (Qabs (inject_Z m)) with (inject_Z (Z.abs m)). by rewrite <- Zlt_Qlt.
        - rewrite <- pow2_inject, <- pow2_plus by done. apply pow2_le. lia. }
      assert (inject_Z (2 ^ 52) * 2 ^ e == 2 ^ l)%Q as HB.
      { rewrite <- pow2_inject, <- pow2_plus by done. by replace (52 + e)%Z with l by lia. }
      destruct (Qlt_le_dec 0 q) as [Hqp | Hqn].
      * apply Qle_trans with (Qabs (q - inject_Z (2 ^ 52) * 2 ^ e))%Q; [apply Herr |].
        rewrite HB. rewrite (Qabs_pos q) in Hl1 by lra.
        revert Hysmall. do 3 (apply Qabs_case; intros); lra.
      * apply Qle_trans with (Qabs (q - inject_Z (- 2 ^ 52) * 2 ^ e))%Q; [apply Herr |].
        rewrite inject_Z_opp.
        assert (- inject_Z (2 ^ 52) * 2 ^ e == - 2 ^ l)%Q as -> by (rewrite <- HB; ring).
        rewrite (Qabs_neg q) in Hl1 by lra.
        revert Hysmall. do 3 (apply Qabs_case; intros); lra.
Qed.

Lemma round_half_even_tie (t : Q) (w : Z) :
  (Qabs (t - inject_Z (DF.round_half_even t)) == Qabs (t - inject_Z w))%Q →
  w ≠ DF.round_half_even t → Z.even (DF.round_half_even t) = true.
Proof.
  intros Heq Hne. destruct (round_half_even_nearest t) as [Hn Htie].
  set (z := DF.round_half_even t) in *.
  apply Htie.
  assert (inject_Z z + 1 <= inject_Z w ∨ inject_Z w + 1 <= inject_Z z)%Q as Hfar.
  { change 1%Q with (inject_Z 1). rewrite <- !inject_Z_plus, <- !Zle_Qle. lia. }
  revert Hn Heq. apply Qabs_case; intros ?; apply Qabs_case; intros; lra.
Qed.

Lemma round_half_even_abs_ge (t : Q) (N : Z) :
  (inject_Z N <= Qabs t)%Q → (0 ≤ N)%Z → (N ≤ Z.abs (DF.round_half_even t))%Z.
Proof.
  intros Ht HN.
  assert (0 <= inject_Z N)%Q as HN'.
  { change 0%Q with (inject_Z 0). by rewrite <- Zle_Qle. }
  destruct (Qlt_le_dec t 0) as [Hneg | Hpos].
  - rewrite Qabs_neg in Ht by lra.
    assert (DF.round_half_even t ≤ - N)%Z; [| lia].
    apply round_half_even_le. rewrite inject_Z_opp. lra.
  - rewrite Qabs_pos in Ht by done.
    assert (N ≤ DF.round_half_even t)%Z; [| lia].
    by apply round_half_even_ge.
Qed.

(** [round_double] is IEEE 754 rounding to nearest, ties to even. *)
Theorem round_double_nearest (q : Q) : nearest_double q (DF.round_double q).
Proof.
  destruct (round_double_closest q) as [Hrep Hnear].
  split; [done |]. intros y Hy. split; [by apply Hnear |].
  intros Heq Hne.
  destruct (Qeq_dec q 0) as [Hq0 | Hq0].
  { assert (DF.round_double q == 0)%Q as Hx.
    { rewrite <- (round_double_Z q 0); [done | by rewrite Hq0 | done]. }
    exists 0%Z, (-1074)%Z. split_and!; [done | done | done | by left |].
    rewrite Hx. reflexivity. }
  assert (0 < Qabs q)%Q as Hpos.
  { apply Qabs_case; intros; [| ]; destruct (Qlt_le_dec 0 q), (Qlt_le_dec q 0); lra. }
  destruct (floor_log2_spec (Qabs q) Hpos) as [Hl1 Hl2].
  pose proof (round_double_error q) as Herr. cbv zeta in Herr.
  revert Heq Hne. unfold DF.round_double.
  set (l := DF.floor_log2 (Qabs q)) in *.
  set (e := Z.max (l - 52) (-1074)) in *.
  set (z := DF.round_half_even (q / 2 ^ e)). intros Heq Hne.
  assert (Qabs q < 2 ^ (e + 53))%Q as Hbig.
  { apply Qlt_le_trans with (2 ^ (l + 1))%Q; [done |]. apply pow2_le. lia. }
  assert (∀ v : Z, q - inject_Z v * 2 ^ e == (q / 2 ^ e - inject_Z v) * 2 ^ e)%Q as Hsc.
  { intros v. field. apply Qnot_eq_sym, Qlt_not_eq, pow2_pos. }
  assert (Qabs (q / 2 ^ e) < inject_Z (2 ^ 53))%Q as Hsc53.
  { rewrite <- pow2_inject by done. unfold Qdiv. rewrite Qabs_Qmult.
    rewrite (Qabs_pos (/ 2 ^ e)) by (apply Qlt_le_weak, Qinv_lt_0_compat, pow2_pos).
    apply Qlt_shift_div_r; [apply pow2_pos |]. rewrite <- pow2_plus.
    by replace (53 + e)%Z with (e + 53)%Z by lia. }
  assert (- 2 ^ 53 ≤ z ≤ 2 ^ 53)%Z as Hz.
  { split.
    - apply round_half_even_ge. rewrite inject_Z_opp.
      revert Hsc53. apply Qabs_case; intros; lra.
    - apply round_half_even_le. revert Hsc53. apply Qabs_case; intros; lra. }
  assert (Z.even z = true) as Heven.
  { destruct Hy as (m & e' & Hm & He' & Hy).
    destruct (Z.le_gt_cases e e') as [Hee | Hee].
    - rewrite Hy, (pow2_shift m e' e Hee) in Heq, Hne.
      apply (round_half_even_tie (q / 2 ^ e) (m * 2 ^ (e' - e))).
      + fold z. rewrite !Hsc, !Qabs_scale in Heq.
        apply Qmult_inj_r in Heq; [done |]. apply Qnot_eq_sym, Qlt_not_eq, pow2_pos.
      + fold z. intros Hw. apply Hne. by rewrite Hw.
    - exfalso.
      assert (e = l - 52)%Z as He by lia.
      assert (Qabs y < 2 ^ l)%Q as Hysmall.
      { rewrite Hy, Qabs_scale.
        apply Qlt_le_trans with (inject_Z (2 ^ 53) * 2 ^ e')%Q.
        - apply Qmult_lt_compat_r; [apply pow2_pos |].
          change (Qabs (inject_Z m)) with (inject_Z (Z.abs m)). by rewrite <- Zlt_Qlt.
        - rewrite <- pow2_inject, <- pow2_plus by done. apply pow2_le. lia. }
      assert (inject_Z (2 ^ 52) * 2 ^ e == 2 ^ l)%Q as HB.
      { rewrite <- pow2_inject, <- pow2_plus by done. by replace (52 + e)%Z with l by lia. }
      destruct (Qlt_le_dec 0 q) as [Hqp | Hqn].
      + pose proof (Herr (2 ^ 52)%Z) as Hle. unfold DF.round_double in Hle. fold l e z in Hle.
        rewrite HB in Hle. rewrite (Qabs_pos q) in Hl1 by lra.
        rewrite Heq in Hle.
        revert Hysmall Hle. do 3 (apply Qabs_case; intros ?); intros; lra.
      + pose proof (Herr (- 2 ^ 52)%Z) as Hle. unfold DF.round_double in Hle. fold l e z in Hle.
        rewrite inject_Z_opp in Hle.
        assert (- inject_Z (2 ^ 52) * 2 ^ e == - 2 ^ l)%Q as Hneg by (rewrite <- HB; ring).
        rewrite Hneg in Hle.
        rewrite (Qabs_neg q) in Hl1 by lra.
        rewrite Heq in Hle.
        revert Hysmall Hle. do 3 (apply Qabs_case; intros ?); intros; lra. }
  destruct (decide (Z.abs z < 2 ^ 53)%Z) as [Hlt | Hge].
  - exists z, e. split_and!; [done | done | lia | | reflexivity].
    destruct (decide (e = -1074)%Z) as [? | He]; [by left | right].
    assert (e = l - 52)%Z as He' by lia.
    apply round_half_even_abs_ge; [| done].
    unfold Qdiv. rewrite Qabs_Qmult.
    rewrite (Qabs_pos (/ 2 ^ e)) by (apply Qlt_le_weak, Qinv_lt_0_compat, pow2_pos).
    apply Qle_shift_div_l; [apply pow2_pos |].
    rewrite <- pow2_inject, <- pow2_plus by done.
    by replace (52 + e)%Z with l by lia.
  - exists (z / 2)%Z, (e + 1)%Z.
    assert (z = 2 ^ 53 ∨ z = - 2 ^ 53)%Z as Hcase by lia.
    split_and!.
    + destruct Hcase as [-> | ->]; by vm_compute.
    + destruct Hcase as [-> | ->]; by vm_compute.
    + lia.
    + right. destruct Hcase as [-> | ->]; by vm_compute.
    + rewrite pow2_succ. destruct Hcase as [-> | ->].
      * assert (inject_Z (2 ^ 53) == 2 * inject_Z (2 ^ 53 / 2))%Q as -> by (by vm_compute).
        ring.
      * assert (inject_Z (- 2 ^ 53) == 2 * inject_Z (- 2 ^ 53 / 2))%Q as -> by (by vm_compute).
        ring.
Qed.

Lemma nearest_even_unique (t : Q) (z z' : Z) :
  nearest_even t z → nearest_even t z' → z = z'.
Proof.
  intros [H1 E1] [H2 E2].
  destruct (decide (z = z')) as [| Hne]; [done | exfalso].
  assert (inject_Z z + 1 <= inject_Z z' ∨ inject_Z z' + 1 <= inject_Z z)%Q as Hfar.
  { change 1%Q with (inject_Z 1). rewrite <- !inject_Z_plus, <- !Zle_Qle. lia. }
  assert ((Qabs (t - inject_Z z) == 1 # 2) ∧ (Qabs (t - inject_Z z') == 1 # 2)
          ∧ inject_Z z <= inject_Z z' + 1 ∧ inject_Z z' <= inject_Z z + 1)%Q
    as (T1 & T2 & L1 & L2).
  { revert H1 H2. do 2 (apply Qabs_case; intros ?); intros; split_and!; lra. }
  change 1%Q with (inject_Z 1) in L1, L2.
  rewrite <- inject_Z_plus, <- Zle_Qle in L1, L2.
  apply E1 in T1. apply E2 in T2.
  apply Z.even_spec in T1 as [k1 ->]. apply Z.even_spec in T2 as [k2 ->]. lia.
Qed.

Lemma even_succ_binary64 (m e : Z) :
  Z.even m = true → (Z.abs m < 2 ^ 53)%Z → (-1074 ≤ e)%Z →
  binary64 (inject_Z (m + 1) * 2 ^ e) ∧ binary64 (inject_Z (m - 1) * 2 ^ e).
Proof.
  intros [k ->]%Z.even_spec Hm He.
  split; [exists (2 * k + 1)%Z, e | exists (2 * k - 1)%Z, e];
    (split_and!; [lia | done | reflexivity]).
Qed.

Lemma inject_Z_scaled_le (a b : Z) (e : Z) :
  (inject_Z a * 2 ^ e <= inject_Z b * 2 ^ e)%Q → (a ≤ b)%Z.
Proof. intros H. apply Qmult_le_r in H; [by rewrite Zle_Qle | apply pow2_pos]. Qed.

Lemma inject_Z_scaled_lt (a b : Z) (e : Z) :
  (inject_Z a * 2 ^ e < inject_Z b * 2 ^ e)%Q → (a < b)%Z.
Proof. intros H. apply Qmult_lt_r in H; [by rewrite Zlt_Qlt | apply pow2_pos]. Qed.

Lemma nearest_double_ordered (q x x' : Q) :
  nearest_double q x → nearest_double q x' → (x < x')%Q → False.
Proof.
  intros [Hx Hnx] [Hx' Hnx'] Hlt.
  destruct (Hnx x' Hx') as [Hle1 Ht1]. destruct (Hnx' x Hx) as [Hle2 Ht2].
  assert (Qabs (q - x) == Qabs (q - x'))%Q as Heq by lra.
  destruct (Ht1 Heq ltac:(lra)) as (m & a & Em & Hm & Ha & _ & Hxm).
  destruct (Ht2 ltac:(lra) ltac:(lra)) as (m' & a' & Em' & Hm' & Ha' & _ & Hxm').
  assert (2 * q == x + x')%Q as Hmid.
  { revert Heq. do 2 (apply Qabs_case; intros ?); intros; lra. }
  destruct (even_succ_binary64 m a Em Hm Ha) as [Hy1 _].
  destruct (even_succ_binary64 m' a' Em' Hm' Ha') as [_ Hy2].
  destruct (Z.le_gt_cases a a') as [Haa | Haa].
  - destruct (Hnx _ Hy1) as [Hn1 _].
    rewrite (pow2_shift m' a' a Haa) in Hxm'.
    set (M' := (m' * 2 ^ (a' - a))%Z) in *.
    assert (Z.even M' = true) as EM' by (unfold M'; by rewrite Z.even_mul, Em').
    pose proof (pow2_pos a) as HP.
    assert (inject_Z (m + 1) * 2 ^ a == x + 2 ^ a)%Q as Hy1v.
    { rewrite Hxm, inject_Z_plus. change (inject_Z 1) with 1%Q. ring. }
    rewrite Hy1v in Hn1.
    assert (x' <= x + 2 ^ a)%Q as Hgap.
    { revert Hn1. do 2 (apply Qabs_case; intros ?); intros; lra. }
    assert (m < M')%Z as L1 by (apply (inject_Z_scaled_lt _ _ a); lra).
    assert (M' ≤ m + 1)%Z as L2.
    { apply (inject_Z_scaled_le _ _ a). rewrite <- Hxm', Hy1v. done. }
    apply Z.even_spec in Em as [k1 ->]. apply Z.even_spec in EM' as [k2 E2]. lia.
  - destruct (Hnx' _ Hy2) as [Hn2 _].
    rewrite (pow2_shift m a a' ltac:(lia)) in Hxm.
    set (M := (m * 2 ^ (a - a'))%Z) in *.
    assert (Z.even M = true) as EM by (unfold M; by rewrite Z.even_mul, Em).
    pose proof (pow2_pos a') as HP.
    assert (inject_Z (m' - 1) * 2 ^ a' == x' - 2 ^ a')%Q as Hy2v.
    { rewrite Hxm'. unfold Z.sub. rewrite inject_Z_plus. rewrite inject_Z_opp.
      change (inject_Z 1) with 1%Q. ring. }
    rewrite Hy2v in Hn2.
    assert (x' - 2 ^ a' <= x)%Q as Hgap.
    { revert Hn2. do 2 (apply Qabs_case; intros ?); intros; lra. }
    assert (M < m')%Z as L1 by (apply (inject_Z_scaled_lt _ _ a'); lra).
    assert (m' - 1 ≤ M)%Z as L2.
    { apply (inject_Z_scaled_le _ _ a'). rewrite <- Hxm, Hy2v. done. }
    apply Z.even_spec in Em' as [k1 ->]. apply Z.even_spec in EM as [k2 E2]. lia.
Qed.

Theorem nearest_double_unique (q x x' : Q) :
  nearest_double q x → nearest_double q x' → (x == x')%Q.
Proof.
  intros H H'. destruct (Q_dec x x') as [[Hlt | Hgt] | Heq]; [| | done].
  - destruct (nearest_double_ordered q x x' H H' Hlt).
  - destruct (nearest_double_ordered q x' x H' H Hgt).
Qed.

Lemma round_half_even_double_mul (n : Z) (ratio : Q) :
  (0 ≤ n < 2 ^ 53)%Z → (0 <= ratio)%Q → (ratio <= 1)%Q →
  (0 ≤ DF.round_half_even (DF.double_mul n ratio) ≤ n)%Z.
Proof.
  intros Hn H0 H1. destruct (double_mul_bounds n ratio Hn H0 H1) as [Hlo Hhi]. split.
  - by apply round_half_even_ge.
  - by apply round_half_even_le.
Qed.

Lemma split_point_round (n : Z) (x : Q) :
  split_point n x (DF.round_half_even (DF.double_mul n x)).
Proof.
  exists (DF.round_double (inject_Z n)), (DF.round_double x), (DF.double_mul n x).
  split_and!; try apply round_double_nearest. apply round_half_even_nearest.
Qed.

Lemma nearest_double_proper (q q' x : Q) :
  (q == q')%Q → nearest_double q x → nearest_double q' x.
Proof.
  intros Hq [Hx Hn]. split; [done |]. intros y Hy. destruct (Hn y Hy) as [Hle Htie].
  split; [by rewrite <- Hq |]. intros Heq. apply Htie. by rewrite Hq.
Qed.

Lemma nearest_even_proper (t t' : Q) (z : Z) :
  (t == t')%Q → nearest_even t z → nearest_even t' z.
Proof.
  intros Ht [Hle Htie]. split; [by rewrite <- Ht |]. intros Heq. apply Htie. by rewrite Ht.
Qed.

(** The split point is determined by the count and the ratio: it is the
    value that [bround_mul] computes. *)
Theorem split_point_unique (n : Z) (x : Q) (p : Z) :
  split_point n x p ↔ p = DF.round_half_even (DF.double_mul n x).
Proof.
  split.
  - intros (a & r & d & Ha & Hr & Hd & Hp).
    pose proof (nearest_double_unique _ _ _ Ha (round_double_nearest (inject_Z n))) as Ea.
    pose proof (nearest_double_unique _ _ _ Hr (round_double_nearest x)) as Er.
    assert (a * r == DF.round_double (inject_Z n) * DF.round_double x)%Q as Ep
      by (by rewrite Ea, Er).
    apply (nearest_double_proper _ _ _ Ep) in Hd.
    pose proof (nearest_double_unique _ _ _ Hd (round_double_nearest _)) as Ed.
    fold (DF.double_mul n x) in Ed.
    apply (nearest_even_proper _ _ _ Ed) in Hp.
    apply (nearest_even_unique _ _ _ Hp (round_half_even_nearest _)).
  - intros ->.
    exists (DF.round_double (inject_Z n)), (DF.round_double x), (DF.double_mul n x).
    split_and!; try apply round_double_nearest. apply round_half_even_nearest.
Qed.

(** 45 times 0.7 is the double just below 31.5; 5 times 0.7 lies halfway
    between two doubles and goes to 3.5; 5 times 0.3 is 1.5.  The double
    1023545369856931 / 2^52 times 11 is 2.5 + 2^-52 exactly, halfway between
    the doubles 2.5 and 2.5 + 2^-51: the product is 2.5, the one with the
    even significand, and the split point is 2, where the exact product
    rounds to 3. *)
Example double_mul_examples :
  (DF.double_mul 45 (7 # 10) == 8866461766385663 # 281474976710656)%Q
  ∧ (DF.double_mul 5 (7 # 10) == 7 # 2)%Q
  ∧ (DF.double_mul 5 (3 # 10) == 3 # 2)%Q
  ∧ (DF.double_mul 10 (3 # 10) == 3)%Q
  ∧ (DF.round_double (7 # 10) == 3152519739159347 # 4503599627370496)%Q
  ∧ (DF.double_mul 11 (1023545369856931 # 4503599627370496) == 5 # 2)%Q
  ∧ DF.round_half_even (DF.double_mul 11 (1023545369856931 # 4503599627370496)) = 2%Z
  ∧ DF.round_half_even (inject_Z 11 * (1023545369856931 # 4503599627370496)) = 3%Z.
Proof. split_and!; by vm_compute. Qed.

(** ** [random_split] *)

Lemma sample_cell_complement (c : Q) (draw : nat → Q) (i : nat) (l : list Row) :
  (∀ j, (0 <= draw j)%Q ∧ (draw j < 1)%Q) →
  DF.sample_cell 0 c draw i l ++ DF.sample_cell c 1 draw i l ≡ₚ l.
Proof.
  intros Hdraw. revert i. induction l as [|r l IH]; intros i; simpl; [done |].
  destruct (Hdraw i) as [H0 H1].
  assert (Qle_bool 0 (draw i) = true) as -> by (by apply Qle_bool_iff).
  assert (Qle_bool 1 (draw i) = false) as ->.
  { apply not_true_is_false. intros H. apply Qle_bool_iff in H.
    by apply Qle_not_lt in H. }
  destruct (Qle_bool c (draw i)); simpl.
  - rewrite <- Permutation_middle. by rewrite IH.
  - by rewrite IH.
Qed.

Lemma random_split_rows (draw : nat → Q) (df : DataFrame) (m : Z) (b : bool) (ratio : Q) :
  (∀ j, (0 <= draw j)%Q ∧ (draw j < 1)%Q) → (0 <= ratio)%Q → (ratio <= 1)%Q →
  filter_input b df →
  ∃ F train test,
    min_rating_filter df m b = Some F
    ∧ random_split draw df m b ratio = Some (Split train test)
    ∧ columns train = columns F ∧ columns test = columns F
    ∧ rows train ++ rows test ≡ₚ rows F.
Proof.
  intros Hdraw H0 H1 Hin.
  destruct (filtered_facts b m df Hin) as (F & HF & _).
  unfold random_split. rewrite HF. cbn [mbind option_bind].
  unfold DF.randomSplit.
  assert (Qle_bool 0 (1 - ratio) = true) as ->.
  { apply Qle_bool_iff. unfold Qminus. rewrite <- (Qplus_opp_r ratio).
    apply Qplus_le_l. done. }
  assert (Qle_bool 0 ratio = true) as -> by (by apply Qle_bool_iff).
  assert (Qle_bool (1 - ratio + ratio) 0 = false) as ->.
  { apply not_true_is_false. intros H. apply Qle_bool_iff in H.
    assert (1 - ratio + ratio == 1)%Q as Heq by ring. rewrite Heq in H. by apply Qle_not_lt in H. }
  cbn [andb negb mbind option_bind].
  eexists F, _, _. split_and!; try done. cbn [rows fst snd].
  by apply sample_cell_complement.
Qed.

(** ** [non_overlapping_split] *)

Lemma bind_if_singleton {A} (P : A → Prop) `{∀ x, Decision (P x)} (l : list A) :
  l ≫= (λ x, if decide (P x) then [x] else []) = filter P l.
Proof.
  induction l as [|x l IH]; [done |].
  cbn [mbind list_bind]. rewrite IH, filter_cons. by destruct (decide (P x)).
Qed.

Lemma union_key_row_id (by_ : string) (r : Row) :
  is_Some (r !! by_) → r ∪ key_row by_ r = r.
Proof.
  intros [k Hk]. apply map_eq. intros i. rewrite lookup_union. unfold key_row.
  destruct (decide (i = by_)) as [-> | Hne].
  - unfold DF.cell. rewrite Hk, lookup_singleton_eq. done.
  - rewrite lookup_singleton_ne by done. by destruct (r !! i).
Qed.

(** Joining a frame with a list of distinct entities keeps the rows of
    those entities, unchanged and in order. *)
Lemma join_entities (by_ : string) (F : DataFrame) (T : list Row) :
  wf F → by_ ∈ columns F → Forall (λ r, DF.cell by_ r ≠ Null) (rows F) →
  NoDup T → Forall (λ rr, ∃ k, rr = ({[by_ := k]} : Row)) T →
  rows F ≫= (λ lr, (λ rr, lr ∪ rr) <$> filter (DF.key_match by_ lr) T)
  = filter (λ lr, key_row by_ lr ∈ T) (rows F).
Proof.
  intros Hwf Hby Hkeys Hnd HT. rewrite <- bind_if_singleton.
  rewrite Forall_forall in Hkeys, HT.
  apply bind_ext_in. intros lr Hlr.
  rewrite (filter_ext_in _ (λ rr, rr = key_row by_ lr)).
  - destruct (decide (key_row by_ lr ∈ T)) as [Hin | Hni].
    + rewrite filter_eq_NoDup by done. cbn [fmap list_fmap]. f_equal.
      apply union_key_row_id. rewrite (wf_lookup F lr by_) by done. by eexists.
    + rewrite filter_none; [done |]. apply Forall_forall. by intros rr Hrr ->.
  - intros rr Hrr. destruct (HT rr Hrr) as [k ->]. unfold DF.key_match, key_row.
    rewrite cell_singleton. split.
    + by intros [_ ->].
    + intros Heq. apply (f_equal (DF.cell by_)) in Heq. rewrite !cell_singleton in Heq.
      split; [by apply Hkeys | done].
Qed.

Lemma entity_rows_NoDup (by_ : string) (ks : list Cell) :
  NoDup ks → NoDup ((λ k, ({[by_ := k]} : Row)) <$> ks).
Proof.
  intros Hnd. apply NoDup_fmap_2; [| done].
  intros k k' Heq. apply (f_equal (DF.cell by_)) in Heq. by rewrite !cell_singleton in Heq.
Qed.

Lemma shuffled_entities_NoDup (rand_order : list Row → list Row) (by_ : string)
    (rs : list Row) :
  (∀ l, rand_order l ≡ₚ l) → NoDup (shuffled_entities rand_order by_ rs).
Proof.
  intros Hperm. unfold shuffled_entities. rewrite Hperm.
  apply entity_rows_NoDup, group_keys_NoDup.
Qed.

Lemma shuffled_entities_shape (rand_order : list Row → list Row) (by_ : string)
    (rs : list Row) :
  (∀ l, rand_order l ≡ₚ l) →
  Forall (λ rr, ∃ k, rr = ({[by_ := k]} : Row)) (shuffled_entities rand_order by_ rs).
Proof.
  intros Hperm. apply Forall_forall. intros rr Hrr. unfold shuffled_entities in Hrr.
  rewrite Hperm in Hrr. apply list_elem_of_fmap in Hrr as (k & -> & _). by exists k.
Qed.

Lemma non_overlapping_split_rows (rand_order : list Row → list Row) (df : DataFrame)
    (m : Z) (b : bool) (ratio : Q) :
  (∀ l, rand_order l ≡ₚ l) → filter_input b df →
  ∃ F, min_rating_filter df m b = Some F
       ∧ let S := shuffled_entities rand_order (split_by_column b) (rows F) in
         let n := Z.to_nat (DF.round_half_even
                    (DF.double_mul
                       (Z.of_nat (length (DF.group_keys (split_by_column b) (rows F)))) ratio)) in
         non_overlapping_split rand_order df m b ratio
         = Some (Split
             (mkDF (columns F)
                (filter (λ r, key_row (split_by_column b) r ∈ take n S) (rows F)))
             (mkDF (columns F)
                (filter (λ r, key_row (split_by_column b) r ∈ drop n S) (rows F)))).
Proof.
  intros Hperm Hin.
  destruct (filtered_facts b m df Hin) as (F & HF & HinF & Hcols & Hrows & Hkeys).
  exists F. split; [done |]. intros S n.
  unfold non_overlapping_split. rewrite HF. cbn [mbind option_bind].
  destruct HinF as (HwfF & HbyF & HwithF & _).
  set (by_ := split_by_column b) in *. set (with_ := split_with_column b) in *.
  set (nn := "n" +:+ with_name b).
  assert (by_ ≠ "count(" +:+ with_ +:+ ")" ∧ by_ ≠ nn ∧ by_ ≠ "rowNumber")
    as (Hcw & Hnn & Hrn) by (by destruct b).
  destruct (groupBy_count_renamed by_ with_ nn F Hcw
              (resolve_Some _ _ (proj1 HwfF) HbyF) (resolve_Some _ _ (proj1 HwfF) HwithF))
    as (g & -> & Hg).
  cbn [mbind option_bind]. rewrite Hg. clear g Hg.
  set (E := (λ k, ({[by_ := k]} : Row)) <$> DF.group_keys by_ (rows F)).
  assert (DF.drop_col nn (mkDF [by_; nn] (count_table by_ with_ nn (rows F)))
          = mkDF [by_] E) as ->.
  { unfold DF.drop_col. cbn [columns rows]. f_equal.
    - rewrite filter_cons_True by done. by rewrite filter_cons_False by (intros H; by apply H).
    - unfold count_table, E. rewrite <- list_fmap_compose. apply list_fmap_ext.
      intros _ k _. simpl. rewrite delete_insert_eq. apply delete_singleton_ne. done. }
  unfold DF.row_number_over. cbn [DF.partitionBy DF.orderBy_cols DF.orderBy].
  rewrite decide_True by done. cbn [mbind option_bind columns rows].
  assert (NoDup [by_; "rowNumber"]) as Hnd2.
  { apply NoDup_cons. split; [by rewrite list_elem_of_singleton | apply NoDup_singleton]. }
  unfold DF.filter_lit.
  rewrite !(resolve_Some "rowNumber" (mkDF [by_; "rowNumber"] _));
    [| exact Hnd2 | cbn; set_solver].
  cbn [mbind option_bind columns rows fst snd].
  rewrite filter_le_number_from, filter_gt_number_from.
  unfold DF.count. cbn [rows].
  assert (length E = length (DF.group_keys by_ (rows F))) as -> by apply length_fmap.
  replace (DF.round_half_even
             (DF.double_mul (Z.of_nat (length (DF.group_keys by_ (rows F)))) ratio) - 1 + 1)%Z
    with (DF.round_half_even
            (DF.double_mul (Z.of_nat (length (DF.group_keys by_ (rows F)))) ratio))
    by lia.
  fold n.
  assert (delete "rowNumber" <$> DF.number_from 1 "rowNumber" (rand_order E) = S) as Hun.
  { apply number_from_unnumber. apply Forall_forall. intros rr Hrr.
    unfold S, shuffled_entities in Hrr. rewrite Hperm in Hrr. apply list_elem_of_fmap in Hrr as (k & -> & _).
    apply lookup_singleton_ne. done. }
  assert (∀ T, DF.drop_col "rowNumber" (mkDF [by_; "rowNumber"] T)
               = mkDF [by_] (delete "rowNumber" <$> T)) as Hdrop.
  { intros T. unfold DF.drop_col. cbn [columns rows]. f_equal.
    rewrite filter_cons_True by done. by rewrite filter_cons_False by (intros H; by apply H). }
  rewrite !Hdrop, fmap_take, fmap_drop, Hun.
  unfold DF.join.
  rewrite !(resolve_Some by_ F) by (done || apply HwfF).
  rewrite !(resolve_Some by_ (mkDF [by_] _)) by (apply NoDup_singleton || (cbn; set_solver)).
  cbn [mbind option_bind columns rows].
  assert (by_ :: DF.others by_ (columns F) ++ DF.others by_ [by_] = columns F) as ->.
  { unfold DF.others at 2. rewrite filter_cons_False by (intros H; by apply H).
    rewrite filter_nil, app_nil_r. by rewrite Hcols, others_cons_eq, others_idemp. }
  pose proof (shuffled_entities_NoDup rand_order by_ (rows F) Hperm) as HndS.
  pose proof (shuffled_entities_shape rand_order by_ (rows F) Hperm) as HshS.
  fold S in HndS, HshS.
  assert (NoDup (take n S) ∧ NoDup (drop n S)) as [Hnt Hndr].
  { rewrite <- (take_drop n S) in HndS. by apply NoDup_app in HndS as (? & _ & ?). }
  rewrite (join_entities by_ F (take n S)); [| done | done | done | done | by apply Forall_take].
  rewrite (join_entities by_ F (drop n S)); [| done | done | done | done | by apply Forall_drop].
  done.
Qed.

Lemma dom_project (cs : list string) (r : Row) : dom (DF.project cs r) = list_to_set cs.
Proof.
  unfold DF.project. rewrite dom_list_to_map_L. f_equal.
  rewrite <- list_fmap_compose. apply list_fmap_id.
Qed.

Lemma df1_split_input (fixed : bool) : split_input true fixed df1.
Proof.
  unfold split_input, filter_input, wf. split_and!.
  - by apply (bool_decide_unpack _).
  - repeat constructor; by vm_compute.
  - by apply (bool_decide_unpack _).
  - by apply (bool_decide_unpack _).
  - by apply (bool_decide_unpack _).
  - by apply (bool_decide_unpack _).
  - intros _. split; by apply (bool_decide_unpack _).
Defined.

Lemma Permutation_NoDup_disjoint {A} (l1 l2 l : list A) :
  l1 ++ l2 ≡ₚ l → NoDup l → ∀ x, x ∈ l1 → x ∉ l2.
Proof.
  intros Hp Hnd x H1 H2. rewrite <- Hp in Hnd.
  apply NoDup_app in Hnd as (_ & Hd & _). by apply (Hd x).
Qed.

Lemma fmap_Permutation_NoDup_disjoint {A B} (f : A → B) (l1 l2 : list A) (l : list B) :
  f <$> (l1 ++ l2) ≡ₚ l → NoDup l → ∀ x, x ∈ l1 → x ∉ l2.
Proof.
  intros Hp Hnd x H1 H2. rewrite <- Hp, fmap_app in Hnd.
  apply NoDup_app in Hnd as (_ & Hd & _).
  apply (Hd (f x)); by apply list_elem_of_fmap_2.
Qed.

Lemma take_drop_disjoint {A} (n : nat) (l : list A) (x : A) :
  NoDup l → x ∈ take n l → x ∉ drop n l.
Proof.
  intros Hnd. rewrite <- (take_drop n l) in Hnd.
  apply NoDup_app in Hnd as (_ & Hd & _). apply Hd.
Qed.

(** ** Group sizes *)

Lemma count_col_le_length (c : string) (rs : list Row) :
  (DF.count_col c rs ≤ Z.of_nat (length rs))%Z.
Proof. unfold DF.count_col. pose proof (length_filter (λ r, DF.cell c r ≠ Null) rs). lia. Qed.

Lemma count_col_no_null (c : string) (rs : list Row) :
  Forall (λ r, DF.cell c r ≠ Null) rs → DF.count_col c rs = Z.of_nat (length rs).
Proof. intros Hrs. unfold DF.count_col. by rewrite filter_all. Qed.

(** A group that survives the filter has at least [min_rating] rows. *)
Lemma retained_group_size (b : bool) (m : Z) (rs out : list Row) (k : Cell) :
  out ≡ₚ filter (retained b m rs) rs → k ∈ DF.group_keys (split_by_column b) out →
  (m ≤ group_size (split_by_column b) out k)%Z.
Proof.
  intros Hout Hk. apply elem_of_group_keys in Hk as (r & Hr & <-).
  pose proof (filter_retained_idemp b m rs out Hout) as Hid.
  assert (retained b m out r) as [_ Hm].
  { rewrite <- Hid in Hr. by apply list_elem_of_filter in Hr as [? _]. }
  unfold rating_count in Hm. unfold group_size.
  pose proof (count_col_le_length (split_with_column b)
                (DF.group (split_by_column b) (DF.cell (split_by_column b) r) out)).
  lia.
Qed.

Section GroupSizes.

Variable w : DF.WindowSpec.
Variable by_ c : string.
Variable ratio : Q.
Variable fixed : bool.
Variable sample : Z.
Variable rs : list Row.

Hypothesis w_perm : ∀ l, DF.orderBy w l ≡ₚ l.
Hypothesis by_rank : by_ ≠ "rank".
Hypothesis by_count : by_ ≠ "count".
Hypothesis by_splitPoint : by_ ≠ "splitPoint".

Lemma ranked_group_sizes (k : Cell) :
  k ∈ DF.group_keys by_ rs →
  (0 ≤ held_out by_ c ratio fixed sample rs k ≤ group_size by_ rs k)%Z →
  group_size by_ (test_rows w by_ c ratio fixed sample rs) k
  = held_out by_ c ratio fixed sample rs k
  ∧ group_size by_ (train_rows w by_ c ratio fixed sample rs) k
    = (group_size by_ rs k - held_out by_ c ratio fixed sample rs k)%Z.
Proof.
  intros Hk Hn. unfold group_size in *.
  rewrite group_test_rows, group_train_rows by done.
  rewrite length_take, length_drop, length_ranked_block by done. lia.
Qed.

Lemma held_out_bounds (m : Z) (k : Cell) :
  (m ≤ group_size by_ rs k)%Z →
  (if fixed then (0 ≤ sample < m)%Z
   else (0 <= ratio)%Q ∧ (ratio <= 1)%Q ∧ (group_size by_ rs k < 2 ^ 53)%Z) →
  (0 ≤ held_out by_ c ratio fixed sample rs k ≤ group_size by_ rs k)%Z.
Proof.
  intros Hm Hmode. unfold held_out, group_size in *. destruct fixed; [lia |].
  destruct Hmode as (H0 & H1 & Hsize).
  pose proof (count_col_le_length c (DF.group by_ k rs)) as Hle.
  assert (0 ≤ DF.count_col c (DF.group by_ k rs))%Z as Hc0 by (unfold DF.count_col; lia).
  pose proof (round_half_even_double_mul (DF.count_col c (DF.group by_ k rs)) ratio
                ltac:(lia) H0 H1).
  lia.
Qed.

End GroupSizes.

Lemma group_size_project (by_ : string) (cs : list string) (rs : list Row) (k : Cell) :
  by_ ∈ cs → group_size by_ (DF.project cs <$> rs) k = group_size by_ rs k.
Proof.
  intros Hby. unfold group_size.
  rewrite group_fmap by (intros r; by apply cell_project). by rewrite length_fmap.
Qed.

(** ** Descending order *)

Global Instance desc_total (c : string) : Total (DF.desc c).
Proof.
  intros x y. unfold DF.desc.
  destruct (DF.cell c x) as [|a], (DF.cell c y) as [|a']; simpl; try tauto. lia.
Qed.

Global Instance desc_trans (c : string) : Transitive (DF.desc c).
Proof.
  intros x y z. unfold DF.desc.
  destruct (DF.cell c x) as [|a], (DF.cell c y) as [|a'], (DF.cell c z) as [|a''];
    simpl; try tauto. lia.
Qed.

Lemma sort_desc_sorted (c : string) (rs : list Row) :
  StronglySorted (DF.desc c) (DF.sort_desc c rs).
Proof. apply StronglySorted_merge_sort; apply _. Qed.

Lemma project_project (cs cs' : list string) (r : Row) :
  (∀ c, c ∈ cs → c ∈ cs') → DF.project cs (DF.project cs' r) = DF.project cs r.
Proof.
  intros Hsub. apply map_eq. intros i. rewrite !lookup_project.
  destruct (decide (i ∈ cs)) as [Hi |]; [| done]. f_equal. apply cell_project. by apply Hsub.
Qed.

Lemma project_number_from (cs : list string) (name : string) (i : Z) (l : list Row) :
  name ∉ cs → DF.project cs <$> DF.number_from i name l = DF.project cs <$> l.
Proof.
  intros Hn. revert i. induction l as [|r l IH]; intros i; simpl; [done |].
  by rewrite project_insert, IH.
Qed.

(** ** The fixed-sample guard *)

Example fixed_sample_guard_table :
  fixed_sample_guard true 3 6 = false
  ∧ fixed_sample_guard true 7 0 = true
  ∧ fixed_sample_guard true 8 0 = false
  ∧ fixed_sample_guard false 3 (-1) = false
  ∧ fixed_sample_guard false 2 (-1) = true.
Proof. by repeat split. Qed.

Lemma land_1_cases (n : Z) : Z.land 1 n = 0%Z ∨ Z.land 1 n = 1%Z.
Proof.
  assert (Z.land 1 n = n mod 2)%Z as ->.
  { rewrite Z.land_comm. apply (Z.land_ones n 1). lia. }
  assert (0 < 2)%Z as H2 by lia.
  pose proof (Z.mod_pos_bound n 2 H2). lia.
Qed.

(** In fixed-count mode the guard fires exactly when [sample] is odd and
    [min_rating] is below one. *)
Lemma fixed_sample_guard_true (sample min_rating : Z) :
  fixed_sample_guard true sample min_rating = true ↔
  Z.land 1 sample = 1%Z ∧ (min_rating < 1)%Z.
Proof.
  unfold fixed_sample_guard. change (Z.b2z true) with 1%Z.
  rewrite andb_true_iff, Z.eqb_eq, Z.gtb_ltb, Z.ltb_lt.
  destruct (land_1_cases sample) as [-> | ->]; lia.
Qed.

Lemma fixed_sample_guard_false (fixed : bool) (sample min_rating : Z) :
  (if fixed then 1 ≤ min_rating else 0 ≤ min_rating)%Z →
  fixed_sample_guard fixed sample min_rating = false.
Proof.
  intros Hm. unfold fixed_sample_guard.
  apply andb_false_iff.
  destruct (land_1_cases sample) as [-> | ->].
  - right. rewrite Z.gtb_ltb. apply Z.ltb_ge. destruct fixed; lia.
  - destruct fixed; simpl.
    + right. rewrite Z.gtb_ltb. apply Z.ltb_ge. lia.
    + by left.
Qed.

(** ** First-occurrence argmax and argmin *)

Section ArgFrom.

Variable le lt : Q → Q → Prop.
Variable better : Q → Q → bool.
Hypothesis better_true : ∀ x b, better x b = true → lt b x.
Hypothesis better_false : ∀ x b, better x b = false → le x b.
Hypothesis le_refl : ∀ x, le x x.
Hypothesis le_lt_trans : ∀ y b x, le y b → lt b x → lt y x.
Hypothesis lt_le : ∀ y x, lt y x → le y x.

Lemma arg_from_first_extreme (l pre : list Q) (best_i i : nat) (best : Q) :
  length pre = i → pre !! best_i = Some best →
  (∀ j y, pre !! j = Some y → le y best) →
  (∀ j y, (j < best_i)%nat → pre !! j = Some y → lt y best) →
  first_extreme le lt (pre ++ l) (arg_from better best_i best i l).
Proof.
  revert pre best_i i best.
  induction l as [|x l IH]; intros pre best_i i best Hlen Hbest Hall Hbefore; simpl.
  - exists best. rewrite app_nil_r. eauto.
  - assert (best_i < length pre)%nat as Hlt by (by eapply lookup_lt_Some).
    replace (pre ++ x :: l) with ((pre ++ [x]) ++ l) by (by rewrite <- app_assoc).
    destruct (better x best) eqn:Hb.
    + apply IH.
      * rewrite length_app. simpl. lia.
      * rewrite lookup_app_r by lia. by replace (i - length pre)%nat with 0%nat by lia.
      * intros j y Hj. apply lookup_app_Some in Hj as [Hj | [_ Hj]].
        -- apply lt_le. eapply le_lt_trans; eauto.
        -- apply list_lookup_singleton_Some in Hj as [_ ->]. apply le_refl.
      * intros j y Hji Hj. rewrite lookup_app_l in Hj by lia.
        eapply le_lt_trans; eauto.
    + apply IH.
      * rewrite length_app. simpl. lia.
      * by rewrite lookup_app_l.
      * intros j y Hj. apply lookup_app_Some in Hj as [Hj | [_ Hj]]; [eauto |].
        apply list_lookup_singleton_Some in Hj as [_ ->]. by apply better_false.
      * intros j y Hji Hj. rewrite lookup_app_l in Hj by lia. eauto.
Qed.

End ArgFrom.

Lemma Qgtb_true (x b : Q) : Qgtb x b = true → (b < x)%Q.
Proof.
  unfold Qgtb. rewrite negb_true_iff. intros H.
  apply Qnot_le_lt. intros Hle. apply Qle_bool_iff in Hle. congruence.
Qed.

Lemma Qgtb_false (x b : Q) : Qgtb x b = false → (x <= b)%Q.
Proof. unfold Qgtb. rewrite negb_false_iff. apply Qle_bool_iff. Qed.

Lemma argmax_first (l : list Q) :
  l ≠ [] → ∃ i, argmax l = Some i ∧ first_argmax l i.
Proof.
  destruct l as [|x l]; [done | intros _].
  eexists; split; [done |].
  apply (arg_from_first_extreme Qle Qlt Qgtb Qgtb_true Qgtb_false Qle_refl
           Qle_lt_trans Qlt_le_weak l [x] 0%nat 1%nat x); try done.
  - intros [|j] y Hj; simplify_eq/=. apply Qle_refl.
  - intros j y Hj; lia.
Qed.

Lemma argmin_first (l : list Q) :
  l ≠ [] → ∃ i, argmin l = Some i ∧ first_argmin l i.
Proof.
  destruct l as [|x l]; [done | intros _].
  eexists; split; [done |].
  change (x :: l) with ([x] ++ l).
  apply (arg_from_first_extreme (λ y x, x <= y)%Q (λ y x, x < y)%Q Qltb); try done.
  - intros a b. unfold Qltb. rewrite negb_true_iff. intros H.
    apply Qnot_le_lt. intros Hle. apply Qle_bool_iff in Hle. congruence.
  - intros a b. unfold Qltb. rewrite negb_false_iff. apply Qle_bool_iff.
  - intros a. apply Qle_refl.
  - intros y b a Hyb Hba. eapply Qlt_le_trans; eauto.
  - intros y a. apply Qlt_le_weak.
  - intros [|j] y Hj; simplify_eq/=. apply Qle_refl.
  - intros j y Hj; lia.
Qed.

Lemma first_extreme_lt_length le lt (l : list Q) (i : nat) :
  first_extreme le lt l i → (i < length l)%nat.
Proof. intros (x & Hx & _). by eapply lookup_lt_Some. Qed.

(** ** Slot writes *)

Lemma writes_length {A} (ws : list (nat * A)) (l : list A) :
  length (writes ws l) = length l.
Proof.
  revert l. induction ws as [|w ws IH]; intros l; [done |].
  unfold writes in *. simpl. by rewrite IH, length_insert.
Qed.

Lemma writes_lookup_other {A} (ws : list (nat * A)) (l : list A) (j : nat) :
  j ∉ ws.*1 → writes ws l !! j = l !! j.
Proof.
  revert l. induction ws as [|[i v] ws IH]; intros l Hj; [done |].
  rewrite fmap_cons, not_elem_of_cons in Hj. destruct Hj as [Hne Hj].
  unfold writes in *. simpl. rewrite IH by done.
  by apply list_lookup_insert_ne.
Qed.

Lemma writes_lookup_written {A} (ws : list (nat * A)) (l : list A) (j : nat) (v : A) :
  NoDup ws.*1 → (j, v) ∈ ws → (j < length l)%nat → writes ws l !! j = Some v.
Proof.
  revert l. induction ws as [|[i w] ws IH]; intros l Hnd Hin Hlt.
  - by apply elem_of_nil in Hin.
  - rewrite fmap_cons in Hnd. apply NoDup_cons in Hnd as [Hni Hnd].
    apply elem_of_cons in Hin as [Heq | Hin].
    + injection Heq as -> ->. simpl in Hni.
      change (writes ((i, w) :: ws) l) with (writes ws (<[i := w]> l)).
      rewrite writes_lookup_other by done. by apply list_lookup_insert_eq.
    + change (writes ((i, w) :: ws) l) with (writes ws (<[i := w]> l)).
      apply IH; [done | done |]. by rewrite length_insert.
Qed.

(** Writing the pairs [(i, g x_i)] in any order into a list of the right
    length leaves [g x_0, g x_1, ...]. *)
Lemma writes_permutation {A B} (g : B → A) (xs : list B) (ws : list (nat * A)) (l : list A) :
  ws ≡ₚ imap (λ i x, (i, g x)) xs → length l = length xs →
  writes ws l = g <$> xs.
Proof.
  intros Hperm Hlen.
  assert (ws.*1 ≡ₚ seq 0 (length xs)) as Hidx.
  { rewrite Hperm. clear. rewrite fmap_imap.
    apply reflexive_eq. apply list_eq. intros i.
    rewrite list_lookup_imap. destruct (xs !! i) eqn:Hi; simpl.
    - symmetry. apply lookup_seq. split; [done |]. by eapply lookup_lt_Some.
    - symmetry. apply lookup_seq_ge. by apply lookup_ge_None. }
  apply list_eq. intros j. rewrite list_lookup_fmap.
  destruct (xs !! j) as [x|] eqn:Hj; simpl.
  - apply writes_lookup_written.
    + rewrite Hidx. apply NoDup_seq.
    + rewrite Hperm. apply list_elem_of_lookup. exists j.
      by rewrite list_lookup_imap, Hj.
    + rewrite Hlen. by eapply lookup_lt_Some.
  - apply lookup_ge_None. rewrite writes_length, Hlen. by apply lookup_ge_None.
Qed.

(** ** Results of the tasks and their delivery *)

Lemma Forall2_Permutation_l {A B} (P : A → B → Prop) (l l' : list A) (k : list B) :
  l ≡ₚ l' → Forall2 P l k → ∃ k', Forall2 P l' k' ∧ k ≡ₚ k'.
Proof.
  intros Hperm. revert k.
  induction Hperm as [|x l l' _ IH|x y l|l l' l'' _ IH1 _ IH2]; intros k Hk.
  - exists k. by split.
  - inversion Hk as [|? b ? k0 Hxb Hrest]; subst.
    destruct (IH k0 Hrest) as (k' & Hk' & Hp).
    exists (b :: k'). split; by constructor.
  - inversion Hk as [|? b ? k0 Hyb Hrest]; subst.
    inversion Hrest as [|? a ? k1 Hxa Hrest']; subst.
    exists (a :: b :: k1). split; [by repeat constructor | apply perm_swap].
  - destruct (IH1 k Hk) as (k' & Hk' & Hp1).
    destruct (IH2 k' Hk') as (k'' & Hk'' & Hp2).
    exists k''. split; [done | by etrans].
Qed.

Lemma mapM_Permutation {A B} (f : A → option B) (l l' : list A) (k : list B) :
  l ≡ₚ l' → mapM f l = Some k → ∃ k', mapM f l' = Some k' ∧ k ≡ₚ k'.
Proof.
  intros Hperm Hk. apply mapM_Some in Hk.
  destruct (Forall2_Permutation_l _ _ _ _ Hperm Hk) as (k' & Hk' & Hp).
  exists k'. split; [by apply mapM_Some | done].
Qed.

Lemma mapM_lookup_seq {A B} (g : nat → A → B) (l : list A) :
  mapM (λ i, g i <$> l !! i) (seq 0 (length l)) = Some (imap g l).
Proof.
  apply mapM_Some_2. apply Forall2_same_length_lookup_2.
  - by rewrite length_seq, length_imap.
  - intros i j y Hi Hy. apply lookup_seq in Hi as [-> _].
    by rewrite list_lookup_imap in Hy.
Qed.

Lemma mapM_lookup_all {A} (l : list A) :
  mapM (λ i, l !! i) (seq 0 (length l)) = Some l.
Proof.
  apply mapM_Some_2. apply Forall2_same_length_lookup_2.
  - by rewrite length_seq.
  - intros i j y Hi Hy. by apply lookup_seq in Hi as [-> _].
Qed.

Section FitProperties.

Context {ParamMap Model : Type}.
Variable est_fit : DataFrame → ParamMap → Model.
Variable transform : Model → DataFrame → ParamMap → DataFrame.
Variable evaluate : DataFrame → Q.

Lemma singleTask_cons train validation (epm : list ParamMap) c (i : nat) (it : list nat) :
  singleTask est_fit transform evaluate train validation epm c (i :: it)
  = (λ pm, (trial_result est_fit transform evaluate train validation c i pm, it)) <$> epm !! i.
Proof.
  unfold singleTask. simpl.
  destruct (epm !! i) as [pm|] eqn:Hi; simpl; [|done]. by rewrite Hi.
Qed.

Lemma run_tasks_replicate train validation (epm : list ParamMap) c (it : list nat) :
  run_tasks (replicate (length it) (singleTask est_fit transform evaluate train validation epm c)) it
  = mapM (λ i, trial_result est_fit transform evaluate train validation c i <$> epm !! i) it.
Proof.
  induction it as [|i it IH]; [done |].
  cbn [length replicate run_tasks]. rewrite singleTask_cons.
  cbn [mapM].
  destruct (epm !! i) as [pm|] eqn:Hi; simpl; [|done].
  rewrite IH. by destruct (mapM _ it).
Qed.

(** Whatever the yield order and the completion order, the delivered
    results are the trial results of all configurations, each once. *)
Lemma imap_unordered_delivers train validation (epm : list ParamMap) c
    (yield_order completion : list nat) :
  yield_order ≡ₚ seq 0 (length epm) → completion ≡ₚ seq 0 (length epm) →
  ∃ delivered,
    imap_unordered completion
      (_parallelFitTasks est_fit transform evaluate train validation epm c)
      (fitMultiple yield_order) = Some delivered
    ∧ delivered ≡ₚ imap (trial_result est_fit transform evaluate train validation c) epm.
Proof.
  intros Hy Hc. unfold imap_unordered, _parallelFitTasks, fitMultiple.
  assert (length epm = length yield_order) as -> by (by rewrite Hy, length_seq).
  rewrite run_tasks_replicate.
  destruct (mapM_Permutation _ _ _ _ (symmetry Hy)
              (mapM_lookup_seq (trial_result est_fit transform evaluate train validation c) epm))
    as (results & -> & Hres).
  simpl.
  assert (length results = length epm) as Hlen by (by rewrite <- Hres, length_imap).
  rewrite <- Hlen in Hc.
  destruct (mapM_Permutation _ _ _ _ (symmetry Hc) (mapM_lookup_all results))
    as (delivered & -> & Hdel).
  exists delivered. split; [done |]. by rewrite <- Hdel, <- Hres.
Qed.

Lemma setitem_Some {A} (l : list A) (j : nat) (v : A) :
  (j < length l)%nat → setitem l j v = Some (<[j := v]> l).
Proof. intros Hj. unfold setitem. by rewrite decide_True. Qed.

Lemma collect_writes c (delivered : list (@TaskResult Model))
    (metrics : list (option Q)) (subs : list (option Model)) :
  Forall (λ r, (r.1.1 < length metrics)%nat) delivered → length subs = length metrics →
  collect c delivered metrics (if c then Some subs else None)
  = Some (writes ((λ r, (r.1.1, Some r.1.2)) <$> delivered) metrics,
          if c then Some (writes ((λ r, (r.1.1, r.2)) <$> delivered) subs) else None).
Proof.
  revert metrics subs.
  induction delivered as [|[[j m] s] d IH]; intros metrics subs Hall Hlen.
  - by destruct c.
  - apply Forall_cons in Hall as [Hj Hall]. simpl in Hj.
    cbn [collect]. rewrite setitem_Some by done. cbn [mbind option_bind].
    destruct c.
    + rewrite setitem_Some by lia. cbn [mbind option_bind].
      apply (IH (<[j := Some m]> metrics) (<[j := s]> subs)).
      * by rewrite length_insert.
      * by rewrite !length_insert.
    + apply (IH (<[j := Some m]> metrics) subs).
      * by rewrite length_insert.
      * by rewrite length_insert.
Qed.

Lemma collect_delivered train validation (epm : list ParamMap) c
    (delivered : list TaskResult) :
  delivered ≡ₚ imap (trial_result est_fit transform evaluate train validation c) epm →
  collect c delivered (replicate (length epm) None)
          (if c then Some (replicate (length epm) None) else None)
  = Some ((λ pm, Some (trial_metric est_fit transform evaluate train validation pm)) <$> epm,
          if c then Some ((λ pm, Some (est_fit train pm)) <$> epm) else None).
Proof.
  intros Hdel.
  rewrite collect_writes.
  - f_equal. f_equal.
    + apply writes_permutation; [| by rewrite length_replicate].
      rewrite Hdel, fmap_imap. done.
    + destruct c; [|done]. f_equal.
      apply writes_permutation; [| by rewrite length_replicate].
      rewrite Hdel, fmap_imap. done.
  - rewrite Hdel. apply Forall_forall. intros r Hr.
    apply list_elem_of_lookup in Hr as [i Hi].
    rewrite list_lookup_imap in Hi.
    destruct (epm !! i) as [pm|] eqn:Hpm; simplify_eq/=.
    rewrite length_replicate. by eapply lookup_lt_Some.
  - by rewrite !length_replicate.
Qed.

Variable isLargerBetter : bool.
Variable rs_min_rating_filter : DataFrame → Z → bool → option DataFrame.
Variable rs_stratified_split : DataFrame → Z → bool → Q → bool → Z → option SplitResult.

(** With schedules that run every task once, [_fit] does not depend on
    the schedules. *)
Lemma _fit_schedule_free (yield_order completion : list nat)
    dataset userColumn itemColumn (epm : list ParamMap) tRatio c parallelism :
  yield_order ≡ₚ seq 0 (length epm) → completion ≡ₚ seq 0 (length epm) →
  _fit est_fit transform evaluate isLargerBetter rs_min_rating_filter rs_stratified_split
       yield_order completion dataset userColumn itemColumn epm tRatio c parallelism
  = '(train, validation) ←
      split rs_min_rating_filter rs_stratified_split dataset tRatio userColumn itemColumn;
    _ ← (if (Z.min parallelism (Z.of_nat (length epm)) <? 1)%Z then None else Some ());
    let values := trial_metric est_fit transform evaluate train validation <$> epm in
    bestIndex ← (if isLargerBetter then argmax values else argmin values);
    pm ← epm !! bestIndex;
    Some (mkModel (est_fit dataset pm)
            ((λ pm, Some (trial_metric est_fit transform evaluate train validation pm)) <$> epm)
            (if c then Some ((λ pm, Some (est_fit train pm)) <$> epm) else None)).
Proof.
  intros Hy Hc. unfold _fit.
  destruct (split _ _ _ _ _ _) as [[train validation]|]; [|done].
  cbn [mbind option_bind].
  destruct (Z.min parallelism (Z.of_nat (length epm)) <? 1)%Z; [done |].
  cbn [mbind option_bind].
  destruct (imap_unordered_delivers train validation epm c _ _ Hy Hc)
    as (delivered & -> & Hdel).
  cbn [mbind option_bind].
  rewrite (collect_delivered train validation epm c delivered Hdel).
  cbn [mbind option_bind].
  change (λ pm, Some (trial_metric est_fit transform evaluate train validation pm))
    with (Some ∘ trial_metric est_fit transform evaluate train validation).
  rewrite (list_fmap_compose (trial_metric est_fit transform evaluate train validation) Some epm).
  rewrite mapM_fmap_Some by done.
  done.
Qed.

(** C8.  For every sequence of configurations, whatever order the model
    iterator hands the indices out in and whatever order the trials
    complete in, every index 0..N-1 is delivered exactly once, each metric
    (and sub-model) is written to the slot of its configuration's original
    index, and [_fit] returns the same as the run in which the trials are
    started and completed in order. *)
Theorem parallel_trials_order_invariant (yield_order completion : list nat)
    dataset userColumn itemColumn (epm : list ParamMap) tRatio c parallelism
    (train validation : DataFrame) :
  yield_order ≡ₚ seq 0 (length epm) → completion ≡ₚ seq 0 (length epm) →
  ∃ delivered : list TaskResult,
    imap_unordered completion
      (_parallelFitTasks est_fit transform evaluate train validation epm c)
      (fitMultiple yield_order) = Some delivered
    ∧ (λ r : TaskResult, r.1.1) <$> delivered ≡ₚ seq 0 (length epm)
    ∧ collect c delivered (replicate (length epm) None)
              (if c then Some (replicate (length epm) None) else None)
      = Some ((λ pm, Some (trial_metric est_fit transform evaluate train validation pm)) <$> epm,
              if c then Some ((λ pm, Some (est_fit train pm)) <$> epm) else None)
    ∧ _fit est_fit transform evaluate isLargerBetter rs_min_rating_filter rs_stratified_split
           yield_order completion dataset userColumn itemColumn epm tRatio c parallelism
      = _fit est_fit transform evaluate isLargerBetter rs_min_rating_filter rs_stratified_split
             (seq 0 (length epm)) (seq 0 (length epm))
             dataset userColumn itemColumn epm tRatio c parallelism.
Proof.
  intros Hy Hc.
  destruct (imap_unordered_delivers train validation epm c _ _ Hy Hc)
    as (delivered & Hrun & Hdel).
  exists delivered. split_and!.
  - done.
  - rewrite Hdel, fmap_imap. apply reflexive_eq, list_eq. intros i.
    rewrite list_lookup_imap. destruct (epm !! i) eqn:Hi; simpl.
    + symmetry. apply lookup_seq. split; [done |]. by eapply lookup_lt_Some.
    + symmetry. apply lookup_seq_ge. by apply lookup_ge_None.
  - by apply collect_delivered.
  - by rewrite !_fit_schedule_free.
Qed.

(** C7.  When the split succeeds, there is at least one configuration and
    the pool has at least one worker, [_fit] returns the model refit on
    the whole dataset with the configuration at the first index of a
    greatest metric when [isLargerBetter] holds and of a least metric
    otherwise; with metrics 0.5, 0.9, 0.9 the argmax is index 1. *)
Theorem fit_selects_first_extreme (yield_order completion : list nat)
    dataset userColumn itemColumn (epm : list ParamMap) tRatio c parallelism
    (train validation : DataFrame) :
  yield_order ≡ₚ seq 0 (length epm) → completion ≡ₚ seq 0 (length epm) →
  split rs_min_rating_filter rs_stratified_split dataset tRatio userColumn itemColumn
    = Some (train, validation) →
  epm ≠ [] → (1 ≤ parallelism)%Z →
  let values := trial_metric est_fit transform evaluate train validation <$> epm in
  (∃ bestIndex pm,
     (if isLargerBetter then argmax values else argmin values) = Some bestIndex
     ∧ (if isLargerBetter then first_argmax values bestIndex
        else first_argmin values bestIndex)
     ∧ epm !! bestIndex = Some pm
     ∧ _fit est_fit transform evaluate isLargerBetter rs_min_rating_filter rs_stratified_split
            yield_order completion dataset userColumn itemColumn epm tRatio c parallelism
       = Some (mkModel (est_fit dataset pm) (Some <$> values)
                 (if c then Some ((λ pm, Some (est_fit train pm)) <$> epm) else None)))
  ∧ argmax [1 # 2; 9 # 10; 9 # 10]%Q = Some 1%nat.
Proof.
  intros Hy Hc Hsplit Hne Hpar values. split; [|done].
  assert (values ≠ []) as Hvne.
  { unfold values. destruct epm; [done | by simpl]. }
  assert (∃ i, (if isLargerBetter then argmax values else argmin values) = Some i
               ∧ (if isLargerBetter then first_argmax values i else first_argmin values i))
    as (i & Harg & Hfirst).
  { destruct isLargerBetter; [by apply argmax_first | by apply argmin_first]. }
  assert (i < length epm)%nat as Hi.
  { replace (length epm) with (length values) by apply length_fmap.
    destruct isLargerBetter; by eapply first_extreme_lt_length. }
  destruct (lookup_lt_is_Some_2 epm i Hi) as [pm Hpm].
  exists i, pm. split_and!; try done.
  rewrite _fit_schedule_free by done. rewrite Hsplit. cbn [mbind option_bind].
  assert ((Z.min parallelism (Z.of_nat (length epm)) <? 1)%Z = false) as ->.
  { apply Z.ltb_ge. destruct epm; [done | simpl length; lia]. }
  cbn [mbind option_bind]. fold values. rewrite Harg. cbn [mbind option_bind].
  rewrite Hpm. cbn [mbind option_bind].
  unfold values. by rewrite <- list_fmap_compose.
Qed.

End FitProperties.

Lemma parallel_trials_order_invariant_witness :
  ∃ delivered : list (@TaskResult Z),
    imap_unordered [1; 2; 0]%nat
      (_parallelFitTasks toy_fit toy_transform toy_evaluate df0 df0 [5; 9; 9]%Z true)
      (fitMultiple [2; 0; 1]%nat) = Some delivered
    ∧ (λ r : TaskResult, r.1.1) <$> delivered ≡ₚ [0; 1; 2]%nat
    ∧ collect true delivered [None; None; None] (Some [None; None; None])
      = Some ((λ pm, Some (trial_metric toy_fit toy_transform toy_evaluate df0 df0 pm))
                <$> [5; 9; 9]%Z,
              Some ((λ pm, Some (toy_fit df0 pm)) <$> [5; 9; 9]%Z))
    ∧ _fit toy_fit toy_transform toy_evaluate true min_rating_filter (stratified_split id)
           [2; 0; 1]%nat [1; 2; 0]%nat df0 "customerID" "itemID" [5; 9; 9]%Z (4 # 5) true 2
      = _fit toy_fit toy_transform toy_evaluate true min_rating_filter (stratified_split id)
             [0; 1; 2]%nat [0; 1; 2]%nat df0 "customerID" "itemID" [5; 9; 9]%Z (4 # 5) true 2.
Proof.
  apply (parallel_trials_order_invariant toy_fit toy_transform toy_evaluate true
           min_rating_filter (stratified_split id)
           [2; 0; 1]%nat [1; 2; 0]%nat df0 "customerID" "itemID" [5; 9; 9]%Z (4 # 5) true 2
           df0 df0).
  - simpl. apply (Permutation_cons_append [0; 1]%nat 2%nat).
  - simpl. symmetry. apply (Permutation_cons_append [1; 2]%nat 0%nat).
Defined.

Lemma fit_selects_first_extreme_witness :
  ∃ train validation,
    split min_rating_filter (stratified_split id) df0 (4 # 5) "customerID" "itemID"
      = Some (train, validation)
    ∧ let values := trial_metric toy_fit toy_transform toy_evaluate train validation
                      <$> [5; 9; 9]%Z in
      (∃ bestIndex pm,
         argmax values = Some bestIndex
         ∧ first_argmax values bestIndex
         ∧ [5; 9; 9]%Z !! bestIndex = Some pm
         ∧ _fit toy_fit toy_transform toy_evaluate true min_rating_filter (stratified_split id)
                [2; 0; 1]%nat [1; 2; 0]%nat df0 "customerID" "itemID" [5; 9; 9]%Z (4 # 5)
                true 2
           = Some (mkModel (toy_fit df0 pm) (Some <$> values)
                     (Some ((λ pm, Some (toy_fit train pm)) <$> [5; 9; 9]%Z))))
      ∧ argmax [1 # 2; 9 # 10; 9 # 10]%Q = Some 1%nat.
Proof.
  eexists _, _. split.
  { vm_compute. reflexivity. }
  apply (fit_selects_first_extreme toy_fit toy_transform toy_evaluate true
           min_rating_filter (stratified_split id)
           [2; 0; 1]%nat [1; 2; 0]%nat df0 "customerID" "itemID" [5; 9; 9]%Z (4 # 5) true 2).
  - simpl. apply (Permutation_cons_append [0; 1]%nat 2%nat).
  - simpl. symmetry. apply (Permutation_cons_append [1; 2]%nat 0%nat).
  - vm_compute. reflexivity.
  - done.
  - lia.
Defined.

(** ** Claims about [min_rating_filter] *)

(** C2, as stated, fails: customer 1 rated the single item 1 twice, so the
    customer has two ratings but one distinct counterpart; with a minimum
    of 2 the filter keeps the customer's rows, while the distinct-support
    rule would keep none. *)
Lemma min_rating_filter_not_distinct_support :
  min_rating_filter df0 2 true
  = Some (mkDF ["customerID"; "itemID"; "rating"] [row3 1 1 4; row3 1 1 5])
  ∧ filter (supported true 2 (rows df0)) (rows df0) = []
  ∧ ¬ [row3 1 1 4; row3 1 1 5] ≡ₚ filter (supported true 2 (rows df0)) (rows df0).
Proof.
  assert (filter (supported true 2 (rows df0)) (rows df0) = []) as ->.
  { vm_compute. reflexivity. }
  split_and!.
  - vm_compute. reflexivity.
  - reflexivity.
  - intros Hp. apply Permutation_nil_r in Hp. discriminate Hp.
Qed.

(** C2, amended.  On an input with the two id columns, [min_rating_filter]
    returns the rows whose grouping entity is not NULL and has at least
    [min_rating] ratings, that is rows with a counterpart id, repeats
    counted; the rows themselves are unchanged, and the columns are those
    of the input with the grouping column moved to the front. *)
Theorem min_rating_filter_keeps_rated (b : bool) (m : Z) (df : DataFrame) :
  filter_input b df →
  ∃ out, min_rating_filter df m b = Some out
         ∧ columns out = split_by_column b :: DF.others (split_by_column b) (columns df)
         ∧ rows out ≡ₚ filter (retained b m (rows df)) (rows df).
Proof. apply min_rating_filter_retained. Qed.

Lemma df0_filter_input : filter_input true df0.
Proof.
  unfold filter_input, wf. split_and!.
  - by apply (bool_decide_unpack _).
  - repeat constructor; by vm_compute.
  - by apply (bool_decide_unpack _).
  - by apply (bool_decide_unpack _).
  - by apply (bool_decide_unpack _).
Defined.

Lemma min_rating_filter_keeps_rated_witness :
  ∃ out, min_rating_filter df0 2 true = Some out
         ∧ columns out = "customerID" :: DF.others "customerID" (columns df0)
         ∧ rows out ≡ₚ filter (retained true 2 (rows df0)) (rows df0).
Proof. exact (min_rating_filter_keeps_rated true 2 df0 df0_filter_input). Defined.

(** C9.  Filtering the output of [min_rating_filter] again with the same
    minimum and grouping returns the same columns and the same bag of
    rows. *)
Theorem min_rating_filter_idempotent (b : bool) (m : Z) (df : DataFrame) :
  filter_input b df →
  ∃ out out', min_rating_filter df m b = Some out
              ∧ min_rating_filter out m b = Some out'
              ∧ columns out' = columns out
              ∧ rows out' ≡ₚ rows out.
Proof.
  intros Hin.
  destruct (min_rating_filter_retained b m df Hin) as (out & Hout & Hcols & Hrows).
  pose proof (min_rating_filter_input b m df out Hin Hout) as Hin'.
  destruct (min_rating_filter_retained b m out Hin') as (out' & Hout' & Hcols' & Hrows').
  exists out, out'. split_and!; try done.
  - by rewrite Hcols', Hcols, others_cons_eq, others_idemp.
  - by rewrite Hrows', (filter_retained_idemp b m (rows df)).
Qed.

Lemma min_rating_filter_idempotent_witness :
  ∃ out out', min_rating_filter df0 2 true = Some out
              ∧ min_rating_filter out 2 true = Some out'
              ∧ columns out' = columns out
              ∧ rows out' ≡ₚ rows out.
Proof. exact (min_rating_filter_idempotent true 2 df0 df0_filter_input). Defined.

(** ** Claims about the columns of the outputs *)

(** C10.  On an input with the id columns, a rating column and the
    timestamps, the outputs of [chronological_split] have exactly the
    grouping id, the counterpart id and [timeStamp], in both modes, so the
    rating column is absent from both; the outputs of [stratified_split]
    have every input column, then [rank] in fixed-count mode and [count],
    [splitPoint], [rank] in ratio mode. *)
Theorem chronological_split_keeps_three_columns (rand_order : list Row → list Row)
    (df : DataFrame) (m : Z) (b : bool) (ratio : Q) (fixed : bool) (sample : Z) :
  (∀ l, rand_order l ≡ₚ l) →
  split_input b fixed df → "timeStamp" ∈ columns df → "rating" ∈ columns df →
  fixed_sample_guard fixed sample m = false →
  let cs := [split_by_column b; split_with_column b; "timeStamp"] in
  (∃ train test,
     chronological_split df m b ratio fixed sample = Some (Split train test)
     ∧ columns train = cs ∧ columns test = cs
     ∧ ("rating" ∉ columns train) ∧ ("rating" ∉ columns test)
     ∧ Forall (λ r : Row, dom r = list_to_set cs) (rows train ++ rows test))
  ∧ (∃ train test,
       stratified_split rand_order df m b ratio fixed sample = Some (Split train test)
       ∧ columns train = split_columns (split_by_column b) fixed (columns df)
       ∧ columns test = split_columns (split_by_column b) fixed (columns df)
       ∧ (∀ c, c ∈ columns df → c ∈ columns train ∧ c ∈ columns test)
       ∧ ("rating" ∈ columns train) ∧ ("rating" ∈ columns test)).
Proof.
  intros Hperm Hin Hts Hrating Hguard cs. split.
  - destruct (chronological_split_rows df m b ratio fixed sample Hin Hts Hguard)
      as (F & _ & ->).
    eexists _, _. split; [reflexivity |]. cbn [columns rows].
    assert ("rating" ∉ cs) as Hr by (unfold cs; destruct b; by apply (bool_decide_unpack _)).
    split_and!; try done.
    rewrite <- fmap_app. apply Forall_fmap, Forall_forall. intros r _. apply dom_project.
  - destruct (stratified_split_rows rand_order df m b ratio fixed sample Hperm Hin Hguard)
      as (F & _ & ->).
    eexists _, _. split; [reflexivity |]. cbn [columns].
    split_and!; try done; try by apply elem_of_split_columns.
    intros c Hc. split; by apply elem_of_split_columns.
Qed.

Lemma chronological_split_keeps_three_columns_witness :
  let cs := ["customerID"; "itemID"; "timeStamp"] in
  (∃ train test,
     chronological_split df1 2 true (1 # 2) false 3 = Some (Split train test)
     ∧ columns train = cs ∧ columns test = cs
     ∧ ("rating" ∉ columns train) ∧ ("rating" ∉ columns test)
     ∧ Forall (λ r : Row, dom r = list_to_set cs) (rows train ++ rows test))
  ∧ (∃ train test,
       stratified_split id df1 2 true (1 # 2) false 3 = Some (Split train test)
       ∧ columns train = split_columns "customerID" false (columns df1)
       ∧ columns test = split_columns "customerID" false (columns df1)
       ∧ (∀ c, c ∈ columns df1 → c ∈ columns train ∧ c ∈ columns test)
       ∧ ("rating" ∈ columns train) ∧ ("rating" ∈ columns test)).
Proof.
  apply (chronological_split_keeps_three_columns id df1 2 true (1 # 2) false 3).
  - done.
  - apply df1_split_input.
  - by apply (bool_decide_unpack _).
  - by apply (bool_decide_unpack _).
  - reflexivity.
Defined.

(** ** Claims about the partition *)

(** C3, as stated, fails for the chronological splitter: customer 1 has
    two ratings of item 1 at the same time, with different ratings; one of
    the two records goes to test and the other to train, and on the three
    columns that the outputs keep they are the same record, so train and
    test share it. *)
Lemma chronological_split_overlap :
  chronological_split dfdup 2 true (3 # 10) true 1
  = Some (Split (mkDF ["customerID"; "itemID"; "timeStamp"] [key3 1 1 10])
                (mkDF ["customerID"; "itemID"; "timeStamp"] [key3 1 1 10]))
  ∧ ∃ r, r ∈ [key3 1 1 10] ∧ r ∈ [key3 1 1 10].
Proof.
  split.
  - vm_compute. reflexivity.
  - exists (key3 1 1 10). split; apply list_elem_of_here.
Qed.

(** C3, amended.  For every input, with [F] the filtered input: the random,
    stratified and chronological splitters place every record of [F] on
    exactly one side, that is, read on the columns of [F] (for the
    chronological splitter, on the three columns it keeps) train and test
    together are [F] as a bag; hence train and test share no record when
    the records of [F] (for the chronological splitter, their three kept
    columns) are pairwise distinct.  The non-overlapping splitter puts no
    grouping entity on both sides. *)
Theorem split_partition (rand_order : list Row → list Row) (rand_draw : nat → Q)
    (df : DataFrame) (m : Z) (b : bool) (ratio : Q) (fixed : bool) (sample : Z) :
  (∀ l, rand_order l ≡ₚ l) → (∀ j, (0 <= rand_draw j)%Q ∧ (rand_draw j < 1)%Q) →
  (0 <= ratio)%Q → (ratio <= 1)%Q →
  split_input b fixed df → "timeStamp" ∈ columns df →
  fixed_sample_guard fixed sample m = false →
  let by_ := split_by_column b in
  let cs := [split_by_column b; split_with_column b; "timeStamp"] in
  ∃ F, min_rating_filter df m b = Some F
    ∧ (∃ train test,
         random_split rand_draw df m b ratio = Some (Split train test)
         ∧ rows train ++ rows test ≡ₚ rows F
         ∧ (NoDup (rows F) → ∀ r, r ∈ rows train → r ∉ rows test))
    ∧ (∃ train test,
         stratified_split rand_order df m b ratio fixed sample = Some (Split train test)
         ∧ DF.project (columns F) <$> (rows train ++ rows test) ≡ₚ rows F
         ∧ (NoDup (rows F) → ∀ r, r ∈ rows train → r ∉ rows test))
    ∧ (∃ train test,
         chronological_split df m b ratio fixed sample = Some (Split train test)
         ∧ rows train ++ rows test ≡ₚ DF.project cs <$> rows F
         ∧ (NoDup (DF.project cs <$> rows F) → ∀ r, r ∈ rows train → r ∉ rows test))
    ∧ (∃ train test,
         non_overlapping_split rand_order df m b ratio = Some (Split train test)
         ∧ ∀ t s, t ∈ rows train → s ∈ rows test → DF.cell by_ t ≠ DF.cell by_ s).
Proof.
  intros Hperm Hdraw H0 H1 Hin Hts Hguard by_ cs.
  destruct (random_split_rows rand_draw df m b ratio Hdraw H0 H1 (proj1 Hin))
    as (F & rtrain & rtest & HF & Hrandom & _ & _ & Hrp).
  destruct (stratified_split_rows rand_order df m b ratio fixed sample Hperm Hin Hguard)
    as (F' & HF' & Hstrat).
  destruct (chronological_split_rows df m b ratio fixed sample Hin Hts Hguard)
    as (F'' & HF'' & Hchron).
  destruct (non_overlapping_split_rows rand_order df m b ratio Hperm (proj1 Hin))
    as (F''' & HF''' & Hnon).
  rewrite HF in HF', HF'', HF'''. injection HF' as <-. injection HF'' as <-.
  injection HF''' as <-.
  destruct (filtered_facts b m df (proj1 Hin)) as (F0 & HF0 & HinF & Hcols & _ & _).
  rewrite HF in HF0. injection HF0 as <-.
  destruct Hin as (Hfin & Hrank & Hfresh).
  assert (by_ ≠ "rank" ∧ by_ ≠ "count" ∧ by_ ≠ "splitPoint") as (Hb1 & Hb2 & Hb3)
    by (unfold by_; by destruct b).
  assert (∀ x, x ≠ by_ → x ∉ columns df → x ∉ columns F) as Hfr.
  { intros x Hx Hx'. rewrite Hcols, not_elem_of_cons, elem_of_others. naive_solver. }
  exists F. split; [done |]. split_and!.
  - exists rtrain, rtest. split_and!; [done | done |].
    intros Hnd. by eapply Permutation_NoDup_disjoint.
  - eexists _, _. split; [exact Hstrat |]. cbn [rows].
    assert (DF.project (columns F)
              <$> (train_rows (DF.mkWindow (Some by_) [] rand_order) by_ (split_with_column b)
                     ratio fixed sample (rows F)
                   ++ test_rows (DF.mkWindow (Some by_) [] rand_order) by_ (split_with_column b)
                        ratio fixed sample (rows F))
            ≡ₚ rows F) as Hp.
    { rewrite split_rows_Permutation; try done.
      - by rewrite project_wf by apply HinF.
      - apply Hfr; [by apply not_eq_sym | done].
      - intros Hf. destruct (Hfresh Hf). split; apply Hfr; by try apply not_eq_sym. }
    split; [done |]. intros Hnd. by eapply fmap_Permutation_NoDup_disjoint.
  - eexists _, _. split; [exact Hchron |]. cbn [rows].
    assert (∀ x, x ∉ ["customerID"; "itemID"; "timeStamp"] → x ∉ cs) as Hcs.
    { intros x. unfold cs. by destruct b; rewrite !not_elem_of_cons; naive_solver. }
    rewrite <- fmap_app.
    assert (DF.project cs
              <$> (train_rows (DF.mkWindow (Some by_) ["timeStamp"] (DF.sort_desc "timeStamp"))
                     by_ "timeStamp" ratio fixed sample (rows F)
                   ++ test_rows (DF.mkWindow (Some by_) ["timeStamp"] (DF.sort_desc "timeStamp"))
                        by_ "timeStamp" ratio fixed sample (rows F))
            ≡ₚ DF.project cs <$> rows F) as Hp.
    { apply split_rows_Permutation; try done.
      - intros l. apply merge_sort_Permutation.
      - apply Hcs. by apply (bool_decide_unpack _).
      - intros _. split; apply Hcs; by apply (bool_decide_unpack _). }
    split; [done |]. intros Hnd r Hr Hr'.
    rewrite <- Hp, fmap_app in Hnd. apply NoDup_app in Hnd as (_ & Hd & _). by apply (Hd r).
  - eexists _, _. split; [exact Hnon |]. cbn [rows].
    intros t s Ht Hs Heq.
    apply list_elem_of_filter in Ht as [Ht _]. apply list_elem_of_filter in Hs as [Hs _].
    unfold key_row in Ht, Hs. fold by_ in Ht, Hs. rewrite Heq in Ht.
    eapply take_drop_disjoint; [| exact Ht | exact Hs].
    by apply shuffled_entities_NoDup.
Qed.

Lemma split_partition_witness :
  let cs := ["customerID"; "itemID"; "timeStamp"] in
  ∃ F, min_rating_filter df1 2 true = Some F
    ∧ (∃ train test,
         random_split (λ i, if Nat.even i then 1 # 4 else 3 # 4) df1 2 true (1 # 2)
           = Some (Split train test)
         ∧ rows train ++ rows test ≡ₚ rows F
         ∧ (NoDup (rows F) → ∀ r, r ∈ rows train → r ∉ rows test))
    ∧ (∃ train test,
         stratified_split id df1 2 true (1 # 2) false 3 = Some (Split train test)
         ∧ DF.project (columns F) <$> (rows train ++ rows test) ≡ₚ rows F
         ∧ (NoDup (rows F) → ∀ r, r ∈ rows train → r ∉ rows test))
    ∧ (∃ train test,
         chronological_split df1 2 true (1 # 2) false 3 = Some (Split train test)
         ∧ rows train ++ rows test ≡ₚ DF.project cs <$> rows F
         ∧ (NoDup (DF.project cs <$> rows F) → ∀ r, r ∈ rows train → r ∉ rows test))
    ∧ (∃ train test,
         non_overlapping_split id df1 2 true (1 # 2) = Some (Split train test)
         ∧ ∀ t s, t ∈ rows train → s ∈ rows test
                  → DF.cell "customerID" t ≠ DF.cell "customerID" s).
Proof.
  apply (split_partition id (λ i, if Nat.even i then 1 # 4 else 3 # 4)
           df1 2 true (1 # 2) false 3).
  - done.
  - intros j. destruct (Nat.even j); split; done.
  - done.
  - done.
  - apply df1_split_input.
  - by apply (bool_decide_unpack _).
  - reflexivity.
Defined.

(** ** Claims about the size of the held-out part *)

Lemma group_size_le_length (by_ : string) (rs : list Row) (k : Cell) :
  (group_size by_ rs k ≤ Z.of_nat (length rs))%Z.
Proof.
  unfold group_size, DF.group.
  pose proof (length_filter (λ r, DF.cell by_ r = k) rs). lia.
Qed.

Lemma filtered_length (b : bool) (m : Z) (rs out : list Row) :
  out ≡ₚ filter (retained b m rs) rs → (length out ≤ length rs)%nat.
Proof. intros ->. apply length_filter. Qed.

(** C5, as stated, fails.  The split point is computed from the number of
    counted cells that are not NULL, not from the group size: a customer
    with four records, two of them without a time stamp, gets one record
    in the chronological test frame, not [round(4 * 1/2) = 2].  And the
    product is a binary64 product: for a customer with 45 records at the
    ratio 0.7 it is the double just below 31.5, so 31 records go to test,
    not [round(45 * 0.7) = 32]. *)
Lemma split_group_sizes_not_round_of_group_size :
  group_size "customerID" (rows df_null_ts) (Int 1) = 4%Z
  ∧ DF.round_half_even (inject_Z 4 * (1 # 2)) = 2%Z
  ∧ split_sizes (chronological_split df_null_ts 1 true (1 # 2) false 3) = Some (3, 1)%nat
  ∧ group_size "customerID" (rows df45) (Int 1) = 45%Z
  ∧ DF.round_half_even (inject_Z 45 * (7 # 10)) = 32%Z
  ∧ split_sizes (stratified_split id df45 1 true (7 # 10) false 3) = Some (14, 31)%nat
  ∧ split_sizes (chronological_split df45 1 true (7 # 10) false 3) = Some (14, 31)%nat.
Proof. split_and!; vm_compute; reflexivity. Qed.

(** C5, amended.  Let [F] be the filtered input and [k] one of its grouping
    entities, with [size] rows in [F].  In fixed-count mode with
    [0 <= sample < min_rating], the stratified and the chronological
    splitter each put exactly [sample] rows of [k] into test and
    [size - sample] into train.  In ratio mode with a ratio between 0 and
    1, on fewer than [2 ^ 53] rows and when the guard lets the call
    through, each puts [held] rows of [k] into test and [size - held] into
    train, where [held] is the split point of the number of counted cells
    of [k] that are not NULL (the counterpart id for the stratified
    splitter, [timeStamp] for the chronological one): the binary64 product
    of that number and the ratio, rounded to the nearest integer, half to
    even.  That number is [size] when the column has no NULL.  So the
    split point of 45 at 0.7 is 31, of 5 at 0.7 is 4 and of 10 at 0.3
    is 3. *)
Theorem split_group_sizes (rand_order : list Row → list Row)
    (df : DataFrame) (m : Z) (b : bool) (ratio : Q) (fixed : bool) (sample : Z) :
  (∀ l, rand_order l ≡ₚ l) → split_input b fixed df → "timeStamp" ∈ columns df →
  (if fixed then (0 ≤ sample < m)%Z
   else fixed_sample_guard false sample m = false
        ∧ (0 <= ratio)%Q ∧ (ratio <= 1)%Q
        ∧ (Z.of_nat (length (rows df)) < 2 ^ 53)%Z) →
  let by_ := split_by_column b in
  (∃ F strain stest ctrain ctest,
    min_rating_filter df m b = Some F
    ∧ stratified_split rand_order df m b ratio fixed sample = Some (Split strain stest)
    ∧ chronological_split df m b ratio fixed sample = Some (Split ctrain ctest)
    ∧ ∀ k, k ∈ DF.group_keys by_ (rows F) →
        let size := group_size by_ (rows F) k in
        let counted c := DF.count_col c (DF.group by_ k (rows F)) in
        let held c := if fixed then sample
                      else DF.round_half_even (DF.double_mul (counted c) ratio) in
        (0 ≤ held (split_with_column b) ≤ size)%Z
        ∧ (0 ≤ held "timeStamp" ≤ size)%Z
        ∧ group_size by_ (rows stest) k = held (split_with_column b)
        ∧ group_size by_ (rows strain) k = (size - held (split_with_column b))%Z
        ∧ group_size by_ (rows ctest) k = held "timeStamp"
        ∧ group_size by_ (rows ctrain) k = (size - held "timeStamp")%Z
        ∧ (∀ c, fixed = false → split_point (counted c) ratio (held c))
        ∧ (∀ c, Forall (λ r, DF.cell c r ≠ Null) (rows df) → counted c = size))
  ∧ DF.round_half_even (DF.double_mul 45 (7 # 10)) = 31%Z
  ∧ DF.round_half_even (DF.double_mul 5 (7 # 10)) = 4%Z
  ∧ DF.round_half_even (DF.double_mul 10 (3 # 10)) = 3%Z.
Proof.
  intros Hperm Hin Hts Hmode by_. subst by_.
  split; [| split_and!; by vm_compute].
  assert (fixed_sample_guard fixed sample m = false) as Hguard.
  { destruct fixed; [| by destruct Hmode]. apply fixed_sample_guard_false. lia. }
  destruct (stratified_split_rows rand_order df m b ratio fixed sample Hperm Hin Hguard)
    as (F & HF & Hstrat).
  destruct (chronological_split_rows df m b ratio fixed sample Hin Hts Hguard)
    as (F' & HF' & Hchron).
  rewrite HF in HF'. injection HF' as <-.
  destruct (filtered_facts b m df (proj1 Hin)) as (F0 & HF0 & HinF & Hcols & Hrows & _).
  rewrite HF in HF0. injection HF0 as <-.
  eexists F, _, _, _, _. split_and!; [done | exact Hstrat | exact Hchron |].
  intros k Hk. cbn [rows].
  set (by_ := split_by_column b) in *.
  set (size := group_size by_ (rows F) k).
  assert (by_ ≠ "rank" ∧ by_ ≠ "count" ∧ by_ ≠ "splitPoint") as (Hb1 & Hb2 & Hb3)
    by (unfold by_; by destruct b).
  pose proof (retained_group_size b m (rows df) (rows F) k Hrows Hk) as Hm.
  fold by_ in Hm. fold size in Hm.
  assert (size ≤ Z.of_nat (length (rows df)))%Z as Hsize.
  { pose proof (group_size_le_length by_ (rows F) k).
    pose proof (filtered_length b m (rows df) (rows F) Hrows). unfold size. lia. }
  assert (∀ c, (0 ≤ held_out by_ c ratio fixed sample (rows F) k ≤ size)%Z) as Hheld.
  { intros c. apply (held_out_bounds by_ c ratio fixed sample (rows F) m k Hm).
    destruct fixed; [done |]. destruct Hmode as (_ & H0 & H1 & Hlen).
    split_and!; [done | done |]. fold size. lia. }
  assert (by_ ∈ [by_; split_with_column b; "timeStamp"]) as Hbycs by left.
  rewrite !group_size_project by done.
  destruct (ranked_group_sizes (DF.mkWindow (Some by_) [] rand_order) by_
              (split_with_column b) ratio fixed sample (rows F) Hperm Hb1 Hb2 Hb3 k Hk
              (Hheld _)) as [Hs1 Hs2].
  destruct (ranked_group_sizes
              (DF.mkWindow (Some by_) ["timeStamp"] (DF.sort_desc "timeStamp")) by_
              "timeStamp" ratio fixed sample (rows F)
              (λ l, merge_sort_Permutation _ l) Hb1 Hb2 Hb3 k Hk (Hheld _))
    as [Hc1 Hc2].
  fold size in Hs2, Hc2.
  change (if fixed then sample
          else DF.round_half_even
                 (DF.double_mul (DF.count_col ?c (DF.group by_ k (rows F))) ratio))
    with (held_out by_ c ratio fixed sample (rows F) k).
  split_and!; try done; try apply Hheld.
  - intros c ->. apply split_point_round.
  - intros c Hc. unfold size, group_size. apply count_col_no_null.
    rewrite Forall_forall in Hc. apply Forall_forall. intros r [_ Hr]%group_cell.
    apply Hc. rewrite Hrows in Hr. by apply list_elem_of_filter in Hr as [_ ?].
Qed.

Lemma split_group_sizes_witness :
  (∃ F strain stest ctrain ctest,
    min_rating_filter df1 2 true = Some F
    ∧ stratified_split id df1 2 true (1 # 2) false 3 = Some (Split strain stest)
    ∧ chronological_split df1 2 true (1 # 2) false 3 = Some (Split ctrain ctest)
    ∧ ∀ k, k ∈ DF.group_keys "customerID" (rows F) →
        let size := group_size "customerID" (rows F) k in
        let counted c := DF.count_col c (DF.group "customerID" k (rows F)) in
        let held c := DF.round_half_even (DF.double_mul (counted c) (1 # 2)) in
        (0 ≤ held "itemID" ≤ size)%Z
        ∧ (0 ≤ held "timeStamp" ≤ size)%Z
        ∧ group_size "customerID" (rows stest) k = held "itemID"
        ∧ group_size "customerID" (rows strain) k = (size - held "itemID")%Z
        ∧ group_size "customerID" (rows ctest) k = held "timeStamp"
        ∧ group_size "customerID" (rows ctrain) k = (size - held "timeStamp")%Z
        ∧ (∀ c, false = false → split_point (counted c) (1 # 2) (held c))
        ∧ (∀ c, Forall (λ r, DF.cell c r ≠ Null) (rows df1) → counted c = size))
  ∧ DF.round_half_even (DF.double_mul 45 (7 # 10)) = 31%Z
  ∧ DF.round_half_even (DF.double_mul 5 (7 # 10)) = 4%Z
  ∧ DF.round_half_even (DF.double_mul 10 (3 # 10)) = 3%Z.
Proof.
  apply (split_group_sizes id df1 2 true (1 # 2) false 3).
  - done.
  - apply df1_split_input.
  - by apply (bool_decide_unpack _).
  - split_and!; [reflexivity | done | done | by vm_compute].
Defined.

(** ** Claims about the chronological order *)

(** C6.  In [chronological_split], for every grouping entity [k] of the
    filtered input [F] there is an arrangement of the records of [k] in [F]
    in descending order of [timeStamp] (most recent first, NULL last) such
    that the test rows of [k] are its first [n] records and the train rows
    of [k] are the others, where [n] is [sample] in fixed-count mode and the
    split point [bround(count(timeStamp) * ratio)] of [k] in ratio mode: the
    binary64 product of the number of non-NULL time stamps of [k] and the
    ratio, rounded half to even.  So no train row of an entity is more
    recent than a test row of that entity.  For one customer with the 45
    time stamps 1 to 45 and the ratio 0.7 the split point is 31 and the test
    rows are the records with the time stamps 45 down to 15. *)
Theorem chronological_split_most_recent
    (df : DataFrame) (m : Z) (b : bool) (ratio : Q) (fixed : bool) (sample : Z) :
  split_input b fixed df → "timeStamp" ∈ columns df →
  fixed_sample_guard fixed sample m = false →
  let by_ := split_by_column b in
  let cs := [split_by_column b; split_with_column b; "timeStamp"] in
  (∃ F train test,
    min_rating_filter df m b = Some F
    ∧ chronological_split df m b ratio fixed sample = Some (Split train test)
    ∧ (∀ k, k ∈ DF.group_keys by_ (rows F) →
         ∃ ranked,
           ranked ≡ₚ DF.group by_ k (rows F)
           ∧ StronglySorted (DF.desc "timeStamp") ranked
           ∧ let count := DF.count_col "timeStamp" (DF.group by_ k (rows F)) in
             let point := DF.round_half_even (DF.double_mul count ratio) in
             let n := Z.to_nat (if fixed then sample else point) in
             split_point count ratio point
             ∧ DF.group by_ k (rows test) = DF.project cs <$> take n ranked
             ∧ DF.group by_ k (rows train) = DF.project cs <$> drop n ranked)
    ∧ (∀ t r, t ∈ rows test → r ∈ rows train → DF.cell by_ t = DF.cell by_ r →
         DF.cell_le (DF.cell "timeStamp" r) (DF.cell "timeStamp" t)))
  ∧ DF.round_half_even (DF.double_mul 45 (7 # 10)) = 31%Z
  ∧ (if chronological_split df45 1 true (7 # 10) false 3 is Some (Split _ test)
     then DF.cell "timeStamp" <$> rows test else [])
    = Int <$> reverse (seqZ 15 31).
Proof.
  intros Hin Hts Hguard by_ cs. split; [| split; by vm_compute]. subst by_.
  destruct (chronological_split_rows df m b ratio fixed sample Hin Hts Hguard)
    as (F & HF & Hchron).
  destruct (filtered_facts b m df (proj1 Hin)) as (F0 & HF0 & HinF & Hcols & Hrows & _).
  rewrite HF in HF0. injection HF0 as <-.
  destruct Hin as (Hfin & Hrank & Hfresh).
  set (by_ := split_by_column b) in *.
  set (w := DF.mkWindow (Some by_) ["timeStamp"] (DF.sort_desc "timeStamp")) in *.
  assert (by_ ≠ "rank" ∧ by_ ≠ "count" ∧ by_ ≠ "splitPoint") as (Hb1 & Hb2 & Hb3)
    by (unfold by_; by destruct b).
  assert (∀ l, DF.orderBy w l ≡ₚ l) as Hperm by (intros l; apply merge_sort_Permutation).
  assert (∀ x, x ≠ by_ → x ∉ columns df → x ∉ columns F) as Hfr.
  { intros x Hx Hx'. rewrite Hcols, not_elem_of_cons, elem_of_others. naive_solver. }
  assert (∀ c, c ∈ cs → c ∈ columns F) as Hsub.
  { intros c. unfold cs. rewrite !elem_of_cons, elem_of_nil.
    destruct HinF as (_ & ? & ? & _). intros [-> | [-> | [-> | []]]]; try done.
    rewrite Hcols. right. apply elem_of_others. split; [by destruct b | done]. }
  assert (by_ ∈ cs ∧ "timeStamp" ∈ cs ∧ ("rank" ∉ cs)) as (Hbycs & Htscs & Hrcs).
  { unfold cs, by_. destruct b; split_and!; by apply (bool_decide_unpack _). }
  assert (∀ k, k ∈ DF.group_keys by_ (rows F) →
            ∃ ranked,
              ranked ≡ₚ DF.group by_ k (rows F)
              ∧ StronglySorted (DF.desc "timeStamp") ranked
              ∧ DF.group by_ k
                  (DF.project cs <$> test_rows w by_ "timeStamp" ratio fixed sample (rows F))
                = DF.project cs
                    <$> take (Z.to_nat (held_out by_ "timeStamp" ratio fixed sample (rows F) k))
                          ranked
              ∧ DF.group by_ k
                  (DF.project cs <$> train_rows w by_ "timeStamp" ratio fixed sample (rows F))
                = DF.project cs
                    <$> drop (Z.to_nat (held_out by_ "timeStamp" ratio fixed sample (rows F) k))
                          ranked) as Hgroups.
  { intros k Hk.
    set (sorted := DF.sort_desc "timeStamp"
                     (DF.group by_ k (ranked_base by_ "timeStamp" ratio fixed (rows F)))).
    exists (DF.project (columns F) <$> sorted). split_and!.
    - unfold sorted, DF.sort_desc. rewrite merge_sort_Permutation, group_ranked_base by done.
      apply reflexive_eq.
      rewrite <- (list_fmap_compose
                    (if fixed then id else annotate by_ "timeStamp" ratio (rows F))
                    (DF.project (columns F))).
      rewrite <- (list_fmap_id (DF.group by_ k (rows F))) at 2.
      apply Forall_fmap_ext, Forall_forall. intros r Hr.
      apply group_cell in Hr as [_ Hr]. simpl.
      assert (DF.project (columns F) r = r) as Hid.
      { apply project_id. destruct HinF as ((_ & Hdom) & _).
        rewrite Forall_forall in Hdom. by apply Hdom. }
      destruct fixed; [done |]. destruct (Hfresh eq_refl).
      unfold annotate. rewrite !project_insert; [done | |]; apply Hfr; by try apply not_eq_sym.
    - apply (StronglySorted_fmap _ (DF.desc "timeStamp") (DF.desc "timeStamp")).
      + intros x y. unfold DF.desc. rewrite !cell_project by (apply Hsub, Htscs). done.
      + apply sort_desc_sorted.
    - rewrite group_fmap by (intros r; by apply cell_project).
      rewrite group_test_rows by done. unfold ranked_block.
      rewrite fmap_take, project_number_from by done. fold sorted.
      rewrite <- !fmap_take, <- list_fmap_compose.
      apply list_fmap_ext. intros _ r _. simpl. by rewrite project_project.
    - rewrite group_fmap by (intros r; by apply cell_project).
      rewrite group_train_rows by done. unfold ranked_block.
      rewrite fmap_drop, project_number_from by done. fold sorted.
      rewrite <- !fmap_drop, <- list_fmap_compose.
      apply list_fmap_ext. intros _ r _. simpl. by rewrite project_project. }
  eexists F, _, _. split_and!; [done | exact Hchron | |]; cbn [rows].
  - intros k Hk. destruct (Hgroups k Hk) as (ranked & ? & ? & ? & ?). exists ranked.
    split_and!; [done | done | apply split_point_round | done | done].
  - intros t r Ht Hr Hkey.
    assert (DF.cell by_ t ∈ DF.group_keys by_ (rows F)) as Hk.
    { apply list_elem_of_fmap in Ht as (t' & -> & Ht'). rewrite cell_project by done.
      unfold test_rows in Ht'. apply list_elem_of_bind in Ht' as (k' & Ht' & Hk').
      apply elem_of_take in Ht' as (i & Ht' & _). apply list_elem_of_lookup_2 in Ht'.
      pose proof (ranked_block_keys w by_ "timeStamp" ratio fixed (rows F) Hperm Hb1 k') as Hb.
      rewrite Forall_forall in Hb. by rewrite (Hb t' Ht'). }
    destruct (Hgroups _ Hk) as (ranked & _ & Hsorted & Htest & Htrain).
    assert (t ∈ DF.group by_ (DF.cell by_ t)
                  (DF.project cs <$> test_rows w by_ "timeStamp" ratio fixed sample (rows F)))
      as Ht2 by (by apply group_cell).
    assert (r ∈ DF.group by_ (DF.cell by_ t)
                  (DF.project cs <$> train_rows w by_ "timeStamp" ratio fixed sample (rows F)))
      as Hr2 by (by apply group_cell).
    rewrite Htest in Ht2. rewrite Htrain in Hr2.
    apply list_elem_of_fmap in Ht2 as (x & -> & Hx).
    apply list_elem_of_fmap in Hr2 as (y & -> & Hy).
    rewrite !cell_project by done.
    rewrite <- (take_drop (Z.to_nat (held_out by_ "timeStamp" ratio fixed sample (rows F)
                                      (DF.cell by_ (DF.project cs x)))) ranked) in Hsorted.
    apply (StronglySorted_app_1_elem_of _ _ _ x y Hsorted Hx Hy).
Qed.

Lemma chronological_split_most_recent_witness :
  let cs := ["customerID"; "itemID"; "timeStamp"] in
  (∃ F train test,
    min_rating_filter df1 2 true = Some F
    ∧ chronological_split df1 2 true (1 # 2) false 3 = Some (Split train test)
    ∧ (∀ k, k ∈ DF.group_keys "customerID" (rows F) →
         ∃ ranked,
           ranked ≡ₚ DF.group "customerID" k (rows F)
           ∧ StronglySorted (DF.desc "timeStamp") ranked
           ∧ let count := DF.count_col "timeStamp" (DF.group "customerID" k (rows F)) in
             let point := DF.round_half_even (DF.double_mul count (1 # 2)) in
             let n := Z.to_nat (if false then 3%Z else point) in
             split_point count (1 # 2) point
             ∧ DF.group "customerID" k (rows test) = DF.project cs <$> take n ranked
             ∧ DF.group "customerID" k (rows train) = DF.project cs <$> drop n ranked)
    ∧ (∀ t r, t ∈ rows test → r ∈ rows train →
         DF.cell "customerID" t = DF.cell "customerID" r →
         DF.cell_le (DF.cell "timeStamp" r) (DF.cell "timeStamp" t)))
  ∧ DF.round_half_even (DF.double_mul 45 (7 # 10)) = 31%Z
  ∧ (if chronological_split df45 1 true (7 # 10) false 3 is Some (Split _ test)
     then DF.cell "timeStamp" <$> rows test else [])
    = Int <$> reverse (seqZ 15 31).
Proof.
  apply (chronological_split_most_recent df1 2 true (1 # 2) false 3).
  - apply df1_split_input.
  - by apply (bool_decide_unpack _).
  - reflexivity.
Defined.

(** ** Claims that the code does not meet *)

(** C1 (the code differs).  With [fixed_test_sample = True], [min_rating = 6]
    and [sample = 6] the guard is false, and on a customer with seven
    ratings both splitters return a pair, one row in train and six in test,
    instead of the sentinel; the same holds for [sample = 7], where all
    seven rows go to test. *)
Theorem fixed_sample_guard_misses_sample_6 :
  fixed_sample_guard true 6 6 = false
  ∧ fixed_sample_guard true 7 6 = false
  ∧ split_sizes (stratified_split id df7 6 true (3 # 10) true 6) = Some (1, 6)%nat
  ∧ split_sizes (chronological_split df7 6 true (3 # 10) true 6) = Some (1, 6)%nat
  ∧ split_sizes (stratified_split id df7 6 true (3 # 10) true 7) = Some (0, 7)%nat.
Proof. split_and!; vm_compute; reflexivity. Qed.

(** C4 (the code differs).  With four entities, numbered 1, 2, 3, 4 by the
    window, and ratio 3/4, the bound is 3 and the first three entities make
    up the train side; the test side holds the fourth entity only. *)
Theorem non_overlapping_split_first_entities_to_train :
  DF.cell "customerID" <$> shuffled_entities id "customerID" (rows df4)
  = [Int 1; Int 2; Int 3; Int 4]
  ∧ DF.round_half_even (inject_Z 4 * (3 # 4)) = 3%Z
  ∧ DF.round_half_even (DF.double_mul 4 (3 # 4)) = 3%Z
  ∧ non_overlapping_split id df4 1 true (3 # 4)
    = Some (Split (mkDF ["customerID"; "itemID"; "rating"]
                     [row3 1 1 5; row3 2 1 4; row3 3 2 3])
                  (mkDF ["customerID"; "itemID"; "rating"] [row3 4 2 5])).
Proof.
  split_and!.
  - vm_compute. reflexivity.
  - reflexivity.
  - vm_compute. reflexivity.
  - vm_compute. reflexivity.
Qed.

(** * Further properties of the splitters and of the fit loop *)

(** ** Missing and clashing columns *)

Lemma resolve_absent (c : string) (df : DataFrame) :
  c ∉ columns df → DF.resolve c df = None.
Proof.
  intros Hc. unfold DF.resolve. rewrite decide_False; [done |].
  rewrite filter_none; [done |]. apply Forall_forall. by intros x Hx ->.
Qed.

Lemma resolve_twice (c : string) (cols : list string) (rs : list Row) :
  c ∈ cols → DF.resolve c (mkDF (cols ++ [c]) rs) = None.
Proof.
  intros Hc. unfold DF.resolve. cbn [columns]. rewrite decide_False; [done |].
  rewrite filter_app, length_app, filter_cons_True, filter_nil by done. simpl.
  assert (0 < length (filter (λ x, x = c) cols))%nat; [| lia].
  apply list_elem_of_lookup in Hc as [i Hi].
  destruct (filter (λ x, x = c) cols) as [|y l] eqn:Hf; [| simpl; lia].
  apply list_elem_of_lookup_2 in Hi.
  assert (c ∈ filter (λ x, x = c) cols) as Hin by (by apply list_elem_of_filter).
  rewrite Hf in Hin. by apply elem_of_nil in Hin.
Qed.

Lemma min_rating_filter_missing (b : bool) (m : Z) (df : DataFrame) :
  split_by_column b ∉ columns df ∨ split_with_column b ∉ columns df →
  min_rating_filter df m b = None.
Proof.
  intros Hmiss. unfold min_rating_filter, DF.groupBy_count.
  destruct Hmiss as [H | H].
  - by rewrite (resolve_absent _ _ H).
  - destruct (DF.resolve (split_by_column b) df); [| done].
    cbn [mbind option_bind]. by rewrite (resolve_absent _ _ H).
Qed.

(** X1.  When the input lacks the grouping id column or the counterpart
    id column, [min_rating_filter] raises, and so do the random and the
    non-overlapping splitter; the stratified and the chronological
    splitter raise too unless their guard rejects the call first. *)
Theorem splitters_need_id_columns (rand_order : list Row → list Row) (rand_draw : nat → Q)
    (df : DataFrame) (m : Z) (b : bool) (ratio : Q) (fixed : bool) (sample : Z) :
  split_by_column b ∉ columns df ∨ split_with_column b ∉ columns df →
  min_rating_filter df m b = None
  ∧ random_split rand_draw df m b ratio = None
  ∧ non_overlapping_split rand_order df m b ratio = None
  ∧ stratified_split rand_order df m b ratio fixed sample
    = (if fixed_sample_guard fixed sample m
       then Some (Rejected "sample should be less than min_rating." (-1)) else None)
  ∧ chronological_split df m b ratio fixed sample
    = (if fixed_sample_guard fixed sample m
       then Some (Rejected "sample should be less than min_rating." (-1)) else None).
Proof.
  intros Hmiss. pose proof (min_rating_filter_missing b m df Hmiss) as HF.
  unfold random_split, non_overlapping_split, stratified_split, chronological_split.
  rewrite HF. split_and!; try done; by destruct (fixed_sample_guard fixed sample m).
Qed.

Lemma splitters_need_id_columns_witness :
  min_rating_filter df_noitem 2 true = None
  ∧ random_split (λ _, 1 # 2) df_noitem 2 true (1 # 2) = None
  ∧ non_overlapping_split id df_noitem 2 true (1 # 2) = None
  ∧ stratified_split id df_noitem 2 true (1 # 2) true 1
    = (if fixed_sample_guard true 1 2
       then Some (Rejected "sample should be less than min_rating." (-1)) else None)
  ∧ chronological_split df_noitem 2 true (1 # 2) true 1
    = (if fixed_sample_guard true 1 2
       then Some (Rejected "sample should be less than min_rating." (-1)) else None).
Proof.
  apply (splitters_need_id_columns id (λ _, 1 # 2) df_noitem 2 true (1 # 2) true 1).
  right. by apply (bool_decide_unpack _).
Defined.

(** ** When a call is rejected *)

Lemma land_1_odd (n : Z) : Z.land 1 n = Z.b2z (Z.odd n).
Proof.
  rewrite Z.land_comm. change 1%Z with (Z.ones 1). rewrite Z.land_ones by lia.
  change (2 ^ 1)%Z with 2%Z. by rewrite Zmod_odd; destruct (Z.odd n).
Qed.

Lemma fixed_sample_guard_odd (fixed : bool) (sample m : Z) :
  fixed_sample_guard fixed sample m = true
  ↔ Z.odd sample = fixed ∧ (m < Z.b2z fixed)%Z.
Proof.
  unfold fixed_sample_guard. rewrite land_1_odd.
  rewrite andb_true_iff, Z.eqb_eq, Z.gtb_gt.
  destruct fixed, (Z.odd sample); simpl; split; intros [? ?]; split; (done || lia).
Qed.

Lemma stratified_split_not_rejected ro df m b ratio fixed sample p s :
  fixed_sample_guard fixed sample m = false →
  stratified_split ro df m b ratio fixed sample ≠ Some (Rejected p s).
Proof.
  intros Hg. unfold stratified_split. rewrite Hg.
  destruct (min_rating_filter df m b) as [F|]; [| done]. cbn [mbind option_bind].
  destruct (DF.groupBy_count _ _ F) as [g|]; [| done]. cbn [mbind option_bind].
  destruct (rank_split _ _ _ _ _ _ _) as [[tr te]|]; done.
Qed.

Lemma chronological_split_not_rejected df m b ratio fixed sample p s :
  fixed_sample_guard fixed sample m = false →
  chronological_split df m b ratio fixed sample ≠ Some (Rejected p s).
Proof.
  intros Hg. unfold chronological_split. rewrite Hg.
  destruct (min_rating_filter df m b) as [F|]; [| done]. cbn [mbind option_bind].
  destruct (DF.groupBy_count _ _ F) as [g|]; [| done]. cbn [mbind option_bind].
  destruct (rank_split _ _ _ _ _ _ _) as [[tr te]|]; [| done]. cbn [mbind option_bind].
  destruct (DF.select _ tr) as [tr'|]; [| done]. cbn [mbind option_bind].
  destruct (DF.select _ te) as [te'|]; done.
Qed.

(** X2.  The stratified and the chronological splitter return the
    rejection sentinel exactly when the parity of [sample] agrees with the
    mode flag and [min_rating] is below the flag read as a number: in
    fixed-count mode when [sample] is odd and [min_rating < 1], in ratio
    mode when [sample] is even and [min_rating < 0].  Whatever the data
    frame, the sentinel is then the printed message with the value -1. *)
Theorem split_rejected_iff (rand_order : list Row → list Row) (df : DataFrame) (m : Z)
    (b : bool) (ratio : Q) (fixed : bool) (sample : Z) (p : string) (s : Z) :
  let rejects := Z.odd sample = fixed ∧ (m < Z.b2z fixed)%Z in
  let sentinel := p = "sample should be less than min_rating." ∧ s = (-1)%Z in
  (stratified_split rand_order df m b ratio fixed sample = Some (Rejected p s)
   ↔ rejects ∧ sentinel)
  ∧ (chronological_split df m b ratio fixed sample = Some (Rejected p s)
     ↔ rejects ∧ sentinel).
Proof.
  intros rejects sentinel. unfold rejects, sentinel.
  rewrite <- (fixed_sample_guard_odd fixed sample m).
  destruct (fixed_sample_guard fixed sample m) eqn:Hg.
  - unfold stratified_split, chronological_split. rewrite Hg.
    split; (split; [intros [= <- <-]; done | intros (_ & -> & ->); done]).
  - split; (split; [intros H | by intros [? _]]); exfalso.
    + by apply (stratified_split_not_rejected _ _ _ _ _ _ _ _ _ Hg) in H.
    + by apply (chronological_split_not_rejected _ _ _ _ _ _ _ _ Hg) in H.
Qed.

(** ** Columns that the splitters need or cannot take *)

Lemma others_elem (by_ c : string) (cols : list string) :
  c ∈ cols → c ≠ by_ → c ∈ DF.others by_ cols.
Proof. intros Hc Hne. apply elem_of_others. done. Qed.

Lemma row_number_over_clash (w : DF.WindowSpec) (name : string) (df D : DataFrame) :
  name ∈ columns df → DF.row_number_over w name df = Some D → DF.resolve name D = None.
Proof.
  intros Hin. unfold DF.row_number_over.
  destruct (match DF.partitionBy w with Some p => DF.resolve p df | None => Some () end);
    [| done]. cbn [mbind option_bind].
  destruct (decide _); [| done]. cbn [mbind option_bind].
  intros [= <-]. by apply resolve_twice.
Qed.

Lemma rank_split_clash (w : DF.WindowSpec) (J G : DataFrame) (by_ : string) (ratio : Q)
    (fixed : bool) (sample : Z) :
  "rank" ∈ columns J → by_ ≠ "rank" → rank_split w J G by_ ratio fixed sample = None.
Proof.
  intros Hin Hby. unfold rank_split. destruct fixed; cbn [negb].
  - destruct (DF.row_number_over w "rank" J) as [D|] eqn:HD; [| done].
    cbn [mbind option_bind]. unfold DF.filter_lit.
    by rewrite (row_number_over_clash w "rank" J D Hin HD).
  - unfold DF.join_outer.
    destruct (DF.resolve by_ J); [| done]. cbn [mbind option_bind].
    destruct (DF.resolve by_ G); [| done]. cbn [mbind option_bind].
    destruct (DF.resolve "count" _); [| done]. cbn [mbind option_bind].
    match goal with |- context [DF.row_number_over w "rank" ?A] =>
      assert ("rank" ∈ columns A) as HA; [| destruct (DF.row_number_over w "rank" A) as [D|] eqn:HD; [| done]]
    end.
    { unfold DF.withColumn. cbn [columns].
      assert ("rank" ∈ by_ :: DF.others by_ (columns J) ++ DF.others by_ (columns G)) as H.
      { apply elem_of_cons. right. apply elem_of_app. left. by apply elem_of_others. }
      destruct (decide _); [done |]. apply elem_of_app. by left. }
    cbn [mbind option_bind]. unfold DF.filter_cols.
    by rewrite (row_number_over_clash w "rank" _ D HA HD).
Qed.

(** X3.  On an input that already has a column named [rank], for instance
    an output of [stratified_split], the stratified and the chronological
    splitter raise: the rank column they add makes the name ambiguous. *)
Theorem split_rank_column_clash (rand_order : list Row → list Row) (df : DataFrame) (m : Z)
    (b : bool) (ratio : Q) (fixed : bool) (sample : Z) :
  filter_input b df → "rank" ∈ columns df →
  fixed_sample_guard fixed sample m = false →
  stratified_split rand_order df m b ratio fixed sample = None
  ∧ chronological_split df m b ratio fixed sample = None.
Proof.
  intros Hin Hrank Hg.
  destruct (filtered_facts b m df Hin) as (F & HF & _ & Hcols & _ & _).
  assert (split_by_column b ≠ "rank") as Hby by (by destruct b).
  assert ("rank" ∈ columns F) as HrF.
  { rewrite Hcols. apply elem_of_cons. right. by apply elem_of_others. }
  unfold stratified_split, chronological_split. rewrite Hg, HF. cbn [mbind option_bind].
  split.
  - destruct (DF.groupBy_count _ _ F); [| done]. cbn [mbind option_bind].
    by rewrite rank_split_clash.
  - destruct (DF.groupBy_count _ _ F); [| done]. cbn [mbind option_bind].
    by rewrite rank_split_clash.
Qed.

Lemma df_rank_filter_input : filter_input true df_rank.
Proof.
  unfold filter_input, wf. split_and!.
  - by apply (bool_decide_unpack _).
  - repeat constructor; by vm_compute.
  - by apply (bool_decide_unpack _).
  - by apply (bool_decide_unpack _).
  - by apply (bool_decide_unpack _).
Defined.

Lemma split_rank_column_clash_witness :
  stratified_split id df_rank 1 true (1 # 2) true 0 = None
  ∧ chronological_split df_rank 1 true (1 # 2) true 0 = None.
Proof.
  apply (split_rank_column_clash id df_rank 1 true (1 # 2) true 0 df_rank_filter_input).
  - by apply (bool_decide_unpack _).
  - reflexivity.
Defined.

(** X4.  Without a [timeStamp] column the chronological splitter raises,
    whatever the mode. *)
Theorem chronological_split_needs_timeStamp (df : DataFrame) (m : Z) (b : bool) (ratio : Q)
    (fixed : bool) (sample : Z) :
  filter_input b df → "timeStamp" ∉ columns df →
  fixed_sample_guard fixed sample m = false →
  chronological_split df m b ratio fixed sample = None.
Proof.
  intros Hin Hts Hg.
  destruct (filtered_facts b m df Hin) as (F & HF & _ & Hcols & _ & _).
  assert ("timeStamp" ∉ columns F) as HtF.
  { rewrite Hcols. intros [H | H]%elem_of_cons; [destruct b; by vm_compute in H |].
    apply elem_of_others in H as [_ H]. by apply Hts. }
  unfold chronological_split. rewrite Hg, HF. cbn [mbind option_bind].
  unfold DF.groupBy_count. rewrite (resolve_absent _ _ HtF).
  by destruct (DF.resolve (split_by_column b) F).
Qed.

Lemma chronological_split_needs_timeStamp_witness :
  chronological_split df0 2 true (1 # 2) false 0 = None.
Proof.
  apply (chronological_split_needs_timeStamp df0 2 true (1 # 2) false 0 df0_filter_input).
  - by apply (bool_decide_unpack _).
  - reflexivity.
Defined.

(** ** More on [min_rating_filter] *)

Lemma rating_count_filtered (b : bool) (m : Z) (rs : list Row) (k : Cell) :
  k ≠ Null → (m ≤ rating_count b rs k)%Z →
  rating_count b (filter (retained b m rs) rs) k = rating_count b rs k.
Proof.
  intros Hk Hm. unfold rating_count at 1. rewrite group_retained.
  by rewrite decide_True.
Qed.

Lemma rating_count_nonneg (b : bool) (rs : list Row) (k : Cell) :
  (0 ≤ rating_count b rs k)%Z.
Proof. unfold rating_count, DF.count_col. lia. Qed.

(** X5.  The filter keeps or drops whole groups: the group of an entity
    with at least [min_rating] ratings is kept entire, every other group is
    dropped entire, and no output row has a NULL grouping id. *)
Theorem min_rating_filter_whole_groups (b : bool) (m : Z) (df : DataFrame) :
  filter_input b df →
  ∃ out, min_rating_filter df m b = Some out
    ∧ Forall (λ r, DF.cell (split_by_column b) r ≠ Null) (rows out)
    ∧ ∀ k, DF.group (split_by_column b) k (rows out)
           ≡ₚ if decide (k ≠ Null ∧ (m ≤ rating_count b (rows df) k)%Z)
              then DF.group (split_by_column b) k (rows df) else [].
Proof.
  intros Hin.
  destruct (filtered_facts b m df Hin) as (F & HF & _ & _ & Hrows & Hnn).
  exists F. split_and!; try done.
  intros k. rewrite (group_Permutation _ k _ _ Hrows), group_retained.
  by destruct (decide _).
Qed.

Lemma min_rating_filter_whole_groups_witness :
  ∃ out, min_rating_filter df0 2 true = Some out
    ∧ Forall (λ r, DF.cell (split_by_column true) r ≠ Null) (rows out)
    ∧ ∀ k, DF.group (split_by_column true) k (rows out)
           ≡ₚ if decide (k ≠ Null ∧ (2 ≤ rating_count true (rows df0) k)%Z)
              then DF.group (split_by_column true) k (rows df0) else [].
Proof. exact (min_rating_filter_whole_groups true 2 df0 df0_filter_input). Defined.

Lemma filter_retained_max (b : bool) (m m' : Z) (rs out : list Row) :
  out ≡ₚ filter (retained b m rs) rs →
  filter (retained b m' out) out ≡ₚ filter (retained b (m `max` m') rs) rs.
Proof.
  intros Hout.
  assert (∀ r, retained b m rs r →
               retained b m' out r ↔ retained b (m `max` m') rs r) as Hiff.
  { intros r [Hk Hm]. unfold retained.
    assert (rating_count b out (DF.cell (split_by_column b) r)
            = rating_count b rs (DF.cell (split_by_column b) r)) as ->.
    { unfold rating_count.
      rewrite (count_col_Permutation _ _ _ (group_Permutation _ _ _ _ Hout)).
      by apply rating_count_filtered. }
    split; intros [? ?]; (split; [done | lia]). }
  rewrite (filter_ext_in (retained b m' out) (retained b (m `max` m') rs) out).
  2:{ intros r Hr. rewrite Hout in Hr. apply list_elem_of_filter in Hr as [Hr _].
      by apply Hiff. }
  rewrite Hout, list_filter_filter.
  rewrite (filter_ext_in (λ r, retained b (m `max` m') rs r ∧ retained b m rs r)
             (retained b (m `max` m') rs) rs); [done |].
  intros r _. split; [tauto |]. intros Hr. split; [done |].
  destruct Hr as [? ?]. split; [done | lia].
Qed.

(** X6.  Filtering a filtered frame again with another minimum gives the
    frame that one filter with the larger of the two minima gives: a
    second filter with a smaller or equal minimum removes nothing. *)
Theorem min_rating_filter_twice (b : bool) (m m' : Z) (df : DataFrame) :
  filter_input b df →
  ∃ out out' once, min_rating_filter df m b = Some out
    ∧ min_rating_filter out m' b = Some out'
    ∧ min_rating_filter df (m `max` m') b = Some once
    ∧ columns out' = columns once
    ∧ rows out' ≡ₚ rows once.
Proof.
  intros Hin.
  destruct (min_rating_filter_retained b m df Hin) as (out & Hout & Hcols & Hrows).
  pose proof (min_rating_filter_input b m df out Hin Hout) as Hin'.
  destruct (min_rating_filter_retained b m' out Hin') as (out' & Hout' & Hcols' & Hrows').
  destruct (min_rating_filter_retained b (m `max` m') df Hin) as (once & Honce & Hcols1 & Hrows1).
  exists out, out', once. split_and!; try done.
  - by rewrite Hcols', Hcols1, Hcols, others_cons_eq, others_idemp.
  - by rewrite Hrows', Hrows1, (filter_retained_max b m m' (rows df)).
Qed.

Lemma min_rating_filter_twice_witness :
  ∃ out out' once, min_rating_filter df0 1 true = Some out
    ∧ min_rating_filter out 2 true = Some out'
    ∧ min_rating_filter df0 (1 `max` 2) true = Some once
    ∧ columns out' = columns once
    ∧ rows out' ≡ₚ rows once.
Proof. exact (min_rating_filter_twice true 1 2 df0 df0_filter_input). Defined.

(** X7.  With a minimum of at most 0 the filter removes only the rows
    with a NULL grouping id; so does a minimum of 1 on a frame without NULL
    counterpart ids. *)
Theorem min_rating_filter_low_minimum (b : bool) (m : Z) (df : DataFrame) :
  filter_input b df →
  (m ≤ 0)%Z
  ∨ ((m ≤ 1)%Z ∧ Forall (λ r, DF.cell (split_with_column b) r ≠ Null) (rows df)) →
  ∃ out, min_rating_filter df m b = Some out
    ∧ rows out ≡ₚ filter (λ r, DF.cell (split_by_column b) r ≠ Null) (rows df).
Proof.
  intros Hin Hm.
  destruct (min_rating_filter_retained b m df Hin) as (out & Hout & _ & Hrows).
  exists out. split; [done |]. rewrite Hrows.
  rewrite (filter_ext_in (retained b m (rows df))
             (λ r, DF.cell (split_by_column b) r ≠ Null) (rows df)); [done |].
  intros r Hr. unfold retained. split; [by intros [? _] |]. intros Hk. split; [done |].
  destruct Hm as [Hm | [Hm Hnn]].
  - pose proof (rating_count_nonneg b (rows df) (DF.cell (split_by_column b) r)). lia.
  - unfold rating_count. rewrite count_col_no_null.
    + assert (r ∈ DF.group (split_by_column b) (DF.cell (split_by_column b) r) (rows df)) as Hg
        by (by apply group_cell).
      destruct (DF.group _ _ _); [by apply elem_of_nil in Hg | simpl; lia].
    + apply Forall_forall. intros x [_ Hx]%group_cell.
      by apply (proj1 (Forall_forall _ _) Hnn).
Qed.

Lemma min_rating_filter_low_minimum_witness :
  ∃ out, min_rating_filter df0 1 true = Some out
    ∧ rows out ≡ₚ filter (λ r, DF.cell (split_by_column true) r ≠ Null) (rows df0).
Proof.
  apply (min_rating_filter_low_minimum true 1 df0 df0_filter_input).
  right. split; [lia |]. repeat constructor; by vm_compute.
Defined.

(** ** Edge cases of the splitters *)

Lemma Permutation_app_nil {A} (l1 l2 : list A) : l1 ++ l2 ≡ₚ [] → l1 = [] ∧ l2 = [].
Proof. intros H. apply Permutation_nil_r in H. by apply app_eq_nil. Qed.

(** X8.  When no entity of the input reaches [min_rating] ratings, in
    particular on an input without rows, the filter returns no row and
    every splitter returns an empty train and an empty test frame. *)
Theorem splitters_nothing_retained (rand_order : list Row → list Row) (rand_draw : nat → Q)
    (df : DataFrame) (m : Z) (b : bool) (ratio : Q) (fixed : bool) (sample : Z) :
  (∀ l, rand_order l ≡ₚ l) → (∀ j, (0 <= rand_draw j)%Q ∧ (rand_draw j < 1)%Q) →
  (0 <= ratio)%Q → (ratio <= 1)%Q →
  split_input b fixed df → "timeStamp" ∈ columns df →
  fixed_sample_guard fixed sample m = false →
  Forall (λ r, (rating_count b (rows df) (DF.cell (split_by_column b) r) < m)%Z) (rows df) →
  ∃ F, min_rating_filter df m b = Some F ∧ rows F = []
    ∧ (∃ train test, random_split rand_draw df m b ratio = Some (Split train test)
         ∧ rows train = [] ∧ rows test = [])
    ∧ (∃ train test,
         stratified_split rand_order df m b ratio fixed sample = Some (Split train test)
         ∧ rows train = [] ∧ rows test = [])
    ∧ (∃ train test,
         chronological_split df m b ratio fixed sample = Some (Split train test)
         ∧ rows train = [] ∧ rows test = [])
    ∧ (∃ train test,
         non_overlapping_split rand_order df m b ratio = Some (Split train test)
         ∧ rows train = [] ∧ rows test = []).
Proof.
  intros Hperm Hdraw H0 H1 Hin Hts Hguard Hlow.
  destruct (random_split_rows rand_draw df m b ratio Hdraw H0 H1 (proj1 Hin))
    as (F & rtrain & rtest & HF & Hrandom & _ & _ & Hrp).
  destruct (stratified_split_rows rand_order df m b ratio fixed sample Hperm Hin Hguard)
    as (F' & HF' & Hstrat).
  destruct (chronological_split_rows df m b ratio fixed sample Hin Hts Hguard)
    as (F'' & HF'' & Hchron).
  destruct (non_overlapping_split_rows rand_order df m b ratio Hperm (proj1 Hin))
    as (F''' & HF''' & Hnon).
  rewrite HF in HF', HF'', HF'''. injection HF' as <-. injection HF'' as <-.
  injection HF''' as <-.
  destruct (filtered_facts b m df (proj1 Hin)) as (F0 & HF0 & _ & _ & Hrows & _).
  rewrite HF in HF0. injection HF0 as <-.
  assert (rows F = []) as Hnil.
  { apply Permutation_nil_r. rewrite Hrows. rewrite filter_none; [done |].
    eapply Forall_impl; [exact Hlow |]. intros r Hr [_ Hm]. simpl in Hr. lia. }
  rewrite Hnil in *. apply Permutation_app_nil in Hrp as [Hr1 Hr2].
  exists F. split_and!; try done.
  - by exists rtrain, rtest.
  - eexists _, _. split; [exact Hstrat |]. by split.
  - eexists _, _. split; [exact Hchron |]. by split.
  - eexists _, _. split; [exact Hnon |]. by split.
Qed.

Lemma splitters_nothing_retained_witness :
  ∃ F, min_rating_filter df1 5 true = Some F ∧ rows F = []
    ∧ (∃ train test, random_split (λ _, 1 # 2) df1 5 true (1 # 2) = Some (Split train test)
         ∧ rows train = [] ∧ rows test = [])
    ∧ (∃ train test,
         stratified_split id df1 5 true (1 # 2) false 3 = Some (Split train test)
         ∧ rows train = [] ∧ rows test = [])
    ∧ (∃ train test,
         chronological_split df1 5 true (1 # 2) false 3 = Some (Split train test)
         ∧ rows train = [] ∧ rows test = [])
    ∧ (∃ train test,
         non_overlapping_split id df1 5 true (1 # 2) = Some (Split train test)
         ∧ rows train = [] ∧ rows test = []).
Proof.
  apply (splitters_nothing_retained id (λ _, 1 # 2) df1 5 true (1 # 2) false 3).
  - done.
  - intros j. split; done.
  - done.
  - done.
  - apply df1_split_input.
  - by apply (bool_decide_unpack _).
  - reflexivity.
  - repeat constructor; by vm_compute.
Defined.

Lemma group_size_pos_key (by_ : string) (rs : list Row) (k : Cell) :
  (0 < group_size by_ rs k)%Z → k ∈ DF.group_keys by_ rs.
Proof.
  unfold group_size. intros Hpos. apply elem_of_group_keys.
  destruct (DF.group by_ k rs) as [|r l] eqn:Hg; [simpl in Hpos; lia |].
  assert (r ∈ DF.group by_ k rs) as Hr by (rewrite Hg; left).
  apply group_cell in Hr as [? ?]. by exists r.
Qed.

(** X9.  In fixed-count mode with [0 <= sample < min_rating], every
    entity of the filtered input has a row in the train frame of the
    stratified and of the chronological splitter, and for [1 <= sample] a
    row in each test frame as well. *)
Theorem fixed_split_keeps_every_entity (rand_order : list Row → list Row)
    (df : DataFrame) (m : Z) (b : bool) (ratio : Q) (sample : Z) :
  (∀ l, rand_order l ≡ₚ l) → split_input b true df → "timeStamp" ∈ columns df →
  (0 ≤ sample < m)%Z →
  ∃ F strain stest ctrain ctest,
    min_rating_filter df m b = Some F
    ∧ stratified_split rand_order df m b ratio true sample = Some (Split strain stest)
    ∧ chronological_split df m b ratio true sample = Some (Split ctrain ctest)
    ∧ ∀ k, k ∈ DF.group_keys (split_by_column b) (rows F) →
        k ∈ DF.group_keys (split_by_column b) (rows strain)
        ∧ k ∈ DF.group_keys (split_by_column b) (rows ctrain)
        ∧ ((1 ≤ sample)%Z →
           k ∈ DF.group_keys (split_by_column b) (rows stest)
           ∧ k ∈ DF.group_keys (split_by_column b) (rows ctest)).
Proof.
  intros Hperm Hin Hts Hsample.
  assert (fixed_sample_guard true sample m = false) as Hguard.
  { apply fixed_sample_guard_false. lia. }
  destruct (stratified_split_rows rand_order df m b ratio true sample Hperm Hin Hguard)
    as (F & HF & Hstrat).
  destruct (chronological_split_rows df m b ratio true sample Hin Hts Hguard)
    as (F' & HF' & Hchron).
  rewrite HF in HF'. injection HF' as <-.
  destruct (filtered_facts b m df (proj1 Hin)) as (F0 & HF0 & HinF & Hcols & Hrows & _).
  rewrite HF in HF0. injection HF0 as <-.
  eexists F, _, _, _, _. split_and!; [done | exact Hstrat | exact Hchron |].
  intros k Hk. cbn [rows].
  set (by_ := split_by_column b) in *.
  assert (by_ ≠ "rank" ∧ by_ ≠ "count" ∧ by_ ≠ "splitPoint") as (Hb1 & Hb2 & Hb3)
    by (unfold by_; by destruct b).
  pose proof (retained_group_size b m (rows df) (rows F) k Hrows Hk) as Hm.
  fold by_ in Hm.
  assert (∀ c, (0 ≤ held_out by_ c ratio true sample (rows F) k ≤ group_size by_ (rows F) k)%Z)
    as Hheld by (intros c; cbn [held_out]; lia).
  assert (by_ ∈ [by_; split_with_column b; "timeStamp"]) as Hbycs by left.
  destruct (ranked_group_sizes (DF.mkWindow (Some by_) [] rand_order) by_
              (split_with_column b) ratio true sample (rows F) Hperm Hb1 Hb2 Hb3 k Hk
              (Hheld _)) as [Hs1 Hs2].
  destruct (ranked_group_sizes
              (DF.mkWindow (Some by_) ["timeStamp"] (DF.sort_desc "timeStamp")) by_
              "timeStamp" ratio true sample (rows F)
              (λ l, merge_sort_Permutation _ l) Hb1 Hb2 Hb3 k Hk (Hheld _))
    as [Hc1 Hc2].
  cbn [held_out] in Hs1, Hs2, Hc1, Hc2.
  split_and!.
  - apply group_size_pos_key. lia.
  - apply group_size_pos_key. rewrite group_size_project by done. lia.
  - intros H1. split; apply group_size_pos_key.
    + lia.
    + rewrite group_size_project by done. lia.
Qed.

Lemma fixed_split_keeps_every_entity_witness :
  ∃ F strain stest ctrain ctest,
    min_rating_filter df1 2 true = Some F
    ∧ stratified_split id df1 2 true (1 # 2) true 1 = Some (Split strain stest)
    ∧ chronological_split df1 2 true (1 # 2) true 1 = Some (Split ctrain ctest)
    ∧ ∀ k, k ∈ DF.group_keys (split_by_column true) (rows F) →
        k ∈ DF.group_keys (split_by_column true) (rows strain)
        ∧ k ∈ DF.group_keys (split_by_column true) (rows ctrain)
        ∧ ((1 ≤ 1)%Z →
           k ∈ DF.group_keys (split_by_column true) (rows stest)
           ∧ k ∈ DF.group_keys (split_by_column true) (rows ctest)).
Proof.
  apply (fixed_split_keeps_every_entity id df1 2 true (1 # 2) 1).
  - done.
  - apply df1_split_input.
  - by apply (bool_decide_unpack _).
  - lia.
Defined.

Lemma split_point_ratio_0 (n : Z) (ratio : Q) :
  (ratio == 0)%Q → DF.round_half_even (DF.double_mul n ratio) = 0%Z.
Proof.
  intros Hr. apply round_half_even_Z. unfold DF.double_mul.
  apply round_double_Z; [| done].
  rewrite (round_double_Z ratio 0) by done. change (inject_Z 0) with 0%Q. ring.
Qed.

Lemma split_point_ratio_1 (n : Z) (ratio : Q) :
  (ratio == 1)%Q → (0 ≤ n < 2 ^ 53)%Z → DF.round_half_even (DF.double_mul n ratio) = n.
Proof.
  intros Hr Hn. apply round_half_even_Z. unfold DF.double_mul.
  apply round_double_Z; [| done].
  rewrite (round_double_Z ratio 1) by done.
  rewrite (round_double_Z (inject_Z n) n) by done. change (inject_Z 1) with 1%Q. ring.
Qed.

Lemma bind_nil_all {A B} (f : A → list B) (l : list A) :
  (∀ x, x ∈ l → f x = []) → l ≫= f = [].
Proof.
  induction l as [|x l IH]; intros Hf; [done |].
  cbn [mbind list_bind]. rewrite (Hf x) by left. rewrite IH; [done |].
  intros y Hy. apply Hf. by right.
Qed.

Section RatioEdges.
Variables (w : DF.WindowSpec) (by_ c : string) (sample : Z) (rs : list Row).
Hypothesis Hperm : ∀ l, DF.orderBy w l ≡ₚ l.
Hypothesis Hcount : by_ ≠ "count".
Hypothesis Hpoint : by_ ≠ "splitPoint".

Lemma test_rows_ratio_0 (ratio : Q) :
  (ratio == 0)%Q → test_rows w by_ c ratio false sample rs = [].
Proof.
  intros Hr. unfold test_rows. apply bind_nil_all. intros k _.
  cbn [held_out]. by rewrite split_point_ratio_0.
Qed.

Lemma train_rows_ratio_1 (ratio : Q) :
  (ratio == 1)%Q → Forall (λ r, DF.cell c r ≠ Null) rs →
  (Z.of_nat (length rs) < 2 ^ 53)%Z →
  train_rows w by_ c ratio false sample rs = [].
Proof.
  intros Hr Hnn Hlen. unfold train_rows. apply bind_nil_all. intros k _.
  cbn [held_out].
  rewrite count_col_no_null.
  2:{ apply Forall_forall. intros x [_ Hx]%group_cell.
      by apply (proj1 (Forall_forall _ _) Hnn). }
  pose proof (group_size_le_length by_ rs k) as Hle. unfold group_size in Hle.
  rewrite split_point_ratio_1 by (done || lia).
  rewrite Nat2Z.id. apply drop_ge.
  by rewrite length_ranked_block.
Qed.
End RatioEdges.

Lemma split_ratio_frames (rand_order : list Row → list Row)
    (df : DataFrame) (m : Z) (b : bool) (ratio : Q) (sample : Z) :
  (∀ l, rand_order l ≡ₚ l) → split_input b false df → "timeStamp" ∈ columns df →
  fixed_sample_guard false sample m = false →
  let by_ := split_by_column b in
  let cs := [split_by_column b; split_with_column b; "timeStamp"] in
  let ws := DF.mkWindow (Some by_) [] rand_order in
  let wc := DF.mkWindow (Some by_) ["timeStamp"] (DF.sort_desc "timeStamp") in
  ∃ F strain stest ctrain ctest,
    min_rating_filter df m b = Some F
    ∧ stratified_split rand_order df m b ratio false sample = Some (Split strain stest)
    ∧ chronological_split df m b ratio false sample = Some (Split ctrain ctest)
    ∧ rows strain = train_rows ws by_ (split_with_column b) ratio false sample (rows F)
    ∧ rows stest = test_rows ws by_ (split_with_column b) ratio false sample (rows F)
    ∧ rows ctrain = DF.project cs <$> train_rows wc by_ "timeStamp" ratio false sample (rows F)
    ∧ rows ctest = DF.project cs <$> test_rows wc by_ "timeStamp" ratio false sample (rows F)
    ∧ DF.project (columns F) <$> (rows strain ++ rows stest) ≡ₚ rows F
    ∧ rows ctrain ++ rows ctest ≡ₚ DF.project cs <$> rows F
    ∧ (∀ c, Forall (λ r, DF.cell c r ≠ Null) (rows df)
            → Forall (λ r, DF.cell c r ≠ Null) (rows F)).
Proof.
  intros Hperm Hin Hts Hguard by_ cs ws wc.
  destruct (stratified_split_rows rand_order df m b ratio false sample Hperm Hin Hguard)
    as (F & HF & Hstrat).
  destruct (chronological_split_rows df m b ratio false sample Hin Hts Hguard)
    as (F' & HF' & Hchron).
  rewrite HF in HF'. injection HF' as <-.
  destruct (filtered_facts b m df (proj1 Hin)) as (F0 & HF0 & HinF & Hcols & Hrows & _).
  rewrite HF in HF0. injection HF0 as <-.
  destruct Hin as (Hfin & Hrank & Hfresh). destruct (Hfresh eq_refl) as [Hcnt Hsp].
  assert (by_ ≠ "rank" ∧ by_ ≠ "count" ∧ by_ ≠ "splitPoint") as (Hb1 & Hb2 & Hb3)
    by (unfold by_; by destruct b).
  assert (∀ x, x ∈ columns F → x ∈ columns df) as Hsub.
  { intros x. rewrite Hcols. intros [-> | Hx%elem_of_others]%elem_of_cons.
    - by destruct Hfin as (_ & ? & _).
    - by destruct Hx. }
  assert (("rank" ∉ columns F) ∧ ("count" ∉ columns F) ∧ ("splitPoint" ∉ columns F))
    as (HrF & HcF & HsF) by (split_and!; intros H%Hsub; done).
  assert (("rank" ∉ cs) ∧ ("count" ∉ cs) ∧ ("splitPoint" ∉ cs)) as (Hrc & Hcc & Hsc).
  { unfold cs. split_and!; destruct b; by apply (bool_decide_unpack _). }
  pose proof (split_rows_Permutation ws by_
                (split_with_column b) ratio false sample (rows F) Hperm Hb2 Hb3
                (columns F) HrF (λ _, conj HcF HsF)) as Hps.
  pose proof (split_rows_Permutation wc by_
                "timeStamp" ratio false sample (rows F)
                (λ l, merge_sort_Permutation _ l) Hb2 Hb3 cs Hrc (λ _, conj Hcc Hsc)) as Hpc.
  rewrite (project_wf F (proj1 HinF)) in Hps. rewrite fmap_app in Hpc.
  eexists F, _, _, _, _.
  split_and!; [done | exact Hstrat | exact Hchron | done | done | done | done | done | done |].
  intros c Hc. rewrite Forall_forall in Hc |- *. intros r Hr. apply Hc.
  rewrite Hrows in Hr. by apply list_elem_of_filter in Hr as [_ ?].
Qed.

(** X10.  In ratio mode a ratio of 0 holds nothing out: the test frames
    of the stratified and of the chronological splitter are empty and the
    train frames carry every record of the filtered input. *)
Theorem split_ratio_zero (rand_order : list Row → list Row)
    (df : DataFrame) (m : Z) (b : bool) (ratio : Q) (sample : Z) :
  (∀ l, rand_order l ≡ₚ l) → split_input b false df → "timeStamp" ∈ columns df →
  fixed_sample_guard false sample m = false → (ratio == 0)%Q →
  let cs := [split_by_column b; split_with_column b; "timeStamp"] in
  ∃ F strain stest ctrain ctest,
    min_rating_filter df m b = Some F
    ∧ stratified_split rand_order df m b ratio false sample = Some (Split strain stest)
    ∧ chronological_split df m b ratio false sample = Some (Split ctrain ctest)
    ∧ rows stest = [] ∧ rows ctest = []
    ∧ DF.project (columns F) <$> rows strain ≡ₚ rows F
    ∧ rows ctrain ≡ₚ DF.project cs <$> rows F.
Proof.
  intros Hperm Hin Hts Hguard Hratio cs.
  destruct (split_ratio_frames rand_order df m b ratio sample Hperm Hin Hts Hguard)
    as (F & strain & stest & ctrain & ctest & HF & Hs & Hc & _ & Est & _ & Ect & Hps & Hpc & _).
  rewrite test_rows_ratio_0 in Est, Ect by done. rewrite fmap_nil in Ect.
  rewrite Est, app_nil_r in Hps. rewrite Ect, app_nil_r in Hpc.
  exists F, strain, stest, ctrain, ctest. by split_and!.
Qed.

Lemma split_ratio_zero_witness :
  let cs := ["customerID"; "itemID"; "timeStamp"] in
  ∃ F strain stest ctrain ctest,
    min_rating_filter df1 2 true = Some F
    ∧ stratified_split id df1 2 true 0 false 3 = Some (Split strain stest)
    ∧ chronological_split df1 2 true 0 false 3 = Some (Split ctrain ctest)
    ∧ rows stest = [] ∧ rows ctest = []
    ∧ DF.project (columns F) <$> rows strain ≡ₚ rows F
    ∧ rows ctrain ≡ₚ DF.project cs <$> rows F.
Proof.
  apply (split_ratio_zero id df1 2 true 0 3).
  - done.
  - apply df1_split_input.
  - by apply (bool_decide_unpack _).
  - reflexivity.
  - reflexivity.
Defined.

(** X11.  In ratio mode a ratio of 1 holds everything out when no counted
    cell is NULL and the input has fewer than [2 ^ 53] rows, so that every
    count is a binary64 number: the train frames of the stratified and of
    the chronological splitter are empty and the test frames carry every
    record of the filtered input. *)
Theorem split_ratio_one (rand_order : list Row → list Row)
    (df : DataFrame) (m : Z) (b : bool) (ratio : Q) (sample : Z) :
  (∀ l, rand_order l ≡ₚ l) → split_input b false df → "timeStamp" ∈ columns df →
  fixed_sample_guard false sample m = false → (ratio == 1)%Q →
  Forall (λ r, DF.cell (split_with_column b) r ≠ Null
               ∧ DF.cell "timeStamp" r ≠ Null) (rows df) →
  (Z.of_nat (length (rows df)) < 2 ^ 53)%Z →
  let cs := [split_by_column b; split_with_column b; "timeStamp"] in
  ∃ F strain stest ctrain ctest,
    min_rating_filter df m b = Some F
    ∧ stratified_split rand_order df m b ratio false sample = Some (Split strain stest)
    ∧ chronological_split df m b ratio false sample = Some (Split ctrain ctest)
    ∧ rows strain = [] ∧ rows ctrain = []
    ∧ DF.project (columns F) <$> rows stest ≡ₚ rows F
    ∧ rows ctest ≡ₚ DF.project cs <$> rows F.
Proof.
  intros Hperm Hin Hts Hguard Hratio Hnn Hlen cs.
  destruct (split_ratio_frames rand_order df m b ratio sample Hperm Hin Hts Hguard)
    as (F & strain & stest & ctrain & ctest & HF & Hs & Hc & Est & _ & Ect & _ & Hps & Hpc & Hnull).
  assert (split_by_column b ≠ "count" ∧ split_by_column b ≠ "splitPoint") as [Hb2 Hb3]
    by (by destruct b).
  assert (Z.of_nat (length (rows F)) < 2 ^ 53)%Z as HlenF.
  { destruct (filtered_facts b m df (proj1 Hin)) as (F0 & HF0 & _ & _ & Hrows & _).
    rewrite HF in HF0. injection HF0 as <-.
    pose proof (filtered_length b m (rows df) (rows F) Hrows). lia. }
  rewrite train_rows_ratio_1 in Est; try done.
  2:{ apply Hnull. eapply Forall_impl; [exact Hnn |]. by intros r [? _]. }
  rewrite train_rows_ratio_1 in Ect; try done.
  2:{ apply (λ l, merge_sort_Permutation _ l). }
  2:{ apply Hnull. eapply Forall_impl; [exact Hnn |]. by intros r [_ ?]. }
  rewrite fmap_nil in Ect.
  rewrite Est, app_nil_l in Hps. rewrite Ect, app_nil_l in Hpc.
  exists F, strain, stest, ctrain, ctest. by split_and!.
Qed.

Lemma df1_no_null :
  Forall (λ r, DF.cell "itemID" r ≠ Null ∧ DF.cell "timeStamp" r ≠ Null) (rows df1).
Proof. repeat constructor; by vm_compute. Defined.

Lemma split_ratio_one_witness :
  let cs := ["customerID"; "itemID"; "timeStamp"] in
  ∃ F strain stest ctrain ctest,
    min_rating_filter df1 2 true = Some F
    ∧ stratified_split id df1 2 true 1 false 3 = Some (Split strain stest)
    ∧ chronological_split df1 2 true 1 false 3 = Some (Split ctrain ctest)
    ∧ rows strain = [] ∧ rows ctrain = []
    ∧ DF.project (columns F) <$> rows stest ≡ₚ rows F
    ∧ rows ctest ≡ₚ DF.project cs <$> rows F.
Proof.
  apply (split_ratio_one id df1 2 true 1 3).
  - done.
  - apply df1_split_input.
  - by apply (bool_decide_unpack _).
  - reflexivity.
  - reflexivity.
  - apply df1_no_null.
  - by vm_compute.
Defined.

(** ** The rank column keeps the stratified frames apart *)

Lemma ranked_take_drop (w : DF.WindowSpec) (by_ c : string) (ratio : Q) (fixed : bool)
    (rs : list Row) (k : Cell) (h : Z) (r : Row) :
  (r ∈ take (Z.to_nat h) (ranked_block w by_ c ratio fixed rs k)
   → r ∈ ranked_block w by_ c ratio fixed rs k
     ∧ DF.cell_cmp Z.leb (DF.cell "rank" r) h)
  ∧ (r ∈ drop (Z.to_nat h) (ranked_block w by_ c ratio fixed rs k)
     → r ∈ ranked_block w by_ c ratio fixed rs k
       ∧ DF.cell_cmp Z.gtb (DF.cell "rank" r) h).
Proof.
  unfold ranked_block.
  replace (Z.to_nat h) with (Z.to_nat (h - 1 + 1)) by (f_equal; lia).
  rewrite <- filter_le_number_from, <- filter_gt_number_from.
  rewrite !list_elem_of_filter. tauto.
Qed.

(** X12.  The train and the test frame of the stratified splitter never
    share a row, even when the input holds the same record twice: within
    an entity the rows carry distinct ranks, and a rank is at most the
    entity's bound in test and above it in train. *)
Theorem stratified_split_disjoint (rand_order : list Row → list Row) (df : DataFrame)
    (m : Z) (b : bool) (ratio : Q) (fixed : bool) (sample : Z) :
  (∀ l, rand_order l ≡ₚ l) → split_input b fixed df →
  fixed_sample_guard fixed sample m = false →
  ∃ train test,
    stratified_split rand_order df m b ratio fixed sample = Some (Split train test)
    ∧ ∀ r, r ∈ rows train → r ∉ rows test.
Proof.
  intros Hperm Hin Hguard.
  destruct (stratified_split_rows rand_order df m b ratio fixed sample Hperm Hin Hguard)
    as (F & HF & Hstrat).
  eexists _, _. split; [exact Hstrat |]. cbn [rows].
  set (by_ := split_by_column b).
  assert (by_ ≠ "rank") as Hb1 by (unfold by_; by destruct b).
  intros r Htrain Htest.
  unfold train_rows in Htrain. unfold test_rows in Htest.
  apply list_elem_of_bind in Htrain as (k & Hk & _).
  apply list_elem_of_bind in Htest as (k' & Hk' & _).
  apply ranked_take_drop in Hk as [Hblock Hgt].
  apply ranked_take_drop in Hk' as [Hblock' Hle].
  pose proof (ranked_block_keys (DF.mkWindow (Some by_) [] rand_order) by_
                (split_with_column b) ratio fixed (rows F) Hperm Hb1) as Hkey.
  pose proof (Hkey k') as Hkey'. specialize (Hkey k).
  rewrite Forall_forall in Hkey, Hkey'.
  apply Hkey in Hblock. apply Hkey' in Hblock'. subst k k'.
  unfold DF.cell_cmp in Hgt, Hle. destruct (DF.cell "rank" r); [done |].
  apply Is_true_true in Hgt, Hle. rewrite Z.gtb_gt in Hgt. rewrite Z.leb_le in Hle. lia.
Qed.

Lemma dfdup_split_input (fixed : bool) : split_input true fixed dfdup.
Proof.
  unfold split_input, filter_input, wf. split_and!.
  - by apply (bool_decide_unpack _).
  - repeat constructor; by vm_compute.
  - by apply (bool_decide_unpack _).
  - by apply (bool_decide_unpack _).
  - by apply (bool_decide_unpack _).
  - by apply (bool_decide_unpack _).
  - intros _. split; by apply (bool_decide_unpack _).
Defined.

Lemma stratified_split_disjoint_witness :
  ∃ train test,
    stratified_split id dfdup 2 true (1 # 2) true 1 = Some (Split train test)
    ∧ ∀ r, r ∈ rows train → r ∉ rows test.
Proof.
  apply (stratified_split_disjoint id dfdup 2 true (1 # 2) true 1).
  - done.
  - apply dfdup_split_input.
  - reflexivity.
Defined.

(** ** The non-overlapping splitter *)

Section EntitySides.
Variables (by_ : string) (rs : list Row) (S : list Row).
Hypothesis HS : S ≡ₚ (λ k, ({[by_ := k]} : Row)) <$> DF.group_keys by_ rs.






End EntitySides.






(** ** The random splitter *)

(** X15.  Outside the interval from 0 to 1 the ratio gives a negative
    weight, and the random splitter raises. *)
Theorem random_split_ratio_out_of_range (rand_draw : nat → Q) (df : DataFrame) (m : Z)
    (b : bool) (ratio : Q) :
  filter_input b df → (ratio < 0)%Q ∨ (1 < ratio)%Q →
  random_split rand_draw df m b ratio = None.
Proof.
  intros Hin Hratio.
  destruct (filtered_facts b m df Hin) as (F & HF & _).
  unfold random_split. rewrite HF. cbn [mbind option_bind].
  unfold DF.randomSplit.
  assert (Qle_bool 0 (1 - ratio) && Qle_bool 0 ratio = false) as ->; [| done].
  apply andb_false_iff. destruct Hratio as [Hneg | Hbig].
  - right. apply not_true_is_false. intros H. apply Qle_bool_iff in H.
    by apply Qle_not_lt in H.
  - left. apply not_true_is_false. intros H. apply Qle_bool_iff in H.
    apply Qle_minus_iff in H. by apply Qle_not_lt in H.
Qed.

Lemma random_split_ratio_out_of_range_witness :
  random_split (λ _, 1 # 2) df0 2 true (3 # 2) = None.
Proof.
  apply (random_split_ratio_out_of_range (λ _, 1 # 2) df0 2 true (3 # 2) df0_filter_input).
  right. done.
Defined.

Lemma sample_cell_all (lb ub : Q) (draw : nat → Q) (i : nat) (l : list Row) :
  (∀ j, (lb <= draw j)%Q ∧ (draw j < ub)%Q) → DF.sample_cell lb ub draw i l = l.
Proof.
  intros Hdraw. revert i. induction l as [|r l IH]; intros i; simpl; [done |].
  destruct (Hdraw i) as [H0 H1].
  assert (Qle_bool lb (draw i) = true) as -> by (by apply Qle_bool_iff).
  assert (Qle_bool ub (draw i) = false) as ->.
  { apply not_true_is_false. intros H. apply Qle_bool_iff in H. by apply Qle_not_lt in H. }
  simpl. by rewrite IH.
Qed.

Lemma sample_cell_none (lb ub : Q) (draw : nat → Q) (i : nat) (l : list Row) :
  (∀ j, (draw j < lb)%Q ∨ (ub <= draw j)%Q) → DF.sample_cell lb ub draw i l = [].
Proof.
  intros Hdraw. revert i. induction l as [|r l IH]; intros i; simpl; [done |].
  assert (Qle_bool lb (draw i) && negb (Qle_bool ub (draw i)) = false) as ->; [| by apply IH].
  apply andb_false_iff. destruct (Hdraw i) as [H | H].
  - left. apply not_true_is_false. intros H'. apply Qle_bool_iff in H'.
    by apply Qle_not_lt in H'.
  - right. apply negb_false_iff. by apply Qle_bool_iff.
Qed.

(** X16.  With draws in [0, 1): a ratio of 0 sends every record of the
    filtered input to train and none to test, a ratio of 1 every record to
    test and none to train. *)
Theorem random_split_ratio_bounds (rand_draw : nat → Q) (df : DataFrame) (m : Z)
    (b : bool) (ratio : Q) :
  (∀ j, (0 <= rand_draw j)%Q ∧ (rand_draw j < 1)%Q) → filter_input b df →
  (ratio == 0)%Q ∨ (ratio == 1)%Q →
  ∃ F train test,
    min_rating_filter df m b = Some F
    ∧ random_split rand_draw df m b ratio = Some (Split train test)
    ∧ ((ratio == 0)%Q → rows train = rows F ∧ rows test = [])
    ∧ ((ratio == 1)%Q → rows train = [] ∧ rows test = rows F).
Proof.
  intros Hdraw Hin Hratio.
  destruct (filtered_facts b m df Hin) as (F & HF & _).
  unfold random_split. rewrite HF. cbn [mbind option_bind].
  unfold DF.randomSplit.
  assert ((0 <= ratio)%Q ∧ (ratio <= 1)%Q) as [H0 H1].
  { destruct Hratio as [-> | ->]; done. }
  assert (Qle_bool 0 (1 - ratio) = true) as ->.
  { apply Qle_bool_iff. unfold Qminus. rewrite <- (Qplus_opp_r ratio).
    apply Qplus_le_l. done. }
  assert (Qle_bool 0 ratio = true) as -> by (by apply Qle_bool_iff).
  assert (Qle_bool (1 - ratio + ratio) 0 = false) as ->.
  { apply not_true_is_false. intros H. apply Qle_bool_iff in H.
    assert (1 - ratio + ratio == 1)%Q as Heq by ring. rewrite Heq in H. by apply Qle_not_lt in H. }
  cbn [andb negb mbind option_bind].
  eexists F, _, _. split_and!; try done; cbn [rows fst snd]; intros Hr.
  - assert ((1 - ratio) / (1 - ratio + ratio) == 1)%Q as Hc by (by rewrite Hr).
    split.
    + apply sample_cell_all. intros j. rewrite Hc. apply Hdraw.
    + apply sample_cell_none. intros j. left. rewrite Hc. apply Hdraw.
  - assert ((1 - ratio) / (1 - ratio + ratio) == 0)%Q as Hc by (by rewrite Hr).
    split.
    + apply sample_cell_none. intros j. right. rewrite Hc. apply Hdraw.
    + apply sample_cell_all. intros j. rewrite Hc. apply Hdraw.
Qed.

Lemma random_split_ratio_bounds_witness :
  ∃ F train test,
    min_rating_filter df0 2 true = Some F
    ∧ random_split (λ _, 1 # 2) df0 2 true 0 = Some (Split train test)
    ∧ ((0 == 0)%Q → rows train = rows F ∧ rows test = [])
    ∧ ((0 == 1)%Q → rows train = [] ∧ rows test = rows F).
Proof.
  apply (random_split_ratio_bounds (λ _, 1 # 2) df0 2 true 0).
  - intros j. split; done.
  - apply df0_filter_input.
  - left. reflexivity.
Defined.

(** ** The fit loop at its edges *)

Section FitEdges.

Context {ParamMap Model : Type}.
Variable est_fit : DataFrame → ParamMap → Model.
Variable transform : Model → DataFrame → ParamMap → DataFrame.
Variable evaluate : DataFrame → Q.
Variable isLargerBetter : bool.
Variable rs_min_rating_filter : DataFrame → Z → bool → option DataFrame.
Variable rs_stratified_split : DataFrame → Z → bool → Q → bool → Z → option SplitResult.

(** X17.  Without a parameter map, or with a parallelism below 1, the
    thread pool cannot be created and [_fit] raises, whatever the
    schedules. *)
Theorem _fit_needs_a_worker (yield_order completion : list nat)
    dataset userColumn itemColumn (epm : list ParamMap) tRatio c parallelism :
  epm = [] ∨ (parallelism < 1)%Z →
  _fit est_fit transform evaluate isLargerBetter rs_min_rating_filter rs_stratified_split
       yield_order completion dataset userColumn itemColumn epm tRatio c parallelism
  = None.
Proof.
  intros Hedge. unfold _fit.
  destruct (split _ _ _ _ _ _) as [[train validation]|]; [| done].
  cbn [mbind option_bind].
  assert ((Z.min parallelism (Z.of_nat (length epm)) <? 1)%Z = true) as ->; [| done].
  apply Z.ltb_lt. destruct Hedge as [-> | Hp]; [simpl length |]; lia.
Qed.

(** X18.  Once every trial runs, neither the parallelism (at least 1) nor
    the collecting of sub-models nor the interleaving of the trials changes
    the model that [_fit] selects or the metrics it reports. *)
Theorem _fit_selection_independent (yield_order completion yield_order' completion' : list nat)
    dataset userColumn itemColumn (epm : list ParamMap) tRatio (c c' : bool)
    (parallelism parallelism' : Z) :
  yield_order ≡ₚ seq 0 (length epm) → completion ≡ₚ seq 0 (length epm) →
  yield_order' ≡ₚ seq 0 (length epm) → completion' ≡ₚ seq 0 (length epm) →
  (1 ≤ parallelism)%Z → (1 ≤ parallelism')%Z →
  let run yo co c p :=
    _fit est_fit transform evaluate isLargerBetter rs_min_rating_filter rs_stratified_split
         yo co dataset userColumn itemColumn epm tRatio c p in
  bestModel <$> run yield_order completion c parallelism
  = bestModel <$> run yield_order' completion' c' parallelism'
  ∧ validationMetrics <$> run yield_order completion c parallelism
    = validationMetrics <$> run yield_order' completion' c' parallelism'.
Proof.
  intros Hy Hc Hy' Hc' Hp Hp' run. unfold run.
  rewrite !_fit_schedule_free by done.
  destruct (split _ _ _ _ _ _) as [[train validation]|]; [| done].
  cbn [mbind option_bind].
  assert (∀ p, (1 ≤ p)%Z →
            (Z.min p (Z.of_nat (length epm)) <? 1)%Z = (Z.of_nat (length epm) <? 1)%Z) as Hmin.
  { intros p Hp1. destruct (Z.ltb_spec (Z.of_nat (length epm)) 1).
    - apply Z.ltb_lt. lia.
    - apply Z.ltb_ge. lia. }
  rewrite !Hmin by done.
  destruct (Z.of_nat (length epm) <? 1)%Z; [done |]. cbn [mbind option_bind].
  destruct (if isLargerBetter then _ else _) as [i|]; [| done]. cbn [mbind option_bind].
  destruct (epm !! i) as [pm|]; done.
Qed.

End FitEdges.

Lemma _fit_needs_a_worker_witness :
  _fit toy_fit toy_transform toy_evaluate true min_rating_filter (stratified_split id)
       [0; 1]%nat [0; 1]%nat df0 "customerID" "itemID" [5; 9]%Z (4 # 5) true 0
  = None.
Proof.
  apply (_fit_needs_a_worker toy_fit toy_transform toy_evaluate true min_rating_filter
           (stratified_split id) [0; 1]%nat [0; 1]%nat df0 "customerID" "itemID"
           [5; 9]%Z (4 # 5) true 0).
  right. lia.
Defined.

Lemma _fit_selection_independent_witness :
  let run yo co c p :=
    _fit toy_fit toy_transform toy_evaluate true min_rating_filter (stratified_split id)
         yo co df0 "customerID" "itemID" [5; 9; 9]%Z (4 # 5) c p in
  bestModel <$> run [2; 0; 1]%nat [1; 2; 0]%nat true 2%Z
  = bestModel <$> run [0; 1; 2]%nat [0; 1; 2]%nat false 1%Z
  ∧ validationMetrics <$> run [2; 0; 1]%nat [1; 2; 0]%nat true 2%Z
    = validationMetrics <$> run [0; 1; 2]%nat [0; 1; 2]%nat false 1%Z.
Proof.
  apply (_fit_selection_independent toy_fit toy_transform toy_evaluate true
           min_rating_filter (stratified_split id)
           [2; 0; 1]%nat [1; 2; 0]%nat [0; 1; 2]%nat [0; 1; 2]%nat
           df0 "customerID" "itemID" [5; 9; 9]%Z (4 # 5) true false 2 1).
  - simpl. apply (Permutation_cons_append [0; 1]%nat 2%nat).
  - simpl. symmetry. apply (Permutation_cons_append [1; 2]%nat 0%nat).
  - done.
  - done.
  - lia.
  - lia.
Defined.

(** ** Renaming columns *)

Lemma cell_rename_new (old new : string) (r : Row) :
  is_Some (r !! old) → DF.cell new (DF.rename_key old new r) = DF.cell old r.
Proof.
  intros [v Hv]. unfold DF.rename_key, DF.cell. rewrite Hv.
  by rewrite lookup_insert_eq.
Qed.

Lemma lookup_rename_other (old new c : string) (r : Row) :
  c ≠ old → c ≠ new → DF.rename_key old new r !! c = r !! c.
Proof.
  intros Ho Hn. unfold DF.rename_key. destruct (r !! old) as [v|]; [| done].
  by rewrite lookup_insert_ne, lookup_delete_ne.
Qed.

Lemma cell_rename_other (old new c : string) (r : Row) :
  c ≠ old → c ≠ new → DF.cell c (DF.rename_key old new r) = DF.cell c r.
Proof. intros Ho Hn. unfold DF.cell. by rewrite lookup_rename_other. Qed.

Lemma elem_of_renamed (old new x : string) (cols : list string) :
  x ∈ (λ c, if decide (c = old) then new else c) <$> cols
  ↔ (x = new ∧ old ∈ cols) ∨ (x ≠ old ∧ x ∈ cols).
Proof.
  rewrite list_elem_of_fmap. split.
  - intros (c & -> & Hc). destruct (decide (c = old)) as [-> | Hne]; [by left | by right].
  - intros [[-> Ho] | [Hne Hx]].
    + exists old. by rewrite decide_True.
    + exists x. by rewrite decide_False.
Qed.

Lemma wf_renamed (old new : string) (df : DataFrame) :
  wf df → old ∈ columns df → new ∉ columns df ∨ new = old →
  wf (DF.withColumnRenamed old new df).
Proof.
  intros [Hnd Hdom] Hold Hnew. unfold wf, DF.withColumnRenamed. cbn [columns rows]. split.
  - apply NoDup_fmap_2_strong; [| done].
    intros x y Hx Hy. destruct (decide (x = old)) as [-> | Hxo], (decide (y = old)) as [-> | Hyo];
      intros Heq; subst; try done.
    + destruct Hnew as [? | ->]; done.
    + destruct Hnew as [? | ->]; done.
  - rewrite Forall_forall in Hdom. apply Forall_forall. intros r' (r & -> & Hr)%list_elem_of_fmap.
    specialize (Hdom r Hr).
    assert (is_Some (r !! old)) as [v Hv].
    { apply elem_of_dom. rewrite Hdom. by apply elem_of_list_to_set. }
    unfold DF.rename_key. rewrite Hv. apply set_eq. intros x.
    rewrite dom_insert_L, dom_delete_L, Hdom, elem_of_list_to_set, elem_of_renamed.
    rewrite elem_of_union, elem_of_singleton, elem_of_difference, elem_of_singleton,
      elem_of_list_to_set.
    tauto.
Qed.

Lemma group_fmap_key (by_ by' : string) (f : Row → Row) (k : Cell) (rs : list Row) :
  (∀ r, r ∈ rs → DF.cell by' (f r) = DF.cell by_ r) →
  DF.group by' k (f <$> rs) = f <$> DF.group by_ k rs.
Proof.
  intros Hf. unfold DF.group. rewrite filter_fmap. f_equal.
  apply filter_ext_in. intros r Hr. simpl. by rewrite Hf.
Qed.

Lemma group_size_fmap_key (by_ by' : string) (f : Row → Row) (k : Cell) (rs : list Row) :
  (∀ r, r ∈ rs → DF.cell by' (f r) = DF.cell by_ r) →
  group_size by' (f <$> rs) k = group_size by_ rs k.
Proof.
  intros Hf. unfold group_size. by rewrite (group_fmap_key by_ by' f k rs Hf), length_fmap.
Qed.

Lemma cell_is_Some (c : string) (r : Row) : DF.cell c r ≠ Null → is_Some (r !! c).
Proof. unfold DF.cell. destruct (r !! c); [by eexists | done]. Qed.

Section OutsideKeys.
Variables (w : DF.WindowSpec) (by_ c : string) (ratio : Q) (fixed : bool) (sample : Z).
Variable rs : list Row.
Hypothesis Hperm : ∀ l, DF.orderBy w l ≡ₚ l.
Hypothesis Hrank : by_ ≠ "rank".

Lemma split_rows_keys (r : Row) :
  r ∈ train_rows w by_ c ratio fixed sample rs ∨ r ∈ test_rows w by_ c ratio fixed sample rs →
  DF.cell by_ r ∈ DF.group_keys by_ rs.
Proof.
  pose proof (ranked_block_keys w by_ c ratio fixed rs Hperm Hrank) as Hkeys.
  unfold train_rows, test_rows.
  intros [(k & Hr & Hk)%list_elem_of_bind | (k & Hr & Hk)%list_elem_of_bind];
    apply ranked_take_drop in Hr as [Hr _];
    specialize (Hkeys k); rewrite Forall_forall in Hkeys; by rewrite (Hkeys r Hr).
Qed.

Lemma group_outside_keys (k : Cell) :
  k ∉ DF.group_keys by_ rs →
  DF.group by_ k (train_rows w by_ c ratio fixed sample rs) = []
  ∧ DF.group by_ k (test_rows w by_ c ratio fixed sample rs) = [].
Proof.
  intros Hk. split; apply filter_none, Forall_forall; intros r Hr <-; apply Hk;
    apply split_rows_keys; auto.
Qed.
End OutsideKeys.

(** ** [split]: the frames handed to the trials *)

Lemma length_remove_dups_le {A} `{EqDecision A} (l : list A) :
  (length (remove_dups l) ≤ length l)%nat.
Proof.
  induction l as [|x l IH]; [done |]. cbn [remove_dups].
  destruct (decide_rel elem_of x l); simpl; lia.
Qed.

Section SplitShare.
Variables (rand_order : list Row → list Row) (dataset : DataFrame) (tRatio : Q).
Variables (user item : string).
Hypothesis Hperm : ∀ l, rand_order l ≡ₚ l.
Hypothesis Hwf : wf dataset.
Hypothesis Huser : user ∈ columns dataset.
Hypothesis Hitem : item ∈ columns dataset.
Hypothesis Hui : user ≠ item.
Hypothesis Hu : user ≠ "itemID".
Hypothesis Hi : item ≠ "customerID".
Hypothesis Hcust : "customerID" ∈ columns dataset → user = "customerID".
Hypothesis Hitm : "itemID" ∈ columns dataset → item = "itemID".
Hypothesis Hfresh :
  Forall (λ c, c ∉ columns dataset) ["nitemID"; "rank"; "count"; "splitPoint"].

Lemma dropDuplicates_wf : wf (dropDuplicates dataset).
Proof.
  destruct Hwf as [Hnd Hdom]. split; [exact Hnd |]. unfold dropDuplicates. cbn [rows].
  rewrite Forall_forall in Hdom. apply Forall_forall. intros r Hr.
  rewrite elem_of_remove_dups in Hr. by apply Hdom.
Qed.

Lemma renamed_once_wf :
  wf (DF.withColumnRenamed user "customerID" (dropDuplicates dataset)).
Proof.
  apply wf_renamed; [apply dropDuplicates_wf | done |].
  destruct (decide ("customerID" ∈ columns dataset)) as [H | H]; [right | by left].
  symmetry. by apply Hcust.
Qed.

Lemma renamed_once_columns (x : string) :
  x ∈ columns (DF.withColumnRenamed user "customerID" (dropDuplicates dataset))
  ↔ x = "customerID" ∨ (x ≠ user ∧ x ∈ columns dataset).
Proof.
  unfold DF.withColumnRenamed. cbn [columns dropDuplicates].
  rewrite elem_of_renamed. tauto.
Qed.

Lemma renamed_wf : wf (renamed_input dataset user item).
Proof.
  apply wf_renamed; [apply renamed_once_wf | |].
  - apply renamed_once_columns. by right.
  - destruct (decide ("itemID" ∈ columns dataset)) as [H | H].
    + right. symmetry. by apply Hitm.
    + left. rewrite renamed_once_columns. intros [? | [_ ?]]; done.
Qed.

Lemma renamed_columns (x : string) :
  x ∈ columns (renamed_input dataset user item)
  ↔ x = "itemID" ∨ x = "customerID" ∨ (x ≠ user ∧ x ≠ item ∧ x ∈ columns dataset).
Proof.
  unfold renamed_input, DF.withColumnRenamed at 1. cbn [columns].
  rewrite elem_of_renamed, !renamed_once_columns. split.
  - intros [[-> _] | [Hx [-> | [? ?]]]]; auto.
  - intros [-> | [-> | (? & ? & ?)]].
    + left. split; [done |]. right. done.
    + right. split; [done |]. by left.
    + right. split; [done |]. right. done.
Qed.

Lemma renamed_rows :
  rows (renamed_input dataset user item) = rename_in user item <$> remove_dups (rows dataset).
Proof.
  unfold renamed_input, DF.withColumnRenamed. cbn [rows dropDuplicates].
  by rewrite <- list_fmap_compose.
Qed.

Lemma renamed_cells (r : Row) :
  r ∈ remove_dups (rows dataset) →
  DF.cell "customerID" (rename_in user item r) = DF.cell user r
  ∧ DF.cell "itemID" (rename_in user item r) = DF.cell item r.
Proof.
  intros Hr. rewrite elem_of_remove_dups in Hr. destruct Hwf as [_ Hdom].
  rewrite Forall_forall in Hdom. specialize (Hdom r Hr).
  assert (is_Some (r !! user)) as Hsu.
  { apply elem_of_dom. rewrite Hdom. by apply elem_of_list_to_set. }
  assert (is_Some (r !! item)) as Hsi.
  { apply elem_of_dom. rewrite Hdom. by apply elem_of_list_to_set. }
  unfold rename_in. split.
  - rewrite cell_rename_other by done. by apply cell_rename_new.
  - rewrite cell_rename_new; [by apply cell_rename_other |].
    by rewrite lookup_rename_other.
Qed.

Lemma renamed_filter_input : filter_input true (renamed_input dataset user item).
Proof.
  rewrite !Forall_cons in Hfresh. destruct Hfresh as (Hn & _).
  unfold filter_input. split_and!.
  - apply renamed_wf.
  - apply renamed_columns. auto.
  - apply renamed_columns. auto.
  - rewrite renamed_columns. intros [? | [? | (_ & _ & ?)]]; done.
Qed.

Lemma renamed_group_size (k : Cell) :
  group_size "customerID" (rows (renamed_input dataset user item)) k
  = group_size user (remove_dups (rows dataset)) k.
Proof.
  rewrite renamed_rows. apply group_size_fmap_key. intros r Hr.
  by apply renamed_cells.
Qed.

Hypothesis Hnn : Forall (λ r, DF.cell item r ≠ Null) (rows dataset).

Lemma renamed_no_null :
  Forall (λ r, DF.cell "itemID" r ≠ Null) (rows (renamed_input dataset user item)).
Proof.
  rewrite renamed_rows. apply Forall_forall. intros r' (r & -> & Hr)%list_elem_of_fmap.
  destruct (renamed_cells r Hr) as [_ ->].
  rewrite Forall_forall in Hnn. apply Hnn. by apply elem_of_remove_dups.
Qed.

Lemma renamed_rating_count (k : Cell) :
  rating_count true (rows (renamed_input dataset user item)) k
  = group_size user (remove_dups (rows dataset)) k.
Proof.
  rewrite <- renamed_group_size. unfold rating_count, group_size.
  apply count_col_no_null. apply Forall_forall. intros r [_ Hr]%group_cell.
  pose proof renamed_no_null as H. rewrite Forall_forall in H. by apply H.
Qed.

Hypothesis H0 : (0 <= tRatio)%Q.
Hypothesis H1 : (tRatio <= 1)%Q.
Hypothesis Hlen : (Z.of_nat (length (rows dataset)) < 2 ^ 53)%Z.

Lemma renamed_back_group_size (rs : list Row) (k : Cell) :
  Forall (λ r, DF.cell "customerID" r ≠ Null) rs →
  group_size user
    (DF.rename_key "itemID" item <$> (DF.rename_key "customerID" user <$> rs)) k
  = group_size "customerID" rs k.
Proof.
  intros Hrs. rewrite <- list_fmap_compose. apply group_size_fmap_key.
  intros r Hr. rewrite Forall_forall in Hrs. cbn [compose].
  rewrite cell_rename_other by done. apply cell_rename_new, cell_is_Some. by apply Hrs.
Qed.

(** X19.  [split] hands [trainRatio] to the stratified splitter as the
    share to hold out.  On a well-formed data set of fewer than [2 ^ 53]
    rows without NULL item ids, whose other columns do not clash with the
    names the splitters use, and for a train ratio between 0 and 1, [split]
    returns a pair of frames in which a user with [n] distinct records, [n]
    at least 6, has [held] records in the validation frame and the other
    [n - held] in the train frame, where [held] is the split point of [n]
    at the train ratio: their binary64 product rounded to the nearest
    integer, half to even (31 for 45 records at 0.7).  A user with fewer
    than 6 distinct records is in neither frame. *)
Theorem split_validation_share :
  (∃ train validation,
    split min_rating_filter (stratified_split rand_order) dataset tRatio user item
      = Some (train, validation)
    ∧ ∀ k, let n := group_size user (remove_dups (rows dataset)) k in
           let held := DF.round_half_even (DF.double_mul n tRatio) in
           (k ≠ Null → (6 ≤ n)%Z →
            (0 ≤ held ≤ n)%Z
            ∧ split_point n tRatio held
            ∧ group_size user (rows validation) k = held
            ∧ group_size user (rows train) k = (n - held)%Z)
           ∧ (k = Null ∨ (n < 6)%Z →
              group_size user (rows validation) k = 0%Z
              ∧ group_size user (rows train) k = 0%Z))
  ∧ DF.round_half_even (DF.double_mul 45 (7 # 10)) = 31%Z
  ∧ DF.round_half_even (DF.double_mul 8 (3 # 4)) = 6%Z.
Proof.
  split; [| split; by vm_compute].
  set (R := renamed_input dataset user item).
  pose proof renamed_filter_input as HinR. fold R in HinR.
  destruct (filtered_facts true 6 R HinR) as (F6 & HF6 & HinF6 & Hcols6 & Hrows6 & _).
  assert (∀ x, x ∈ columns F6 → x ∈ columns R) as Hsub6.
  { intros x. rewrite Hcols6. intros [-> | Hx%elem_of_others]%elem_of_cons.
    - by destruct HinR as (_ & ? & _).
    - by destruct Hx. }
  assert (split_input true false F6) as Hsplit6.
  { rewrite !Forall_cons in Hfresh. destruct Hfresh as (_ & Hr & Hc & Hs & _).
    split; [done |].
    assert (∀ x, x ≠ "itemID" → x ≠ "customerID" → x ∉ columns dataset → x ∉ columns F6) as Hno.
    { intros x ? ? ? Hx%Hsub6. apply renamed_columns in Hx as [? | [? | (_ & _ & ?)]]; done. }
    split; [by apply Hno |]. intros _. split; by apply Hno. }
  destruct (stratified_split_rows rand_order F6 3 true tRatio false 3 Hperm Hsplit6 eq_refl)
    as (F3 & HF3 & Hstrat).
  destruct (filtered_facts true 3 F6 HinF6) as (F3' & HF3' & _ & _ & Hrows3 & Hkeys3).
  rewrite HF3 in HF3'. injection HF3' as <-.
  pose proof (filter_retained_max true 6 3 (rows R) (rows F6) Hrows6) as Hmax.
  rewrite <- Hrows3 in Hmax. change (6 `max` 3)%Z with 6%Z in Hmax.
  unfold split. change (DF.withColumnRenamed item "itemID" _) with R. rewrite HF6. cbn [mbind option_bind].
  change (split_by_column true) with "customerID" in *.
  change (split_with_column true) with "itemID" in *.
  set (ws := DF.mkWindow (Some "customerID") [] rand_order) in *.
  rewrite Hstrat. cbn [mbind option_bind].
  eexists _, _. split; [reflexivity |].
  intros k. set (n := group_size user (remove_dups (rows dataset)) k).
  set (held := DF.round_half_even (DF.double_mul n tRatio)).
  unfold DF.withColumnRenamed. cbn [rows].
  assert (n ≤ Z.of_nat (length (rows dataset)))%Z as Hnlen.
  { pose proof (group_size_le_length user (remove_dups (rows dataset)) k).
    pose proof (length_remove_dups_le (rows dataset)). unfold n. lia. }
  assert (∀ r, r ∈ train_rows ws "customerID" "itemID" tRatio false 3 (rows F3)
               ∨ r ∈ test_rows ws "customerID" "itemID" tRatio false 3 (rows F3)
               → DF.cell "customerID" r ≠ Null) as Hnonnull.
  { intros r Hr. apply (split_rows_keys ws "customerID") in Hr; [| done | done].
    apply elem_of_group_keys in Hr as (r0 & Hr0 & <-).
    rewrite Forall_forall in Hkeys3. by apply Hkeys3. }
  rewrite !renamed_back_group_size
    by (apply Forall_forall; intros r Hr; apply Hnonnull; auto).
  assert (DF.group "customerID" k (rows F3)
          ≡ₚ if decide (k ≠ Null ∧ (6 ≤ n)%Z) then DF.group "customerID" k (rows R) else [])
    as Hgroup.
  { rewrite (group_Permutation "customerID" k _ _ Hmax).
    change "customerID" with (split_by_column true). rewrite group_retained.
    unfold R. rewrite renamed_rating_count. fold n. by destruct (decide _). }
  assert (Forall (λ r, DF.cell "itemID" r ≠ Null) (rows F3)) as Hnn3.
  { pose proof renamed_no_null as HnR. fold R in HnR. rewrite Forall_forall in HnR |- *.
    intros r Hr. apply HnR. rewrite Hmax in Hr.
    by apply list_elem_of_filter in Hr as [_ ?]. }
  split.
  - intros Hk Hn. rewrite decide_True in Hgroup by done.
    assert (group_size "customerID" (rows F3) k = n) as Hsize.
    { unfold group_size. rewrite Hgroup. apply renamed_group_size. }
    assert (k ∈ DF.group_keys "customerID" (rows F3)) as Hkey.
    { apply group_size_pos_key. lia. }
    pose proof (held_out_bounds "customerID" "itemID" tRatio false 3 (rows F3) 6 k
                  ltac:(lia) ltac:(split_and!; [done | done | lia])) as Hb.
    destruct (ranked_group_sizes ws "customerID" "itemID" tRatio false 3 (rows F3)
                Hperm ltac:(done) ltac:(done) ltac:(done) k Hkey Hb) as [Ht Htr].
    assert (held_out "customerID" "itemID" tRatio false 3 (rows F3) k = held) as He.
    { cbn [held_out]. unfold held. do 2 f_equal.
      rewrite <- Hsize. unfold group_size. apply count_col_no_null.
      apply Forall_forall. intros r [_ Hr]%group_cell.
      rewrite Forall_forall in Hnn3. by apply Hnn3. }
    rewrite Ht, Htr, Hsize. rewrite He in Hb |- *. rewrite Hsize in Hb.
    split_and!; try done; try lia. apply split_point_round.
  - intros Hk. rewrite decide_False in Hgroup by (intros [? ?]; destruct Hk; [done | lia]).
    apply Permutation_nil_r in Hgroup.
    assert (k ∉ DF.group_keys "customerID" (rows F3)) as Hkey.
    { intros (r & Hr & Hrk)%elem_of_group_keys.
      assert (r ∈ DF.group "customerID" k (rows F3)) as Hin by (by apply group_cell).
      rewrite Hgroup in Hin. by apply elem_of_nil in Hin. }
    destruct (group_outside_keys ws "customerID" "itemID" tRatio false 3 (rows F3)
                Hperm ltac:(done) k Hkey) as [Htr Hte].
    unfold group_size. by rewrite Htr, Hte.
Qed.
End SplitShare.

Lemma split_validation_share_witness :
  (∃ train validation,
    split min_rating_filter (stratified_split id) df_users (3 # 4) "user" "item"
      = Some (train, validation)
    ∧ ∀ k, let n := group_size "user" (remove_dups (rows df_users)) k in
           let held := DF.round_half_even (DF.double_mul n (3 # 4)) in
           (k ≠ Null → (6 ≤ n)%Z →
            (0 ≤ held ≤ n)%Z
            ∧ split_point n (3 # 4) held
            ∧ group_size "user" (rows validation) k = held
            ∧ group_size "user" (rows train) k = (n - held)%Z)
           ∧ (k = Null ∨ (n < 6)%Z →
              group_size "user" (rows validation) k = 0%Z
              ∧ group_size "user" (rows train) k = 0%Z))
  ∧ DF.round_half_even (DF.double_mul 45 (7 # 10)) = 31%Z
  ∧ DF.round_half_even (DF.double_mul 8 (3 # 4)) = 6%Z.
Proof.
  apply (split_validation_share id df_users (3 # 4) "user" "item").
  - done.
  - split; [by apply (bool_decide_unpack _) | repeat constructor; by vm_compute].
  - by apply (bool_decide_unpack _).
  - by apply (bool_decide_unpack _).
  - done.
  - done.
  - done.
  - intros H. exfalso. revert H. by apply (bool_decide_unpack _).
  - intros H. exfalso. revert H. by apply (bool_decide_unpack _).
  - repeat constructor; by apply (bool_decide_unpack _).
  - repeat constructor; by vm_compute.
  - done.
  - done.
  - by vm_compute.
Defined.

(** With a train ratio of 3/4 the user with eight distinct records gets
    six of them in validation and two in train. *)
Example split_df_users_sizes :
  split_sizes (option_map (λ p, Split p.1 p.2)
                 (split min_rating_filter (stratified_split id) df_users (3 # 4) "user" "item"))
  = Some (2, 6)%nat.
Proof. vm_compute. reflexivity. Qed.

(** ** The helper columns of a ratio split *)



